(** * InterDex packer (opt/interdex/InterDex.cpp): shallow embedding and properties

    The packer of [InterDex::run] is embedded as Rocq functions over a state
    and error monad; sets of refs become [gset], sets of classes [listset],
    the name index a [gmap], vectors lists, and machine integers [Z] with
    their wrap-around written out. *)

From Stdlib Require Import ZArith String Ascii Lia DecimalString DecimalNat.
From stdpp Require Import base tactics option list gmap sets listset strings countable.

Open Scope string_scope.
Open Scope list_scope.
Open Scope Z_scope.

(** ** Machine integers *)

(** [unsigned] is 32 bits wide and [size_t] 64 bits wide on the platforms
    the optimizer is built for. *)
Definition wrap32 (z : Z) : Z := z mod 2 ^ 32.
Definition wrap64 (z : Z) : Z := z mod 2 ^ 64.

(** [v.size() * k] with [k] an [unsigned] constant: computed in [size_t]. *)
Definition size_mul (n : nat) (k : Z) : Z := wrap64 (Z.of_nat n * k).

(** [lasize += x] with [lasize : unsigned] and [x : size_t]: the sum is
    formed in [size_t] and converted back to [unsigned]. *)
Definition add_assign_u32 (lasize x : Z) : Z := wrap32 (wrap64 (lasize + x)).

(** ** Data model *)

(** A [DexType*] is interned by descriptor, so the descriptor stands for it. *)
Definition DexType := string.

Record DexMethodRef := mk_mref {
  mref_class : DexType;   (* get_class() *)
  mref_sig : string       (* name and prototype *)
}.

Record DexFieldRef := mk_fref {
  fref_class : DexType;   (* get_class() *)
  fref_sig : string
}.

(** An instruction as [find_unrefenced_coldstart_classes] inspects it:
    [has_method], else [has_field], else [has_type], else nothing. *)
Inductive IRInstruction :=
| insn_method (m : DexMethodRef)
| insn_field (f : DexFieldRef)
| insn_type (t : DexType)
| insn_other.

Record DexMethod := mk_method {
  meth_class : DexType;                   (* get_class() *)
  meth_static : bool;                     (* is_static *)
  meth_code : option (list IRInstruction) (* get_code(), absent for abstract/native *)
}.

(** The observable attributes of a [DexClass]; a handle is identified with
    the attributes it gives access to. *)
Record DexClass := mk_class {
  cls_name : DexType;                  (* get_type()->get_name() *)
  cls_super : option DexType;          (* get_super_class(), nullptr as None *)
  cls_interface : bool;                (* is_interface *)
  cls_dmethods : list DexMethod;       (* get_dmethods() *)
  cls_vmethods : list DexMethod;       (* get_vmethods() *)
  cls_ifields : list DexFieldRef;      (* get_ifields() *)
  cls_gather_methods : list DexMethodRef;  (* gather_methods *)
  cls_gather_fields : list DexFieldRef;    (* gather_fields *)
  cls_gather_types : list DexType;         (* gather_types *)
  cls_can_rename : bool                (* can_rename *)
}.

#[global] Instance DexMethodRef_eq_dec : EqDecision DexMethodRef.
Proof. solve_decision. Defined.
#[global] Instance DexFieldRef_eq_dec : EqDecision DexFieldRef.
Proof. solve_decision. Defined.
#[global] Instance IRInstruction_eq_dec : EqDecision IRInstruction.
Proof. solve_decision. Defined.
#[global] Instance DexMethod_eq_dec : EqDecision DexMethod.
Proof. solve_decision. Defined.
#[global] Instance DexClass_eq_dec : EqDecision DexClass.
Proof. solve_decision. Defined.

#[global] Instance DexMethodRef_countable : Countable DexMethodRef.
Proof.
  refine (inj_countable' (fun r => (mref_class r, mref_sig r))
            (fun p => mk_mref p.1 p.2) _).
  by intros [].
Defined.

#[global] Instance DexFieldRef_countable : Countable DexFieldRef.
Proof.
  refine (inj_countable' (fun r => (fref_class r, fref_sig r))
            (fun p => mk_fref p.1 p.2) _).
  by intros [].
Defined.

(** ** Linear-alloc estimator *)

Record PenaltyPattern := mk_pattern { suffix : string; penalty : Z }.

Definition kPatterns : list PenaltyPattern :=
  [ mk_pattern "Layout;" 1500;
    mk_pattern "View;" 1500;
    mk_pattern "ViewGroup;" 1800;
    mk_pattern "Activity;" 1500 ].

Definition kObjectVtable : Z := 48.
Definition kMethodSize : Z := 52.
Definition kInstanceFieldSize : Z := 16.
Definition kVtableSlotSize : Z := 4.

(** Modelled from the spec: [ends_with] of StringUtil.h, which is not among
    the sources; the spec names its meaning ("endswith semantics"): the last
    [strlen suffix] characters of [str] are [suffix]. *)
Definition ends_with (str sfx : string) : bool :=
  (String.length sfx <=? String.length str)%nat &&
  String.eqb (substring (String.length str - String.length sfx)
                (String.length sfx) str) sfx.

(** [matches_penalty(str, penalty)]: [Some p] when it returns true having set
    [penalty] to [p], [None] when it returns false and leaves it alone. *)
Fixpoint matches_penalty_in (patterns : list PenaltyPattern) (str : string)
  : option Z :=
  match patterns with
  | [] => None
  | pattern :: rest =>
      if ends_with str (suffix pattern) then Some (penalty pattern)
      else matches_penalty_in rest str
  end.

Definition matches_penalty (str : string) : option Z :=
  matches_penalty_in kPatterns str.

(** The value of [vtablePenalty] when it is added to [lasize]. *)
Definition vtable_penalty (clazz : DexClass) : Z :=
  match matches_penalty (cls_name clazz) with
  | Some p => p
  | None =>
      match cls_super clazz with
      | Some super =>
          match matches_penalty super with
          | Some p => p
          | None => kObjectVtable
          end
      | None => kObjectVtable
      end
  end.

Definition estimate_linear_alloc (clazz : DexClass) : Z :=
  let lasize := 0 in
  let lasize :=
    if negb (cls_interface clazz) then
      let lasize := wrap32 (lasize + vtable_penalty clazz) in
      add_assign_u32 lasize (size_mul (length (cls_vmethods clazz)) kVtableSlotSize)
    else lasize in
  let lasize := add_assign_u32 lasize (size_mul (length (cls_dmethods clazz)) kMethodSize) in
  let lasize := add_assign_u32 lasize (size_mul (length (cls_vmethods clazz)) kMethodSize) in
  let lasize := add_assign_u32 lasize (size_mul (length (cls_ifields clazz)) kInstanceFieldSize) in
  lasize.

(** The cost model as the specification words it, over the integers. *)
Definition spec_vtable_penalty (own : string) (super : option string) : Z :=
  let table (n : string) : option Z :=
    if ends_with n "Layout;" then Some 1500
    else if ends_with n "View;" then Some 1500
    else if ends_with n "ViewGroup;" then Some 1800
    else if ends_with n "Activity;" then Some 1500
    else None in
  match table own with
  | Some p => p
  | None => match super with
            | Some s => match table s with Some p => p | None => 48 end
            | None => 48
            end
  end.

Definition spec_linear_alloc (C : DexClass) : Z :=
  (if cls_interface C then 0
   else spec_vtable_penalty (cls_name C) (cls_super C)
        + Z.of_nat (length (cls_vmethods C)) * 4)
  + (Z.of_nat (length (cls_dmethods C)) + Z.of_nat (length (cls_vmethods C))) * 52
  + Z.of_nat (length (cls_ifields C)) * 16.

(** ** Constants of the packer *)

Definition kMaxMethodRefs : Z := 64 * 1024 - 1.
Definition kMaxFieldRefs : Z := 64 * 1024 - 1.
Definition kCanaryPrefix : string := "Lsecondary/dex".
Definition kMaxDexNum : Z := 99.

(** [snprintf(buf, sizeof(buf), "Lsecondary/dex%02d/Canary;", dexnum)]: the
    number in decimal, padded with a zero to two digits. *)
Definition format_02d (n : nat) : string :=
  let digits := NilEmpty.string_of_uint (Nat.to_uint n) in
  if (String.length digits <? 2)%nat then ("0" ++ digits)%string else digits.

Definition canary_name (dexnum : nat) : string :=
  (kCanaryPrefix ++ format_02d dexnum ++ "/Canary;")%string.

(** [strncmp(cname, kCanaryPrefix, sizeof(kCanaryPrefix) - 1) == 0]. *)
Definition is_canary (clazz : DexClass) : bool :=
  String.prefix kCanaryPrefix (cls_name clazz).

(** ** Plugins

    The hooks of [InterDexPassPlugin] the packer calls, as functions of the
    arguments they receive. [gather_mrefs] extends the two vectors in place. *)
Record InterDexPassPlugin := mk_plugin {
  plugin_gather_mrefs :
    DexClass -> list DexMethodRef * list DexFieldRef ->
    list DexMethodRef * list DexFieldRef;
  plugin_should_skip_class : DexClass -> bool;
  plugin_additional_classes : list (list DexClass) -> list DexClass -> list DexClass;
  plugin_leftover_classes : list DexClass
}.

Definition gather_refs (plugins : list InterDexPassPlugin) (cls : DexClass)
  : gset DexMethodRef * gset DexFieldRef :=
  let vectors :=
    foldl (fun refs plugin => plugin_gather_mrefs plugin cls refs)
      (cls_gather_methods cls, cls_gather_fields cls) plugins in
  (list_to_set vectors.1, list_to_set vectors.2).

(** [std::unordered_set<DexClass*>::insert]: a set already holding [x] is
    left as it is. The elements are kept most recent first. *)
Definition set_insert (x : DexClass) (X : listset DexClass) : listset DexClass :=
  if bool_decide (x ∈ X) then X else Listset (x :: listset_car X).

(** Insertion of a range, front to back. *)
Definition set_insert_all (l : list DexClass) (X : listset DexClass)
  : listset DexClass :=
  foldl (fun acc x => set_insert x acc) X l.

(** Removes the elements of [b] from [a]. *)
Definition set_difference `{Countable T} (a b : gset T) : gset T :=
  filter (fun v => v ∉ b) a.

Definition should_skip_class (plugins : list InterDexPassPlugin)
  (clazz : DexClass) : bool :=
  existsb (fun plugin => plugin_should_skip_class plugin clazz) plugins.

(** ** Emit tracker, per-dex flags, mixed-mode info *)

(** Modelled from the spec: [dex_emit_tracker] is declared in InterDex.h,
    which is not among the sources. The spec lists its fields (pending list
    [outs], unique sets [mrefs] and [frefs], accumulated [la_size], index
    [clookup], set [emitted]); [la_size] is kept in the range of the
    [unsigned] estimates added to it. *)
Record dex_emit_tracker := mk_det {
  la_size : Z;
  mrefs : gset DexMethodRef;
  frefs : gset DexFieldRef;
  outs : list DexClass;
  emitted : listset DexClass;
  clookup : gmap string DexClass
}.

Definition empty_tracker : dex_emit_tracker :=
  mk_det 0 ∅ ∅ [] ∅ ∅.

(** Modelled from the spec: [start_new_dex] (InterDex.h) "clears outs, mrefs,
    frefs, la_size. Retains clookup and emitted". *)
Definition start_new_dex (det : dex_emit_tracker) : dex_emit_tracker :=
  mk_det 0 ∅ ∅ [] (emitted det) (clookup det).

(** Modelled from the spec: [DexConfig] (InterDex.h), the per-bin flags; a
    default-constructed or [reset] value has all three cleared. *)
Record DexConfig := mk_dconfig {
  is_coldstart : bool;
  is_extended_set : bool;
  has_scroll_cls : bool
}.

Definition s_empty_config : DexConfig := mk_dconfig false false false.

Inductive DexStatus := FIRST_COLDSTART_DEX | FIRST_EXTENDED_DEX | SCROLL_DEX.

#[global] Instance DexStatus_eq_dec : EqDecision DexStatus.
Proof. solve_decision. Defined.

(** Modelled from the spec: [MixedModeInfo] is declared outside the sources;
    the spec gives "a named set of classes plus a status set ... and two
    capability flags", walked "in insertion order". *)
Record MixedModeInfo := mk_mixed {
  mixed_mode_classes : list DexClass;
  mixed_mode_status : list DexStatus;
  can_touch_coldstart_set : bool;
  can_touch_coldstart_extended_set : bool
}.

Definition has_predefined_classes (mmi : MixedModeInfo) : bool :=
  negb (bool_decide (mixed_mode_classes mmi = [])).

Definition is_mixed_mode_class (mmi : MixedModeInfo) (clazz : DexClass) : bool :=
  bool_decide (clazz ∈ mixed_mode_classes mmi).

Definition remove_mixed_mode_class (mmi : MixedModeInfo) (clazz : DexClass)
  : MixedModeInfo :=
  mk_mixed (filter (fun c => c ≠ clazz) (mixed_mode_classes mmi))
    (mixed_mode_status mmi) (can_touch_coldstart_set mmi)
    (can_touch_coldstart_extended_set mmi).

Definition remove_all_mixed_mode_classes (mmi : MixedModeInfo) : MixedModeInfo :=
  mk_mixed [] (mixed_mode_status mmi) (can_touch_coldstart_set mmi)
    (can_touch_coldstart_extended_set mmi).

Definition has_status (mmi : MixedModeInfo) (st : DexStatus) : bool :=
  bool_decide (st ∈ mixed_mode_status mmi).

(** ** The pass object and its mutable state *)

(** What a run reads and never writes. [set_order] is the order in which a
    [std::unordered_set<DexClass*>] hands out its elements, which the
    language leaves unspecified; [type_registry] lists the classes
    [type_class] knows. *)
Record InterDexConfig := mk_config {
  m_dexen : list (list DexClass);
  m_plugins : list InterDexPassPlugin;
  m_linear_alloc_limit : Z;
  m_static_prune_classes : bool;
  m_normal_primary_dex : bool;
  m_emit_scroll_set_marker : bool;
  m_emit_canaries : bool;
  coldstart_class_names : list string;     (* m_cfg.get_coldstart_classes() *)
  type_registry : list DexClass;
  set_order : listset DexClass -> list DexClass
}.

(** A traversal order is admissible when it enumerates exactly the elements
    of the set, each once. *)
Definition valid_set_order (order : listset DexClass -> list DexClass) : Prop :=
  forall X : listset DexClass, NoDup (order X) /\ forall c, c ∈ order X <-> c ∈ X.

(** [type_class(type)]: the class defining the type, [None] for nullptr. *)
Definition type_class (registry : list DexClass) (t : DexType) : option DexClass :=
  find (fun c => String.eqb (cls_name c) t) registry.

(** What a run writes: the tracker handed to the helpers as [det], the
    output vector, the counters of the pass object and of the file scope,
    the mixed-mode class set and the [mixed_mode.txt] asset. The counters
    that only feed the final trace ([global_*_cnt]) are left out. *)
Record InterDexState := mk_state {
  det : dex_emit_tracker;
  outdex : list (list DexClass);
  m_secondary_dexes : nat;
  m_coldstart_dexes : nat;
  m_extended_set_dexes : nat;
  m_scroll_dexes : nat;
  m_num_mixed_mode_dexes : nat;
  m_cold_start_set_dex_count : nat;
  scroll_set_dex_count : Z;
  cls_skipped_in_primary : nat;
  cls_skipped_in_secondary : nat;
  m_mixed_mode_info : MixedModeInfo;
  mixed_mode_txt : string
}.

Definition set_det (d : dex_emit_tracker) (s : InterDexState) : InterDexState :=
  mk_state d (outdex s) (m_secondary_dexes s) (m_coldstart_dexes s)
    (m_extended_set_dexes s) (m_scroll_dexes s) (m_num_mixed_mode_dexes s)
    (m_cold_start_set_dex_count s) (scroll_set_dex_count s)
    (cls_skipped_in_primary s) (cls_skipped_in_secondary s)
    (m_mixed_mode_info s) (mixed_mode_txt s).

Definition set_outdex (o : list (list DexClass)) (s : InterDexState) : InterDexState :=
  mk_state (det s) o (m_secondary_dexes s) (m_coldstart_dexes s)
    (m_extended_set_dexes s) (m_scroll_dexes s) (m_num_mixed_mode_dexes s)
    (m_cold_start_set_dex_count s) (scroll_set_dex_count s)
    (cls_skipped_in_primary s) (cls_skipped_in_secondary s)
    (m_mixed_mode_info s) (mixed_mode_txt s).

Definition set_mixed_mode_info (mmi : MixedModeInfo) (s : InterDexState)
  : InterDexState :=
  mk_state (det s) (outdex s) (m_secondary_dexes s) (m_coldstart_dexes s)
    (m_extended_set_dexes s) (m_scroll_dexes s) (m_num_mixed_mode_dexes s)
    (m_cold_start_set_dex_count s) (scroll_set_dex_count s)
    (cls_skipped_in_primary s) (cls_skipped_in_secondary s)
    mmi (mixed_mode_txt s).

(** The dex counters bumped by [flush_out_secondary]. *)
Definition count_secondary_dex (dconfig : DexConfig) (s : InterDexState)
  : InterDexState :=
  mk_state (det s) (outdex s) (S (m_secondary_dexes s))
    (if is_coldstart dconfig then S (m_coldstart_dexes s) else m_coldstart_dexes s)
    (if is_extended_set dconfig then S (m_extended_set_dexes s)
     else m_extended_set_dexes s)
    (if has_scroll_cls dconfig then S (m_scroll_dexes s) else m_scroll_dexes s)
    (m_num_mixed_mode_dexes s)
    (m_cold_start_set_dex_count s) (scroll_set_dex_count s)
    (cls_skipped_in_primary s) (cls_skipped_in_secondary s)
    (m_mixed_mode_info s) (mixed_mode_txt s).

(** [m_num_mixed_mode_dexes++] and the line appended to [mixed_mode.txt]. *)
Definition record_mixed_mode_dex (canaryname : string) (s : InterDexState)
  : InterDexState :=
  mk_state (det s) (outdex s) (m_secondary_dexes s) (m_coldstart_dexes s)
    (m_extended_set_dexes s) (m_scroll_dexes s) (S (m_num_mixed_mode_dexes s))
    (m_cold_start_set_dex_count s) (scroll_set_dex_count s)
    (cls_skipped_in_primary s) (cls_skipped_in_secondary s)
    (m_mixed_mode_info s)
    (mixed_mode_txt s ++ canaryname ++ String (ascii_of_nat 10) "")%string.

Definition set_cold_start_set_dex_count (n : nat) (s : InterDexState)
  : InterDexState :=
  mk_state (det s) (outdex s) (m_secondary_dexes s) (m_coldstart_dexes s)
    (m_extended_set_dexes s) (m_scroll_dexes s) (m_num_mixed_mode_dexes s)
    n (scroll_set_dex_count s)
    (cls_skipped_in_primary s) (cls_skipped_in_secondary s)
    (m_mixed_mode_info s) (mixed_mode_txt s).

Definition set_scroll_set_dex_count (z : Z) (s : InterDexState) : InterDexState :=
  mk_state (det s) (outdex s) (m_secondary_dexes s) (m_coldstart_dexes s)
    (m_extended_set_dexes s) (m_scroll_dexes s) (m_num_mixed_mode_dexes s)
    (m_cold_start_set_dex_count s) z
    (cls_skipped_in_primary s) (cls_skipped_in_secondary s)
    (m_mixed_mode_info s) (mixed_mode_txt s).

Definition skip_in_primary (s : InterDexState) : InterDexState :=
  mk_state (det s) (outdex s) (m_secondary_dexes s) (m_coldstart_dexes s)
    (m_extended_set_dexes s) (m_scroll_dexes s) (m_num_mixed_mode_dexes s)
    (m_cold_start_set_dex_count s) (scroll_set_dex_count s)
    (S (cls_skipped_in_primary s)) (cls_skipped_in_secondary s)
    (m_mixed_mode_info s) (mixed_mode_txt s).

Definition skip_in_secondary (s : InterDexState) : InterDexState :=
  mk_state (det s) (outdex s) (m_secondary_dexes s) (m_coldstart_dexes s)
    (m_extended_set_dexes s) (m_scroll_dexes s) (m_num_mixed_mode_dexes s)
    (m_cold_start_set_dex_count s) (scroll_set_dex_count s)
    (cls_skipped_in_primary s) (S (cls_skipped_in_secondary s))
    (m_mixed_mode_info s) (mixed_mode_txt s).

(** ** State and abort monad

    [always_assert_log(false, ...)] ends the process; [Fatal] keeps the
    diagnostic and the state reached when the assertion failed. *)
Inductive outcome (A : Type) :=
| Ok (a : A) (s : InterDexState)
| Fatal (msg : string) (s : InterDexState).
Arguments Ok {A} a s.
Arguments Fatal {A} msg s.

Definition M (A : Type) : Type := InterDexState -> outcome A.

#[global] Instance M_ret : MRet M := fun A a s => Ok a s.
#[global] Instance M_bind : MBind M := fun A B f m s =>
  match m s with
  | Ok a s' => f a s'
  | Fatal msg s' => Fatal msg s'
  end.

Definition get_state : M InterDexState := fun s => Ok s s.
Definition modify_state (f : InterDexState -> InterDexState) : M unit :=
  fun s => Ok tt (f s).
Definition always_assert_log (cond : bool) (msg : string) : M unit :=
  fun s => if cond then Ok tt s else Fatal msg s.

(** [for (x : l) body]. *)
Fixpoint for_each {A} (l : list A) (body : A -> M unit) : M unit :=
  match l with
  | [] => mret tt
  | x :: rest => body x ;; for_each rest body
  end.

(** A loop that also updates locals of the enclosing function, carried as [acc]. *)
Fixpoint for_each_acc {A B} (l : list A) (acc : B) (body : B -> A -> M B) : M B :=
  match l with
  | [] => mret acc
  | x :: rest => acc' ← body acc x; for_each_acc rest acc' body
  end.

(** ** Bin flusher *)

Definition is_mixed_mode_dex (dconfig : DexConfig) (s : InterDexState) : bool :=
  if Nat.eqb (m_coldstart_dexes s) 0 && is_coldstart dconfig &&
     has_status (m_mixed_mode_info s) FIRST_COLDSTART_DEX then true
  else if Nat.eqb (m_extended_set_dexes s) 0 && is_extended_set dconfig &&
          has_status (m_mixed_mode_info s) FIRST_EXTENDED_DEX then true
  else if Nat.eqb (m_scroll_dexes s) 0 && has_scroll_cls dconfig &&
          has_status (m_mixed_mode_info s) SCROLL_DEX then true
  else false.

(** The classes the plugins hand to [flush_out_dex], in plugin order; every
    plugin is shown the output so far and the pending list [det.outs]. *)
Definition plugin_additions (plugins : list InterDexPassPlugin)
  (outdex_so_far : list (list DexClass)) (pending : list DexClass)
  : list DexClass :=
  flat_map (fun plugin => plugin_additional_classes plugin outdex_so_far pending)
    plugins.

(** [flush_out_dex]: [dc] is the pending list followed by the plugins'
    classes, which also enter [det.emitted]; [check_refs_count] only traces. *)
Definition flush_out_dex (cfg : InterDexConfig) : M unit := fun s =>
  let d := det s in
  let add_classes := plugin_additions (m_plugins cfg) (outdex s) (outs d) in
  let dc := outs d ++ add_classes in
  let d' := mk_det (la_size d) (mrefs d) (frefs d) (outs d)
              (set_insert_all add_classes (emitted d)) (clookup d) in
  Ok tt (set_det (start_new_dex d') (set_outdex (outdex s ++ [dc]) s)).

(** [cc.set_access(ACC_PUBLIC | ACC_INTERFACE | ACC_ABSTRACT)],
    [cc.set_super(get_object_type())], [cc.create()]: a memberless interface. *)
Definition create_canary (canaryname : string) : DexClass :=
  mk_class canaryname (Some "Ljava/lang/Object;") true [] [] [] [] [] [] true.

Definition push_back_outs (clazz : DexClass) (s : InterDexState) : InterDexState :=
  let d := det s in
  set_det (mk_det (la_size d) (mrefs d) (frefs d) (outs d ++ [clazz])
             (emitted d) (clookup d)) s.

(** The class pushed as canary for dex number [dexnum]. *)
Definition find_canary (cfg : InterDexConfig) (d : dex_emit_tracker)
  (canaryname : string) : DexClass :=
  match clookup d !! canaryname with
  | None =>
      match type_class (type_registry cfg) canaryname with
      | None => create_canary canaryname
      | Some canary_cls => canary_cls
      end
  | Some clazz => clazz
  end.

Definition flush_out_secondary (cfg : InterDexConfig) (dconfig : DexConfig)
  (mixed_mode_dex : bool) : M unit :=
  s ← get_state;
  if bool_decide (outs (det s) = []) then mret tt
  else
    let mixed_mode_dex := mixed_mode_dex || is_mixed_mode_dex dconfig s in
    modify_state (count_secondary_dex dconfig);;
    (if m_emit_canaries cfg then
       let dexnum := length (outdex s) in
       always_assert_log (Z.of_nat dexnum <=? kMaxDexNum)
         "Bailing, Max dex number surpassed";;
       let canaryname := canary_name dexnum in
       modify_state (push_back_outs (find_canary cfg (det s) canaryname));;
       if mixed_mode_dex then
         s' ← get_state;
         always_assert_log (Nat.eqb (m_num_mixed_mode_dexes s') 0)
           "For now we only accept 1 mixed mode dex.";;
         modify_state (record_mixed_mode_dex canaryname)
       else mret tt
     else mret tt);;
    flush_out_dex cfg.

(** ** Admission *)

(** The condition under which [emit_class] starts a new dex. *)
Definition overflows (cfg : InterDexConfig) (d : dex_emit_tracker)
  (clazz : DexClass) : bool :=
  let laclazz := estimate_linear_alloc clazz in
  let refs := gather_refs (m_plugins cfg) clazz in
  let extra_mrefs := set_difference refs.1 (mrefs d) in
  let extra_frefs := set_difference refs.2 (frefs d) in
  (m_linear_alloc_limit cfg <? wrap32 (la_size d + laclazz)) ||
  (kMaxMethodRefs <=? Z.of_nat (size (mrefs d)) + Z.of_nat (size extra_mrefs)) ||
  (kMaxFieldRefs <=? Z.of_nat (size (frefs d)) + Z.of_nat (size extra_frefs)).

(** The five updates that close [emit_class]. *)
Definition add_to_bin (clazz : DexClass) (plugins : list InterDexPassPlugin)
  (d : dex_emit_tracker) : dex_emit_tracker :=
  let refs := gather_refs plugins clazz in
  mk_det (wrap32 (la_size d + estimate_linear_alloc clazz))
    (mrefs d ∪ refs.1) (frefs d ∪ refs.2)
    (outs d ++ [clazz]) (set_insert clazz (emitted d)) (clookup d).

(** [emit_class], the overload with six parameters. Where the source
    leaves [check_if_skip] out, the calls below pass [true], the default that
    InterDex.h declares (modelled from the spec: "emit_class(C, binconfig,
    primary=false, skip_check=true)"). *)
Definition emit_class (cfg : InterDexConfig) (clazz : DexClass)
  (dconfig : DexConfig) (is_primary check_if_skip : bool) : M unit :=
  s ← get_state;
  if bool_decide (clazz ∈ emitted (det s)) || is_canary clazz then mret tt
  else if check_if_skip && should_skip_class (m_plugins cfg) clazz then mret tt
  else if negb is_primary && check_if_skip &&
          is_mixed_mode_class (m_mixed_mode_info s) clazz then mret tt
  else
    (if overflows cfg (det s) clazz then
       always_assert_log (negb is_primary)
         "would have to do an early flush on the primary dex";;
       flush_out_secondary cfg dconfig false
     else mret tt);;
    modify_state (fun s' => set_det (add_to_bin clazz (m_plugins cfg) (det s')) s').

(** ** Mixed-mode emission *)

Definition emit_mixed_mode_classes (cfg : InterDexConfig)
  (interdexorder : list string) (can_touch_interdex_order : bool) : M unit :=
  for_each interdexorder (fun elem =>
    s ← get_state;
    match clookup (det s) !! elem with
    | None => mret tt
    | Some clazz =>
        if is_mixed_mode_class (m_mixed_mode_info s) clazz then
          (if can_touch_interdex_order
           then emit_class cfg clazz s_empty_config false false
           else mret tt);;
          modify_state (fun s' =>
            set_mixed_mode_info
              (remove_mixed_mode_class (m_mixed_mode_info s') clazz) s')
        else mret tt
    end);;
  s ← get_state;
  for_each (mixed_mode_classes (m_mixed_mode_info s)) (fun clazz =>
    s' ← get_state;
    if bool_decide (is_Some (clookup (det s') !! cls_name clazz))
    then emit_class cfg clazz s_empty_config false false
    else mret tt);;
  s ← get_state;
  (if bool_decide (outs (det s) = []) then mret tt
   else flush_out_secondary cfg s_empty_config true);;
  modify_state (fun s' =>
    set_mixed_mode_info (remove_all_mixed_mode_classes (m_mixed_mode_info s')) s').

(** ** Cold-start liveness pruner *)

(** The class an instruction refers to: [called_cls], [None] for nullptr. *)
Definition insn_called_cls (registry : list DexClass) (inst : IRInstruction)
  : option DexClass :=
  match inst with
  | insn_method m => type_class registry (mref_class m)
  | insn_field f => type_class registry (fref_class f)
  | insn_type t => type_class registry t
  | insn_other => None
  end.

(** Filter and walker of the [walk::code] call, for one method. *)
Definition scan_method (registry : list DexClass)
  (coldstart_classes cold_cold_references : listset DexClass) (meth : DexMethod)
  : listset DexClass :=
  match meth_code meth, type_class registry (meth_class meth) with
  | Some code, Some base_cls =>
      if bool_decide (base_cls ∈ coldstart_classes) then
        foldl (fun refs inst =>
                 match insn_called_cls registry inst with
                 | Some called_cls =>
                     if bool_decide (base_cls ≠ called_cls) &&
                        bool_decide (called_cls ∈ coldstart_classes)
                     then set_insert called_cls refs else refs
                 | None => refs
                 end) cold_cold_references code
      else cold_cold_references
  | _, _ => cold_cold_references
  end.

(** Modelled from the spec: [walk::code] of Walkers.h, which is not among
    the sources: "for each method M in scope ...: for each instruction I in
    M", the methods of a class being its direct then its virtual ones. *)
Definition walk_code (registry : list DexClass)
  (coldstart_classes : listset DexClass) (input_scope : list DexClass)
  (cold_cold_references : listset DexClass) : listset DexClass :=
  foldl (fun refs cls =>
           foldl (scan_method registry coldstart_classes) refs
             (cls_dmethods cls ++ cls_vmethods cls))
    cold_cold_references input_scope.

(** Classes that native code may call stay referenced. *)
Definition keep_unrenamable (scope : list DexClass)
  (cold_cold_references : listset DexClass) : listset DexClass :=
  foldl (fun refs cls => if negb (cls_can_rename cls) then set_insert cls refs else refs)
    cold_cold_references scope.

(** The loop over [input_scope] that adds the types gathered from the
    classes found in the reference set at the moment they are visited. *)
Definition add_gathered_types (registry : list DexClass)
  (input_scope : list DexClass) (cold_cold_references : listset DexClass)
  : listset DexClass :=
  foldl (fun refs cls =>
           if bool_decide (cls ∈ refs) then
             foldl (fun refs type =>
                      match type_class registry type with
                      | Some ref_cls => set_insert ref_cls refs
                      | None => refs
                      end) refs (cls_gather_types cls)
           else refs)
    cold_cold_references input_scope.

Definition cold_references (registry : list DexClass) (scope : list DexClass)
  (coldstart_classes : listset DexClass) (input_scope : list DexClass)
  : listset DexClass :=
  add_gathered_types registry input_scope
    (keep_unrenamable scope (walk_code registry coldstart_classes input_scope ∅)).

(** The locals a pass of the [while] loop leaves behind. *)
Record prune_locals := mk_prune {
  new_no_ref : Z;
  unreferenced_classes : listset DexClass;
  output_scope : list DexClass
}.

(** The loop over [coldstart_classes], in the order the set yields them. *)
Definition split_coldstart (traversal : list DexClass)
  (cold_cold_references : listset DexClass) (unreferenced : listset DexClass)
  : prune_locals :=
  foldl (fun loc cls =>
           if cls_can_rename cls && bool_decide (cls ∉ cold_cold_references)
           then mk_prune (new_no_ref loc + 1)
                  (set_insert cls (unreferenced_classes loc)) (output_scope loc)
           else mk_prune (new_no_ref loc) (unreferenced_classes loc)
                  (output_scope loc ++ [cls]))
    (mk_prune 0 unreferenced []) traversal.

(** One pass of the body of [while (old_no_ref != new_no_ref)]. *)
Definition prune_pass (cfg : InterDexConfig) (scope : list DexClass)
  (coldstart_classes : listset DexClass) (input_scope : list DexClass)
  (unreferenced : listset DexClass) : prune_locals :=
  split_coldstart (set_order cfg coldstart_classes)
    (cold_references (type_registry cfg) scope coldstart_classes input_scope)
    unreferenced.

(** The [while] loop; [None] when [fuel] passes do not reach its exit. *)
Fixpoint prune_loop (fuel : nat) (cfg : InterDexConfig) (scope : list DexClass)
  (coldstart_classes : listset DexClass) (old_no_ref : Z) (loc : prune_locals)
  : option (listset DexClass) :=
  if bool_decide (old_no_ref ≠ new_no_ref loc) then
    match fuel with
    | O => None
    | S fuel' =>
        prune_loop fuel' cfg scope coldstart_classes (new_no_ref loc)
          (prune_pass cfg scope coldstart_classes (output_scope loc)
             (unreferenced_classes loc))
    end
  else Some (unreferenced_classes loc).

Definition collect_coldstart (clookup_ : gmap string DexClass)
  (interdexorder : list string) : listset DexClass :=
  foldl (fun acc class_string =>
           match clookup_ !! class_string with
           | Some cls => set_insert cls acc
           | None => acc
           end) ∅ interdexorder.

Definition find_unrefenced_coldstart_classes (fuel : nat) (cfg : InterDexConfig)
  (scope : list DexClass) (d : dex_emit_tracker) (interdexorder : list string)
  (static_prune_classes : bool) : option (listset DexClass) :=
  if negb static_prune_classes then Some ∅
  else
    prune_loop fuel cfg scope (collect_coldstart (clookup d) interdexorder)
      (-1) (mk_prune 0 ∅ scope).

(** ** Packer driver *)

(** [std::find(begin, end, x)] as a position; [length l] stands for [end]. *)
Fixpoint find_it (x : string) (l : list string) : nat :=
  match l with
  | [] => O
  | y :: rest => if String.eqb y x then O else S (find_it x rest)
  end.

(** [entry.find(pattern) != std::string::npos]. *)
Definition contains (pattern entry : string) : bool :=
  match index 0 pattern entry with Some _ => true | None => false end.

Definition build_clookup (dexen : list (list DexClass)) : gmap string DexClass :=
  foldl (fun m dex => foldl (fun m clazz => <[cls_name clazz := clazz]> m) m dex)
    ∅ dexen.

(** Modelled from the spec: [build_class_scope] of DexUtil.h, not among the
    sources: "scope = flattened class universe". *)
Definition build_class_scope (dexen : list (list DexClass)) : list DexClass :=
  concat dexen.

(** [m_dexen[0]]; a run is given at least the primary dex. *)
Definition primary_dex_of (cfg : InterDexConfig) : list DexClass :=
  hd [] (m_dexen cfg).

Definition insert_emitted (classes : list DexClass) (d : dex_emit_tracker)
  : dex_emit_tracker :=
  mk_det (la_size d) (mrefs d) (frefs d) (outs d)
    (set_insert_all classes (emitted d)) (clookup d).

(** The block guarded by [!m_normal_primary_dex]; [primary_det] is the
    tracker handed to the helpers while it runs, the main tracker [d] is
    put back at its end with the primary classes recorded as emitted. *)
Definition emit_primary_dex (cfg : InterDexConfig) (interdexorder : list string)
  (unreferenced : listset DexClass) (d : dex_emit_tracker) : M unit :=
  let primary_dex := primary_dex_of cfg in
  let primary_det :=
    mk_det 0 ∅ ∅ [] ∅
      (foldl (fun m clazz => <[cls_name clazz := clazz]> m) ∅ primary_dex) in
  modify_state (set_det primary_det);;
  for_each interdexorder (fun entry =>
    s ← get_state;
    match clookup (det s) !! entry with
    | None => mret tt
    | Some clazz =>
        if bool_decide (clazz ∈ unreferenced) then modify_state skip_in_primary
        else emit_class cfg clazz s_empty_config true true
    end);;
  for_each primary_dex (fun clazz =>
    emit_class cfg clazz s_empty_config true true);;
  flush_out_dex cfg;;
  modify_state (set_det (insert_emitted primary_dex d)).

(** The rewrite of [interdexorder] when the primary dex is a normal dex. *)
Definition respect_primary_dex (interdexorder : list string)
  (primary_dex : list DexClass) : list string :=
  let first_end_marker_it := find_it "LDexEndMarker0;" interdexorder in
  let not_already_included :=
    foldl (fun acc pclass =>
             let pclass_it := find_it (cls_name pclass) interdexorder in
             if Nat.eqb pclass_it (length interdexorder) ||
                (first_end_marker_it <? pclass_it)%nat
             then acc ++ [cls_name pclass] else acc)
      [] primary_dex in
  not_already_included ++ interdexorder.

(** Locals of [run] that the priority walk updates. *)
Record walk_locals := mk_walk {
  dconfig_ : DexConfig;
  previous_dex : nat;
  end_markers_present : bool
}.

Definition can_touch_interdex_order_of (mmi : MixedModeInfo) : bool :=
  can_touch_coldstart_set mmi || can_touch_coldstart_extended_set mmi.

(** The body of the loop over [interdexorder], at position [it_interdex]. *)
Definition walk_entry (cfg : InterDexConfig) (interdexorder : list string)
  (unreferenced : listset DexClass) (loc : walk_locals)
  (position : nat * string) : M walk_locals :=
  let it_interdex := position.1 in
  let entry := position.2 in
  let last_end_marker_it := find_it "LDexEndMarker1;" interdexorder in
  let scroll_list_start_it := find_it "LScrollListStart;" interdexorder in
  let scroll_list_end_it := find_it "LScrollListEnd;" interdexorder in
  s ← get_state;
  match clookup (det s) !! entry with
  | None =>
      loc' ← (if contains "DexEndMarker" entry then
                flush_out_secondary cfg (dconfig_ loc) false;;
                modify_state (fun s' =>
                  set_cold_start_set_dex_count (length (outdex s')) s');;
                s' ← get_state;
                (if Nat.eqb last_end_marker_it it_interdex &&
                    has_predefined_classes (m_mixed_mode_info s')
                 then emit_mixed_mode_classes cfg interdexorder
                        (can_touch_interdex_order_of (m_mixed_mode_info s'))
                 else mret tt);;
                mret (mk_walk (dconfig_ loc) (previous_dex loc) true)
              else mret loc);
      (if m_emit_scroll_set_marker cfg && Nat.eqb it_interdex scroll_list_end_it
       then
         flush_out_secondary cfg (dconfig_ loc') false;;
         modify_state (fun s' =>
           set_scroll_set_dex_count
             (wrap64 (Z.of_nat (length (outdex s')) -
                      Z.of_nat (m_secondary_dexes s'))) s')
       else mret tt);;
      mret loc'
  | Some clazz =>
      (if negb (can_touch_coldstart_set (m_mixed_mode_info s)) &&
          is_mixed_mode_class (m_mixed_mode_info s) clazz
       then
         if (it_interdex <? last_end_marker_it)%nat then
           modify_state (fun s' =>
             set_mixed_mode_info
               (remove_mixed_mode_class (m_mixed_mode_info s') clazz) s')
         else
           always_assert_log
             (can_touch_coldstart_extended_set (m_mixed_mode_info s))
             "We shouldn't get here since we cleared it up when emitting the mixed mode dex!"
       else mret tt);;
      if bool_decide (clazz ∈ unreferenced) then
        modify_state skip_in_secondary;; mret loc
      else
        s' ← get_state;
        let loc1 :=
          if bool_decide (previous_dex loc ≠ m_secondary_dexes s')
          then mk_walk s_empty_config (m_secondary_dexes s') (end_markers_present loc)
          else loc in
        let dconfig :=
          mk_dconfig
            (it_interdex <=? last_end_marker_it)%nat
            (is_extended_set (dconfig_ loc1) ||
             (last_end_marker_it <? it_interdex)%nat)
            (has_scroll_cls (dconfig_ loc1) ||
             ((scroll_list_start_it <? it_interdex)%nat &&
              (it_interdex <? scroll_list_end_it)%nat)) in
        emit_class cfg clazz dconfig false true;;
        mret (mk_walk dconfig (previous_dex loc1) (end_markers_present loc1))
  end.

(** The entries of a list with their positions. *)
Definition positions (l : list string) : list (nat * string) :=
  imap (fun i entry => (i, entry)) l.

(** The priority list the walk uses. *)
Definition walk_order (cfg : InterDexConfig) : list string :=
  let interdexorder := coldstart_class_names cfg in
  if m_normal_primary_dex cfg && negb (Nat.eqb (length interdexorder) 0)
  then respect_primary_dex interdexorder (primary_dex_of cfg)
  else interdexorder.

(** [run] up to the priority walk: indexing and the primary dex. *)
Definition run_prologue (cfg : InterDexConfig) (unreferenced : listset DexClass)
  : M unit :=
  let d := mk_det 0 ∅ ∅ [] ∅ (build_clookup (m_dexen cfg)) in
  modify_state (fun s => set_det d (set_outdex [] s));;
  if negb (m_normal_primary_dex cfg)
  then emit_primary_dex cfg (coldstart_class_names cfg) unreferenced d
  else mret tt.

Definition initial_walk_locals (interdexorder : list string) (s : InterDexState)
  : walk_locals :=
  mk_walk (mk_dconfig (negb (Nat.eqb (length interdexorder) 0)) false false)
    (m_secondary_dexes s) false.

(** The loop over [interdexorder], cut after its first [n] entries. *)
Definition priority_walk (cfg : InterDexConfig) (unreferenced : listset DexClass)
  (n : nat) : M walk_locals :=
  let interdexorder := walk_order cfg in
  s ← get_state;
  for_each_acc (take n (positions interdexorder))
    (initial_walk_locals interdexorder s)
    (walk_entry cfg interdexorder unreferenced).

(** [run] after the priority walk. *)
Definition run_epilogue (cfg : InterDexConfig) (unreferenced : listset DexClass)
  (loc : walk_locals) : M (list (list DexClass)) :=
  let interdexorder := walk_order cfg in
  let last_end_marker_it := find_it "LDexEndMarker1;" interdexorder in
  s ← get_state;
  (if has_predefined_classes (m_mixed_mode_info s) &&
      Nat.eqb last_end_marker_it (length interdexorder)
   then emit_mixed_mode_classes cfg interdexorder
          (can_touch_interdex_order_of (m_mixed_mode_info s))
   else mret tt);;
  for_each interdexorder (fun entry =>
    s' ← get_state;
    match clookup (det s') !! entry with
    | None => mret tt
    | Some clazz =>
        if bool_decide (clazz ∈ unreferenced)
        then emit_class cfg clazz s_empty_config false true
        else mret tt
    end);;
  (if negb (end_markers_present loc) then
     modify_state (fun s' =>
       set_scroll_set_dex_count 0
         (set_cold_start_set_dex_count (length (outdex s')) s'))
   else mret tt);;
  for_each (build_class_scope (m_dexen cfg)) (fun clazz =>
    emit_class cfg clazz s_empty_config false true);;
  for_each (m_plugins cfg) (fun plugin =>
    for_each (plugin_leftover_classes plugin) (fun add_class =>
      emit_class cfg add_class s_empty_config false false));;
  s' ← get_state;
  (if bool_decide (outs (det s') = []) then mret tt
   else flush_out_secondary cfg s_empty_config false);;
  s'' ← get_state;
  mret (outdex s'').

(** [InterDex::run] once the pruner has returned [unreferenced]. *)
Definition run_with (cfg : InterDexConfig) (unreferenced : listset DexClass)
  : M (list (list DexClass)) :=
  run_prologue cfg unreferenced;;
  loc ← priority_walk cfg unreferenced (length (walk_order cfg));
  run_epilogue cfg unreferenced loc.

(** [InterDex::run]; [None] when the pruner's loop is still running after
    [fuel] passes. *)
Definition run (fuel : nat) (cfg : InterDexConfig) (s : InterDexState)
  : option (outcome (list (list DexClass))) :=
  match
    find_unrefenced_coldstart_classes fuel cfg (build_class_scope (m_dexen cfg))
      (mk_det 0 ∅ ∅ [] ∅ (build_clookup (m_dexen cfg)))
      (coldstart_class_names cfg) (m_static_prune_classes cfg)
  with
  | Some unreferenced => Some (run_with cfg unreferenced s)
  | None => None
  end.

(** A freshly constructed pass object. *)
Definition fresh_state (mmi : MixedModeInfo) : InterDexState :=
  mk_state empty_tracker [] 0 0 0 0 0 0 1000 0 0 mmi "".

(** * Predicates and example inputs of the properties *)

(** ** Closed forms of the flusher and of the admission procedure *)

(** The state once the canary of the bin being sealed has been counted and
    appended to the pending list. *)
Definition seal_canary (cfg : InterDexConfig) (dconfig : DexConfig)
  (s : InterDexState) : InterDexState :=
  push_back_outs (find_canary cfg (det s) (canary_name (length (outdex s))))
    (count_secondary_dex dconfig s).

(** None of the three early returns of [emit_class] is taken. *)
Definition passes_guards (cfg : InterDexConfig) (clazz : DexClass)
  (is_primary check_if_skip : bool) (s : InterDexState) : bool :=
  negb (bool_decide (clazz ∈ emitted (det s)) || is_canary clazz) &&
  negb (check_if_skip && should_skip_class (m_plugins cfg) clazz) &&
  negb (negb is_primary && check_if_skip &&
        is_mixed_mode_class (m_mixed_mode_info s) clazz).

(** The state once [clazz] is accounted for in the current bin. *)
Definition admit_in (cfg : InterDexConfig) (clazz : DexClass) (s : InterDexState)
  : InterDexState :=
  set_det (add_to_bin clazz (m_plugins cfg) (det s)) s.

(** The admission predicate of the specification, section 4.1. *)
Definition spec_admits (cfg : InterDexConfig) (d : dex_emit_tracker)
  (C : DexClass) : Prop :=
  let refs := gather_refs (m_plugins cfg) C in
  la_size d + estimate_linear_alloc C <= m_linear_alloc_limit cfg /\
  Z.of_nat (size (mrefs d)) + Z.of_nat (size (refs.1 ∖ mrefs d)) < 65535 /\
  Z.of_nat (size (frefs d)) + Z.of_nat (size (refs.2 ∖ frefs d)) < 65535.

(** [emit_class] returns having appended [C] to the pending list of the bin
    that was current when it was called, no bin having been sealed. *)
Definition admitted_in_place (cfg : InterDexConfig) (C : DexClass)
  (dconfig : DexConfig) (is_primary check_if_skip : bool) (s : InterDexState)
  : Prop :=
  exists s', emit_class cfg C dconfig is_primary check_if_skip s = Ok tt s' /\
             outdex s' = outdex s /\
             outs (det s') = outs (det s) ++ [C].

(** ** The invariant of a run *)

(** An operation keeps the invariant [I] and moves the state along [R]
    whenever it returns. *)
Definition respects (I : InterDexState -> Prop)
  (R : InterDexState -> InterDexState -> Prop) {A} (m : M A) : Prop :=
  forall s a s', I s -> m s = Ok a s' -> I s' /\ R s s'.

(** Two states that differ in counters only. *)
Definition same_core (s s' : InterDexState) : Prop :=
  det s' = det s /\ outdex s' = outdex s /\
  m_mixed_mode_info s' = m_mixed_mode_info s.

(** The classes placed so far: sealed bins, then the pending list. *)
Definition flat (s : InterDexState) : list DexClass :=
  concat (outdex s) ++ outs (det s).

(** Input classes that are not canaries. *)
Definition counted (cfg : InterDexConfig) (c : DexClass) : bool :=
  bool_decide (c ∈ build_class_scope (m_dexen cfg)) && negb (is_canary c).

(** No plugin hands an input class to [flush_out_dex]. *)
Definition extras_outside (cfg : InterDexConfig) : Prop :=
  forall plugin sofar pending c,
    plugin ∈ m_plugins cfg ->
    c ∈ plugin_additional_classes plugin sofar pending ->
    c ∉ build_class_scope (m_dexen cfg).

(** A bin sealed by [flush_out_secondary] with canaries enabled. *)
Definition canary_shape (cfg : InterDexConfig) (sofar : list (list DexClass))
  (i : nat) (bin : list DexClass) : Prop :=
  exists pre cn,
    bin = pre ++ cn :: plugin_additions (m_plugins cfg) sofar (pre ++ [cn]) /\
    pre <> [] /\
    Forall (fun c => is_canary c = false) pre /\
    cls_name cn = canary_name i.

(** What holds of the state all along a run: [Adm] bounds the classes
    handed to [emit_class], bins from index [k0] on are sealed by
    [flush_out_secondary], [mixed0] holds the mixed-mode classes of the start
    of the run. *)
Record Inv (cfg : InterDexConfig) (Adm : DexClass -> Prop) (k0 : nat)
  (mixed0 : list DexClass) (s : InterDexState) : Prop := mk_inv {
  inv_pending : Forall (fun c => is_canary c = false /\ Adm c) (outs (det s));
  inv_clookup :
    forall n c, clookup (det s) !! n = Some c -> cls_name c = n /\ Adm c;
  inv_k0 : (k0 <= length (outdex s))%nat;
  inv_canary :
    m_emit_canaries cfg = true ->
    forall i bin, outdex s !! i = Some bin -> (k0 <= i)%nat ->
                  canary_shape cfg (take i (outdex s)) i bin;
  inv_mixed :
    forall c, c ∈ mixed_mode_classes (m_mixed_mode_info s) -> c ∈ mixed0;
  inv_placed :
    forall c, c ∈ emitted (det s) -> is_canary c = false ->
              should_skip_class (m_plugins cfg) c = false -> c ∈ flat s;
  inv_emitted :
    extras_outside cfg ->
    forall c, c ∈ flat s -> counted cfg c = true -> c ∈ emitted (det s);
  inv_nodup :
    extras_outside cfg -> NoDup (filter (fun c => counted cfg c = true) (flat s))
}.

(** How the state of a run evolves: what is placed stays where it is, the
    name index is fixed and the mixed-mode classes only get fewer. *)
Record Ext (s s' : InterDexState) : Prop := mk_ext {
  ext_flat : exists added, flat s' = flat s ++ added;
  ext_outdex : outdex s `prefix_of` outdex s';
  ext_emitted : forall c, c ∈ emitted (det s) -> c ∈ emitted (det s');
  ext_clookup : clookup (det s') = clookup (det s);
  ext_mixed :
    forall c, c ∈ mixed_mode_classes (m_mixed_mode_info s') ->
              c ∈ mixed_mode_classes (m_mixed_mode_info s)
}.

(** A class that may be handed to [emit_class]: an input class among them
    is not placed yet. *)
Definition fresh_for (cfg : InterDexConfig) (Adm : DexClass -> Prop)
  (s : InterDexState) (c : DexClass) : Prop :=
  Adm c /\ (extras_outside cfg -> counted cfg c = true -> c ∉ flat s).

(** The pending list as [flush_out_secondary] seals it, before the plugins
    add to it. *)
Definition sealed_pending (cfg : InterDexConfig) (s : InterDexState)
  : list DexClass :=
  if m_emit_canaries cfg
  then outs (det s) ++ [find_canary cfg (det s) (canary_name (length (outdex s)))]
  else outs (det s).

(** ** The stages of a run *)

(** The reasons for which [emit_class] leaves a class that was not emitted
    before out of the current bin. *)
Definition vetoed (cfg : InterDexConfig) (mixed0 : list DexClass)
  (is_primary check_if_skip : bool) (c : DexClass) : Prop :=
  is_canary c = true \/
  (check_if_skip = true /\ should_skip_class (m_plugins cfg) c = true) \/
  (is_primary = false /\ check_if_skip = true /\ c ∈ mixed0).

(** The tracker [run] starts the primary dex with, and the one it starts
    the secondary dexes with. *)
Definition primary_det_of (cfg : InterDexConfig) : dex_emit_tracker :=
  mk_det 0 ∅ ∅ [] ∅
    (foldl (fun m clazz => <[cls_name clazz := clazz]> m) ∅ (primary_dex_of cfg)).

Definition main_det_of (cfg : InterDexConfig) : dex_emit_tracker :=
  mk_det 0 ∅ ∅ [] ∅ (build_clookup (m_dexen cfg)).

(** The body of the first loop of [emit_primary_dex]. *)
Definition primary_body (cfg : InterDexConfig) (unreferenced : listset DexClass)
  (entry : string) : M unit :=
  s ← get_state;
  match clookup (det s) !! entry with
  | None => mret tt
  | Some clazz =>
      if bool_decide (clazz ∈ unreferenced) then modify_state skip_in_primary
      else emit_class cfg clazz s_empty_config true true
  end.

(** The state of a run after the indexing, the primary dex and the first
    [n] entries of the priority list. *)
Definition walk_state (cfg : InterDexConfig) (unreferenced : listset DexClass)
  (s : InterDexState) (n : nat) : outcome walk_locals :=
  (run_prologue cfg unreferenced ;; priority_walk cfg unreferenced n) s.

(** The index of the first bin sealed by [flush_out_secondary]. *)
Definition first_secondary (cfg : InterDexConfig) : nat :=
  if m_normal_primary_dex cfg then 0 else 1.

(** What [run] returns, when it returns. *)
Definition output_of (r : option (outcome (list (list DexClass))))
  : option (list (list DexClass)) :=
  match r with
  | Some (Ok out _) => Some out
  | _ => None
  end.

(** ** Example inputs *)

Definition plain_class (n : string) : DexClass :=
  mk_class n (Some "Ljava/lang/Object;") false [] [] [] [] [] [] true.

Definition no_mixed_mode : MixedModeInfo := mk_mixed [] [] false false.

(** A set hands out its elements most recently inserted first, or in the
    opposite order. *)
Definition newest_first (X : listset DexClass) : list DexClass := elements X.

Definition oldest_first (X : listset DexClass) : list DexClass := reverse (elements X).

(** A method of class [own] whose code names the types [targets]. *)
Definition method_naming (own : string) (targets : list string) : DexMethod :=
  mk_method own true (Some (map insn_type targets)).

(** Six cold-start classes: [L3;] has code naming [L4;] and [L5;], [L5;]
    code naming [L2;]; the types gathered from [L1;] are [L0;] and [L3;],
    from [L2;] it is [L1;], from [L4;] they are [L1;] and [L2;], from [L5;]
    it is [L1;]; only [L4;] cannot be renamed. *)
Definition cy0 : DexClass := mk_class "L0;" None false [] [] [] [] [] [] true.

Definition cy1 : DexClass := mk_class "L1;" None false [] [] [] [] [] ["L0;"; "L3;"] true.

Definition cy2 : DexClass := mk_class "L2;" None false [] [] [] [] [] ["L1;"] true.

Definition cy3 : DexClass :=
  mk_class "L3;" None false [method_naming "L3;" ["L4;"; "L5;"]] [] [] [] [] [] true.

Definition cy4 : DexClass := mk_class "L4;" None false [] [] [] [] [] ["L1;"; "L2;"] false.

Definition cy5 : DexClass :=
  mk_class "L5;" None false [method_naming "L5;" ["L2;"]] [] [] [] [] ["L1;"] true.

Definition cycle_scope : list DexClass := [cy0; cy1; cy2; cy3; cy4; cy5].

Definition cycle_order : list string := ["L4;"; "L3;"; "L1;"; "L5;"; "L0;"; "L2;"].

Definition cycle_cfg : InterDexConfig :=
  mk_config [cycle_scope] [] 100000 true true false false cycle_order
    cycle_scope newest_first.

Definition cycle_coldstart : listset DexClass :=
  collect_coldstart (build_clookup [cycle_scope]) cycle_order.

(** The locals after the second and after the third pass of the loop. *)
Definition cycle_even : prune_locals :=
  mk_prune 1 (Listset [cy5; cy3; cy0]) [cy2; cy0; cy1; cy3; cy4].

Definition cycle_odd : prune_locals :=
  mk_prune 2 (Listset [cy5; cy3; cy0]) [cy2; cy5; cy1; cy4].

Definition ex_A : DexClass := plain_class "LA;".

Definition ex_B : DexClass := plain_class "LB;".

(** The final state of a run that returns. *)
Definition final_state_of (r : option (outcome (list (list DexClass))))
  : InterDexState :=
  match r with
  | Some (Ok _ sf) => sf
  | _ => fresh_state no_mixed_mode
  end.

(** One dex, no canaries, a linear-alloc limit of 1000 or of 10. *)
Definition roomy_cfg : InterDexConfig :=
  mk_config [[ex_A; ex_B]] [] 1000 false true false false [] [ex_A; ex_B] newest_first.

Definition tight_cfg : InterDexConfig :=
  mk_config [[ex_A; ex_B]] [] 10 false true false false [] [ex_A; ex_B] newest_first.

(** A tracker that holds [ex_A]. *)
Definition seen_state : InterDexState :=
  set_det (mk_det 48 ∅ ∅ [ex_A] (Listset [ex_A]) ∅) (fresh_state no_mixed_mode).

(** A primary dex kept apart, a secondary dex, canaries, and a priority
    list that names the secondary class first. *)
Definition two_dex_cfg : InterDexConfig :=
  mk_config [[ex_A]; [ex_B]] [] 1000 false false false true
    ["LB;"; "LDexEndMarker0;"; "LA;"] [ex_A; ex_B] newest_first.

Definition two_dex_out : list (list DexClass) :=
  [[ex_A]; [ex_B; create_canary "Lsecondary/dex01/Canary;"]].

Definition two_dex_final : InterDexState :=
  Eval vm_compute in final_state_of (run 0 two_dex_cfg (fresh_state no_mixed_mode)).

(** A plugin that vetoes [ex_B] and does nothing else. *)
Definition veto_B : InterDexPassPlugin :=
  mk_plugin (fun _ refs => refs) (fun c => String.eqb (cls_name c) "LB;")
    (fun _ _ => []) [].

Definition veto_cfg : InterDexConfig :=
  mk_config [[ex_A; ex_B]] [veto_B] 1000 false true false false [] [ex_A; ex_B]
    newest_first.

(** An input class that carries a canary descriptor. *)
Definition ex_K : DexClass := plain_class "Lsecondary/dex07/Canary;".

Definition stray_canary_cfg : InterDexConfig :=
  mk_config [[ex_A; ex_K]] [] 1000 false true false false [] [ex_A; ex_K]
    newest_first.

(** An input class named like the end marker of the cold-start set and
    listed in the priority list, so that the marker resolves to a class and
    the mixed-mode bin is never emitted; [ex_A] is the mixed-mode class. *)
Definition ex_E : DexClass := plain_class "LDexEndMarker1;".

Definition marker_class_cfg : InterDexConfig :=
  mk_config [[ex_E]; [ex_A]] [] 1000 false false false false ["LDexEndMarker1;"]
    [ex_E; ex_A] newest_first.

Definition mixed_A : MixedModeInfo := mk_mixed [ex_A] [] false false.

(** A class with one direct method, two virtual methods and one instance
    field, whose name ends in [ViewGroup;]. *)
Definition ex_view_group : DexClass :=
  mk_class "Lcom/app/FancyViewGroup;" (Some "Landroid/view/ViewGroup;") false
    [mk_method "Lcom/app/FancyViewGroup;" false None]
    [mk_method "Lcom/app/FancyViewGroup;" false None;
     mk_method "Lcom/app/FancyViewGroup;" false None]
    [mk_fref "Lcom/app/FancyViewGroup;" "x:I"] [] [] [] true.

(** An empty primary dex kept apart from the secondary dex. *)
Definition empty_primary_cfg : InterDexConfig :=
  mk_config [[]; [ex_A]] [] 1000 false false false false [] [ex_A] newest_first.

Definition empty_primary_final : InterDexState :=
  Eval vm_compute in
    final_state_of (run 0 empty_primary_cfg (fresh_state no_mixed_mode)).

(** Four cold-start classes: [LN;] cannot be renamed and gathers the type
    [LY;], [LY;] gathers [LW;], the code of [LV;] names [LW;]. *)
Definition dn : DexClass := mk_class "LN;" None false [] [] [] [] [] ["LY;"] false.

Definition dy : DexClass := mk_class "LY;" None false [] [] [] [] [] ["LW;"] true.

Definition dw : DexClass := mk_class "LW;" None false [] [] [] [] [] [] true.

Definition dv : DexClass :=
  mk_class "LV;" None false [method_naming "LV;" ["LW;"]] [] [] [] [] [] true.

Definition order_cfg (traversal : listset DexClass -> list DexClass)
  : InterDexConfig :=
  mk_config [[dy; dn; dw; dv]] [] 100000 true true false false
    ["LW;"; "LN;"; "LY;"; "LV;"] [dy; dn; dw; dv] traversal.

(** ** Diagnostics of the packer *)

(** The refs [gather_methods] and [gather_fields] yield for the classes of a
    dex, as the sets [mrefs_set] and [frefs_set] of [check_refs_count]. *)
Definition gathered_mrefs (dc : list DexClass) : gset DexMethodRef :=
  list_to_set (flat_map cls_gather_methods dc).

Definition gathered_frefs (dc : list DexClass) : gset DexFieldRef :=
  list_to_set (flat_map cls_gather_fields dc).

(** [check_refs_count]: the method refs and the field refs it warns about as
    missing from the predicted sets of the tracker. A set is looked into
    only when it is larger than the predicted one; the statistics traced at
    the end are left out. *)
Definition check_refs_count (d : dex_emit_tracker) (dc : list DexClass)
  : gset DexMethodRef * gset DexFieldRef :=
  let mrefs_set := gathered_mrefs dc in
  let frefs_set := gathered_frefs dc in
  (if (size (mrefs d) <? size mrefs_set)%nat
   then filter (fun mr => mr ∉ mrefs d) mrefs_set else ∅,
   if (size (frefs d) <? size frefs_set)%nat
   then filter (fun fr => fr ∉ frefs d) frefs_set else ∅).

(** The counters of the file scope that feed the final trace of [run]; they
    are of type [size_t]. *)
Record GlobalStats := mk_stats {
  global_dmeth_cnt : Z;
  global_smeth_cnt : Z;
  global_vmeth_cnt : Z;
  global_methref_cnt : Z;
  global_fieldref_cnt : Z;
  global_cls_cnt : Z
}.

Definition update_dex_stats (cls_cnt methrefs_cnt frefs_cnt : nat)
  (g : GlobalStats) : GlobalStats :=
  mk_stats (global_dmeth_cnt g) (global_smeth_cnt g) (global_vmeth_cnt g)
    (wrap64 (global_methref_cnt g + Z.of_nat methrefs_cnt))
    (wrap64 (global_fieldref_cnt g + Z.of_nat frefs_cnt))
    (wrap64 (global_cls_cnt g + Z.of_nat cls_cnt)).

(** [cnt_smeths], an [int] counted up over the direct methods; the count is
    the one of the source as long as it stays below 2^31. *)
Definition count_static (dmethods : list DexMethod) : Z :=
  foldl (fun cnt_smeths m => if meth_static m then cnt_smeths + 1 else cnt_smeths)
    0 dmethods.

Definition update_class_stats (clazz : DexClass) (g : GlobalStats) : GlobalStats :=
  mk_stats
    (wrap64 (global_dmeth_cnt g + Z.of_nat (length (cls_dmethods clazz))))
    (wrap64 (global_smeth_cnt g + count_static (cls_dmethods clazz)))
    (wrap64 (global_vmeth_cnt g + Z.of_nat (length (cls_vmethods clazz))))
    (global_methref_cnt g) (global_fieldref_cnt g) (global_cls_cnt g).

(** The test under which [respect_primary_dex] puts a class of the primary
    dex at the head of the list. *)
Definition not_already_included_p (interdexorder : list string) (pclass : DexClass)
  : bool :=
  Nat.eqb (find_it (cls_name pclass) interdexorder) (length interdexorder) ||
  (find_it "LDexEndMarker0;" interdexorder
   <? find_it (cls_name pclass) interdexorder)%nat.

(** ** Tallies of a run *)

(** The refs gathered for the classes of a list, plugins included, and the
    sum of their linear-alloc estimates. *)
Definition bin_mrefs (cfg : InterDexConfig) (l : list DexClass) : gset DexMethodRef :=
  ⋃ ((fun c => (gather_refs (m_plugins cfg) c).1) <$> l).

Definition bin_frefs (cfg : InterDexConfig) (l : list DexClass) : gset DexFieldRef :=
  ⋃ ((fun c => (gather_refs (m_plugins cfg) c).2) <$> l).

Definition la_sum (l : list DexClass) : Z :=
  foldr (fun c acc => estimate_linear_alloc c + acc) 0 l.

(** The classes of a list fit one dex: their estimates, summed up as an
    [unsigned], do not exceed the linear-alloc limit, and they need fewer
    than 65535 method refs and fewer than 65535 field refs. *)
Definition within_caps (cfg : InterDexConfig) (l : list DexClass) : Prop :=
  wrap32 (la_sum l) <= m_linear_alloc_limit cfg /\
  Z.of_nat (size (bin_mrefs cfg l)) < kMaxMethodRefs /\
  Z.of_nat (size (bin_frefs cfg l)) < kMaxFieldRefs.

(** A bin as [flush_out_secondary] seals it: the classes [emit_class]
    admitted, at least one and more than one only if they fit one dex, the
    canary if canaries are emitted, and what the plugins add. *)
Definition sealed_within_caps (cfg : InterDexConfig) (sofar : list (list DexClass))
  (bin : list DexClass) : Prop :=
  exists pre cans,
    bin = pre ++ cans ++ plugin_additions (m_plugins cfg) sofar (pre ++ cans) /\
    pre <> [] /\
    (if m_emit_canaries cfg then exists cn, cans = [cn] else cans = []) /\
    (length pre = 1%nat \/ within_caps cfg pre).

(** [mixed_mode.txt] and the counter of mixed-mode dexes are as at the start
    of the run, or one dex was recorded, with the canary name of a bin of
    the output. *)
Definition mixed_tally (cfg : InterDexConfig) (k0 mix0 : nat) (txt0 : string)
  (s : InterDexState) : Prop :=
  (m_num_mixed_mode_dexes s = mix0 /\ mixed_mode_txt s = txt0) \/
  (m_emit_canaries cfg = true /\ mix0 = 0%nat /\
   m_num_mixed_mode_dexes s = 1%nat /\
   exists i, (k0 <= i < length (outdex s))%nat /\
             mixed_mode_txt s =
               (txt0 ++ canary_name i ++ String (ascii_of_nat 10) "")%string).

(** What holds of the tracker, of the bins from index [k0] on and of the
    counters all along the secondary part of a run that started with [sec0]
    secondary dexes, [mix0] mixed-mode dexes and [txt0] in mixed_mode.txt. *)
Record Tally (cfg : InterDexConfig) (k0 sec0 mix0 : nat) (txt0 : string)
  (s : InterDexState) : Prop := mk_tally {
  tally_mrefs : mrefs (det s) = bin_mrefs cfg (outs (det s));
  tally_frefs : frefs (det s) = bin_frefs cfg (outs (det s));
  tally_la : la_size (det s) = wrap32 (la_sum (outs (det s)));
  tally_pending :
    (length (outs (det s)) <= 1)%nat \/ within_caps cfg (outs (det s));
  tally_bins :
    forall i bin, outdex s !! i = Some bin -> (k0 <= i)%nat ->
                  sealed_within_caps cfg (take i (outdex s)) bin;
  tally_k0 : (k0 <= length (outdex s))%nat;
  tally_secondary :
    m_secondary_dexes s = (sec0 + (length (outdex s) - k0))%nat;
  tally_mixed : mixed_tally cfg k0 mix0 txt0 s
}.

(** Two states that agree on what [Tally] reads. *)
Definition same_tally (s s' : InterDexState) : Prop :=
  det s' = det s /\ outdex s' = outdex s /\
  m_secondary_dexes s' = m_secondary_dexes s /\
  m_num_mixed_mode_dexes s' = m_num_mixed_mode_dexes s /\
  mixed_mode_txt s' = mixed_mode_txt s.

(** What holds while the primary dex is built apart: the tracker accounts
    for the pending classes, which fit one dex, no bin is sealed and the
    counters are as at the start of the run. *)
Definition primary_tally (cfg : InterDexConfig) (sec0 mix0 : nat) (txt0 : string)
  (s : InterDexState) : Prop :=
  mrefs (det s) = bin_mrefs cfg (outs (det s)) /\
  frefs (det s) = bin_frefs cfg (outs (det s)) /\
  la_size (det s) = wrap32 (la_sum (outs (det s))) /\
  (outs (det s) = [] \/ within_caps cfg (outs (det s))) /\
  outdex s = [] /\
  m_secondary_dexes s = sec0 /\
  m_num_mixed_mode_dexes s = mix0 /\
  mixed_mode_txt s = txt0.

(** ** Further example inputs *)

(** A primary dex kept apart, a secondary dex, canaries, the end marker of
    the cold-start set as only entry of the priority list, and [ex_B] as the
    mixed-mode class. *)
Definition mixed_cfg : InterDexConfig :=
  mk_config [[ex_A]; [ex_B]] [] 1000 false false false true
    ["LDexEndMarker1;"] [ex_A; ex_B] newest_first.

Definition mixed_B : MixedModeInfo := mk_mixed [ex_B] [] false false.

Definition mixed_out : list (list DexClass) :=
  [[ex_A]; [ex_B; create_canary "Lsecondary/dex01/Canary;"]].

Definition mixed_final : InterDexState :=
  Eval vm_compute in final_state_of (run 0 mixed_cfg (fresh_state mixed_B)).

(** ** Further invariants of a run *)

(** The secondary part of a run leaves the classes of the primary dex
    alone: they are all in the emitted set, and none of them, canaries
    aside, is pending or in a bin after the first. *)
Definition apart (cfg : InterDexConfig) (s : InterDexState) : Prop :=
  (forall n c, clookup (det s) !! n = Some c -> cls_name c = n) /\
  (forall c, c ∈ primary_dex_of cfg -> c ∈ emitted (det s)) /\
  (forall c, c ∈ outs (det s) -> c ∈ primary_dex_of cfg -> is_canary c = true) /\
  (forall i bin c,
      outdex s !! i = Some bin -> (1 <= i)%nat -> c ∈ bin ->
      c ∈ primary_dex_of cfg -> is_canary c = true).

(** The plugins only add to the refs they are shown. *)
Definition plugins_extend (plugins : list InterDexPassPlugin) : Prop :=
  forall plugin cls refs,
    plugin ∈ plugins ->
    (forall mr, mr ∈ refs.1 -> mr ∈ (plugin_gather_mrefs plugin cls refs).1) /\
    (forall fr, fr ∈ refs.2 -> fr ∈ (plugin_gather_mrefs plugin cls refs).2).

(** A class the packer is given: an input class, a mixed-mode class or a
    leftover class of a plugin. *)
Definition given (cfg : InterDexConfig) (mixed0 : list DexClass) (c : DexClass)
  : Prop :=
  c ∈ build_class_scope (m_dexen cfg) \/ c ∈ mixed0 \/
  exists plugin, plugin ∈ m_plugins cfg /\ c ∈ plugin_leftover_classes plugin.

(** A class put into a bin at its flush: a canary or a class a plugin adds. *)
Definition added_at_flush (cfg : InterDexConfig) (c : DexClass) : Prop :=
  (exists i, cls_name c = canary_name i) \/
  exists plugin sofar pending,
    plugin ∈ m_plugins cfg /\ c ∈ plugin_additional_classes plugin sofar pending.

(** The name index holds input classes under their names, the mixed-mode
    classes are among those of the start of the run, and every class placed
    so far was given to the packer or added at a flush. *)
Definition sourced (cfg : InterDexConfig) (mixed0 : list DexClass)
  (s : InterDexState) : Prop :=
  (forall n c, clookup (det s) !! n = Some c ->
               cls_name c = n /\ c ∈ build_class_scope (m_dexen cfg)) /\
  (forall c, c ∈ mixed_mode_classes (m_mixed_mode_info s) -> c ∈ mixed0) /\
  (forall c, c ∈ flat s -> given cfg mixed0 c \/ added_at_flush cfg c).

(** ** Further example states *)

(** The state an operation ends in. *)
Definition outcome_state {A} (r : outcome A) : InterDexState :=
  match r with Ok _ s => s | Fatal _ s => s end.

(** [seen_state] once its pending list is sealed. *)
Definition flushed_state : InterDexState :=
  Eval vm_compute in
    outcome_state (flush_out_secondary roomy_cfg s_empty_config false seen_state).

(** A run about to emit [ex_A] as its mixed-mode class, and its state after
    [emit_mixed_mode_classes]. *)
Definition mixed_start : InterDexState :=
  set_det (main_det_of roomy_cfg) (fresh_state mixed_A).

Definition mixed_done : InterDexState :=
  Eval vm_compute in
    outcome_state (emit_mixed_mode_classes roomy_cfg [] true mixed_start).

(** A class that gathers one method ref, and a tracker that predicts it. *)
Definition ref_m : DexMethodRef := mk_mref "LR;" "run:()V".

Definition ex_R : DexClass :=
  mk_class "LR;" None false [] [] [] [ref_m] [] [] true.

Definition tracker_R : dex_emit_tracker :=
  mk_det 0 {[ ref_m ]} ∅ [ex_R] (Listset [ex_R]) ∅.

(** What the pruner reports for [order_cfg newest_first]. *)
Definition order_unref : listset DexClass :=
  Eval vm_compute in
    default ∅ (find_unrefenced_coldstart_classes 5 (order_cfg newest_first)
                 [dy; dn; dw; dv] (main_det_of (order_cfg newest_first))
                 ["LW;"; "LN;"; "LY;"; "LV;"] true).

(** The walk of [two_dex_cfg] after its first entry. *)
Definition two_dex_loc1 : walk_locals :=
  Eval vm_compute in
    match walk_state two_dex_cfg ∅ (fresh_state no_mixed_mode) 1 with
    | Ok loc _ => loc
    | Fatal _ _ => mk_walk s_empty_config 0 false
    end.

Definition two_dex_walk1 : InterDexState :=
  Eval vm_compute in
    outcome_state (walk_state two_dex_cfg ∅ (fresh_state no_mixed_mode) 1).

(** ** Aborts and deferred classes *)

(** An operation run from a state in [I] ends in [I], or aborts with a
    diagnostic in [P]. *)
Definition guarded (I : InterDexState -> Prop) (P : string -> Prop) {A} (m : M A)
  : Prop :=
  forall s, I s -> match m s with Ok _ s' => I s' | Fatal msg _ => P msg end.

(** The mixed-mode info keeps its capability flags, and names no class if it
    named none at the start of the run. *)
Definition mixed_flags (mmi0 : MixedModeInfo) (s : InterDexState) : Prop :=
  can_touch_coldstart_set (m_mixed_mode_info s) = can_touch_coldstart_set mmi0 /\
  can_touch_coldstart_extended_set (m_mixed_mode_info s)
    = can_touch_coldstart_extended_set mmi0 /\
  (mixed_mode_classes mmi0 = [] -> mixed_mode_classes (m_mixed_mode_info s) = []).

(** The four assertions of the packer, each with what it takes to reach it. *)
Definition abort_site (cfg : InterDexConfig) (mmi0 : MixedModeInfo) (msg : string)
  : Prop :=
  (msg = "would have to do an early flush on the primary dex" /\
   m_normal_primary_dex cfg = false) \/
  (msg = "Bailing, Max dex number surpassed" /\ m_emit_canaries cfg = true) \/
  (msg = "For now we only accept 1 mixed mode dex." /\ m_emit_canaries cfg = true) \/
  (msg = "We shouldn't get here since we cleared it up when emitting the mixed mode dex!" /\
   mixed_mode_classes mmi0 <> [] /\
   can_touch_coldstart_set mmi0 = false /\
   can_touch_coldstart_extended_set mmi0 = false).

(** The walk has placed no input class that the pruner found unreferenced,
    canaries aside; no class is a mixed-mode class. *)
Definition skips (cfg : InterDexConfig) (unreferenced : listset DexClass)
  (s : InterDexState) : Prop :=
  (forall n c, clookup (det s) !! n = Some c -> cls_name c = n) /\
  mixed_mode_classes (m_mixed_mode_info s) = [] /\
  (forall c, c ∈ flat s \/ c ∈ emitted (det s) ->
             c ∈ unreferenced -> c ∈ build_class_scope (m_dexen cfg) ->
             is_canary c = true).

(** The state in which [order_cfg newest_first] ends. *)
Definition order_final : InterDexState :=
  Eval vm_compute in
    outcome_state (run_with (order_cfg newest_first) order_unref
                     (fresh_state no_mixed_mode)).

(** ** The output vector, the classes left out and the order of the walk *)


Definition ex_C : DexClass := plain_class "LC;".

(** One dex of three classes, no two of which fit a dex of 60 bytes of
    linear alloc; a priority list that ends the cold-start set after [LA;];
    a mixed-mode info without classes, for which the first cold-start dex and
    the first dex of the extended set are mixed-mode dexes. *)
Definition two_mixed_cfg (canaries : bool) : InterDexConfig :=
  mk_config [[ex_A; ex_B; ex_C]] [] 60 false true false canaries
    ["LA;"; "LDexEndMarker1;"; "LB;"; "LC;"] [ex_A; ex_B; ex_C] newest_first.

Definition two_status : MixedModeInfo :=
  mk_mixed [] [FIRST_COLDSTART_DEX; FIRST_EXTENDED_DEX] false false.

(** The flags under which the walk hands [LC;] to [emit_class]. *)
Definition extended_dconfig : DexConfig := mk_dconfig false true false.

(** The run with canaries, when the walk reaches [LC;]: the cold-start dex
    is sealed and recorded as mixed-mode dex, [LB;] is pending. *)
Definition two_mixed_walk3 : InterDexState :=
  Eval vm_compute in
    outcome_state (walk_state (two_mixed_cfg true) ∅ (fresh_state two_status) 3).

(** No input class in a bin or pending is a canary. *)
Definition no_input_canary (cfg : InterDexConfig) (s : InterDexState) : Prop :=
  forall c, c ∈ flat s -> c ∈ build_class_scope (m_dexen cfg) -> is_canary c = false.

(** A class that the priority walk is to place at the entry that names it:
    the input class its name resolves to, no canary, vetoed by no plugin and
    none of the mixed-mode classes [mixed0]. *)
Definition walked (cfg : InterDexConfig) (mixed0 : list DexClass) (c : DexClass)
  : Prop :=
  build_clookup (m_dexen cfg) !! cls_name c = Some c /\
  is_canary c = false /\
  should_skip_class (m_plugins cfg) c = false /\
  c ∉ mixed0.

(** The class [B] is not placed yet, and is not going to be emitted as a
    mixed-mode class. *)
Definition unplaced (B : DexClass) (s : InterDexState) : Prop :=
  (forall n c, clookup (det s) !! n = Some c -> cls_name c = n) /\
  (B ∉ mixed_mode_classes (m_mixed_mode_info s)) /\
  (B ∉ flat s) /\ (B ∉ emitted (det s)).

(** One normal dex, the priority list naming [ex_B] then [ex_A]. *)
Definition listed_cfg : InterDexConfig :=
  mk_config [[ex_A; ex_B]] [] 1000 false true false false ["LB;"; "LA;"]
    [ex_A; ex_B] newest_first.

Definition listed_final : InterDexState :=
  Eval vm_compute in final_state_of (run 0 listed_cfg (fresh_state no_mixed_mode)).

(** One normal dex, the priority list naming [ex_A] then [ex_B]; [ex_A] is
    a mixed-mode class of a cold-start set that may be touched. *)
Definition moved_cfg : InterDexConfig :=
  mk_config [[ex_A; ex_B]] [] 1000 false true false false ["LA;"; "LB;"]
    [ex_A; ex_B] newest_first.

Definition movable_A : MixedModeInfo := mk_mixed [ex_A] [] true false.

(** An input class that bears the canary name of the first dex, in a run
    that emits canaries. *)
Definition ex_K0 : DexClass := plain_class "Lsecondary/dex00/Canary;".

Definition kept_canary_cfg : InterDexConfig :=
  mk_config [[ex_A; ex_K0]] [] 1000 false true false true [] [ex_A; ex_K0]
    newest_first.

(** * Properties *)

(** ** Machine arithmetic *)

Lemma wrap32_wrap64 z : wrap32 (wrap64 z) = wrap32 z.
Proof.
  unfold wrap32, wrap64. apply Z.mod_mod_divide.
  exists (2 ^ 32). reflexivity.
Qed.

Lemma wrap32_add_l a b : wrap32 (wrap32 a + b) = wrap32 (a + b).
Proof. unfold wrap32. apply Zplus_mod_idemp_l. Qed.

Lemma wrap32_add_r a b : wrap32 (a + wrap32 b) = wrap32 (a + b).
Proof. unfold wrap32. apply Zplus_mod_idemp_r. Qed.

Lemma wrap32_small z : 0 <= z < 2 ^ 32 -> wrap32 z = z.
Proof. intros. unfold wrap32. apply Z.mod_small. lia. Qed.

Lemma wrap32_range z : 0 <= wrap32 z < 2 ^ 32.
Proof. unfold wrap32. apply Z.mod_pos_bound. lia. Qed.

Lemma add_assign_u32_size_mul lasize n k :
  add_assign_u32 (wrap32 lasize) (size_mul n k) = wrap32 (lasize + Z.of_nat n * k).
Proof.
  unfold add_assign_u32, size_mul.
  rewrite wrap32_wrap64, wrap32_add_l.
  rewrite <- (wrap32_add_r lasize (wrap64 _)), wrap32_wrap64, wrap32_add_r.
  reflexivity.
Qed.

(** ** Suffix matching *)

Lemma length_append (p t : string) :
  String.length (p ++ t)%string = (String.length p + String.length t)%nat.
Proof. induction p as [|a p IH]; simpl; [reflexivity | now rewrite IH]. Qed.

Lemma substring_append_skip (p t : string) k n :
  substring (String.length p + k) n (p ++ t)%string = substring k n t.
Proof. induction p as [|a p IH]; simpl; [reflexivity | exact IH]. Qed.

Lemma ends_with_append (p t sfx : string) :
  (String.length sfx <= String.length t)%nat ->
  ends_with (p ++ t)%string sfx = ends_with t sfx.
Proof.
  intros Hle. unfold ends_with. rewrite length_append.
  replace (String.length p + String.length t - String.length sfx)%nat
    with (String.length p + (String.length t - String.length sfx))%nat by lia.
  rewrite substring_append_skip.
  f_equal.
  destruct (Nat.leb_spec (String.length sfx) (String.length t)); [|lia].
  apply Nat.leb_le. lia.
Qed.

Lemma vtable_penalty_spec c :
  vtable_penalty c = spec_vtable_penalty (cls_name c) (cls_super c).
Proof.
  unfold vtable_penalty, spec_vtable_penalty, matches_penalty, kPatterns.
  simpl.
  destruct (ends_with (cls_name c) "Layout;"); [reflexivity|].
  destruct (ends_with (cls_name c) "View;"); [reflexivity|].
  destruct (ends_with (cls_name c) "ViewGroup;"); [reflexivity|].
  destruct (ends_with (cls_name c) "Activity;"); [reflexivity|].
  destruct (cls_super c) as [sup|]; [|reflexivity].
  destruct (ends_with sup "Layout;"); [reflexivity|].
  destruct (ends_with sup "View;"); [reflexivity|].
  destruct (ends_with sup "ViewGroup;"); [reflexivity|].
  destruct (ends_with sup "Activity;"); reflexivity.
Qed.

Lemma estimate_linear_alloc_wrap c :
  estimate_linear_alloc c = wrap32 (spec_linear_alloc c).
Proof.
  unfold estimate_linear_alloc, spec_linear_alloc.
  rewrite <- vtable_penalty_spec.
  unfold kVtableSlotSize, kMethodSize, kInstanceFieldSize.
  destruct (cls_interface c); simpl negb; cbv iota.
  - change 0 with (wrap32 0) at 1.
    rewrite !add_assign_u32_size_mul. f_equal. lia.
  - rewrite !add_assign_u32_size_mul. f_equal. lia.
Qed.

Lemma vtable_penalty_nonneg c : 0 <= vtable_penalty c.
Proof.
  rewrite vtable_penalty_spec. unfold spec_vtable_penalty.
  repeat match goal with
         | |- context [if ?b then _ else _] => destruct b
         | |- context [match ?o with Some _ => _ | None => _ end] => destruct o
         end; lia.
Qed.

Lemma spec_linear_alloc_nonneg c : 0 <= spec_linear_alloc c.
Proof.
  unfold spec_linear_alloc. rewrite <- vtable_penalty_spec.
  pose proof (vtable_penalty_nonneg c).
  destruct (cls_interface c); lia.
Qed.

(** C4. [estimate_linear_alloc] computes the cost model of the
    specification: for an interface the vtable penalty and the 4-byte slots
    are absent; otherwise the penalty is 48 unless the first matching suffix
    of the table (Layout; 1500, View; 1500, ViewGroup; 1800, Activity; 1500),
    tried on the class name and then on the super-class name, replaces it;
    52 bytes are added per direct and per virtual method and 16 per instance
    field. The result is the model's value as an [unsigned], hence the value
    itself whenever that fits 32 bits; a name ending in ViewGroup; gets
    1800. *)
Theorem estimate_linear_alloc_cost_model (C : DexClass) :
  estimate_linear_alloc C = wrap32 (spec_linear_alloc C) /\
  (spec_linear_alloc C < 2 ^ 32 -> estimate_linear_alloc C = spec_linear_alloc C) /\
  (forall prefix : string,
      cls_name C = (prefix ++ "ViewGroup;")%string ->
      vtable_penalty C = 1800 /\
      (cls_interface C = false ->
       spec_linear_alloc C =
         1800 + Z.of_nat (length (cls_vmethods C)) * 4
         + (Z.of_nat (length (cls_dmethods C)) + Z.of_nat (length (cls_vmethods C))) * 52
         + Z.of_nat (length (cls_ifields C)) * 16)).
Proof.
  split; [apply estimate_linear_alloc_wrap|]. split.
  - intros Hfit. rewrite estimate_linear_alloc_wrap.
    apply wrap32_small. pose proof (spec_linear_alloc_nonneg C). lia.
  - intros prefix Hname.
    assert (Hp : vtable_penalty C = 1800).
    { unfold vtable_penalty, matches_penalty, kPatterns. rewrite Hname. simpl.
      rewrite !ends_with_append by (simpl; lia). reflexivity. }
    split; [exact Hp|].
    intros Hni. unfold spec_linear_alloc. rewrite Hni, <- vtable_penalty_spec, Hp.
    reflexivity.
Qed.

(** ** The monad *)

Lemma bind_Ok {A B} (m : M A) (f : A -> M B) s b s'' :
  (m ≫= f) s = Ok b s'' -> exists a s', m s = Ok a s' /\ f a s' = Ok b s''.
Proof.
  unfold mbind, M_bind. destruct (m s) as [a s'|msg s']; [eauto | discriminate].
Qed.

Lemma bind_Ok_intro {A B} (m : M A) (f : A -> M B) s a s' :
  m s = Ok a s' -> (m ≫= f) s = f a s'.
Proof. unfold mbind, M_bind. intros ->. reflexivity. Qed.

Lemma bind_Fatal_intro {A B} (m : M A) (f : A -> M B) s msg s' :
  m s = Fatal msg s' -> (m ≫= f) s = Fatal msg s'.
Proof. unfold mbind, M_bind. intros ->. reflexivity. Qed.

Ltac unfold_monad :=
  unfold mbind, M_bind, mret, M_ret, get_state, modify_state, always_assert_log.

(** ** Sets *)

Lemma elem_of_set_insert (c x : DexClass) (X : listset DexClass) :
  c ∈ set_insert x X <-> c = x \/ c ∈ X.
Proof.
  unfold set_insert. case_bool_decide as Hx.
  - split; [auto | intros [->|]; assumption].
  - destruct X as [l]. unfold elem_of, listset_elem_of. simpl.
    apply elem_of_cons.
Qed.

Lemma elem_of_set_insert_all (c : DexClass) (l : list DexClass) (X : listset DexClass) :
  c ∈ set_insert_all l X <-> c ∈ l \/ c ∈ X.
Proof.
  unfold set_insert_all. revert X.
  induction l as [|x l IH]; intros X; simpl.
  - rewrite elem_of_nil. tauto.
  - rewrite IH, elem_of_set_insert, elem_of_cons. tauto.
Qed.

Lemma set_difference_eq `{Countable T} (a b : gset T) : set_difference a b = a ∖ b.
Proof.
  unfold set_difference. apply set_eq. intros x.
  rewrite elem_of_filter, elem_of_difference. tauto.
Qed.

Lemma size_union_difference `{Countable T} (a b : gset T) :
  size (a ∪ b) = (size a + size (b ∖ a))%nat.
Proof.
  rewrite <- size_union.
  2: { apply elem_of_disjoint. intros x Hx Hy.
       apply elem_of_difference in Hy as [_ Hy]. exact (Hy Hx). }
  f_equal. apply set_eq. intros x.
  rewrite !elem_of_union, elem_of_difference.
  destruct (decide (x ∈ a)); tauto.
Qed.

(** ** Closed forms of the flusher and of the admission procedure *)

Lemma flush_out_dex_eq cfg s :
  flush_out_dex cfg s =
    Ok tt (set_det
             (mk_det 0 ∅ ∅ []
                (set_insert_all
                   (plugin_additions (m_plugins cfg) (outdex s) (outs (det s)))
                   (emitted (det s)))
                (clookup (det s)))
             (set_outdex
                (outdex s ++
                 [outs (det s) ++
                  plugin_additions (m_plugins cfg) (outdex s) (outs (det s))]) s)).
Proof. reflexivity. Qed.

Lemma flush_out_secondary_eq cfg dconfig mm s :
  flush_out_secondary cfg dconfig mm s =
    if bool_decide (outs (det s) = []) then Ok tt s
    else if m_emit_canaries cfg then
      if Z.of_nat (length (outdex s)) <=? kMaxDexNum then
        if mm || is_mixed_mode_dex dconfig s then
          if Nat.eqb (m_num_mixed_mode_dexes s) 0 then
            flush_out_dex cfg
              (record_mixed_mode_dex (canary_name (length (outdex s)))
                 (seal_canary cfg dconfig s))
          else Fatal "For now we only accept 1 mixed mode dex."
                 (seal_canary cfg dconfig s)
        else flush_out_dex cfg (seal_canary cfg dconfig s)
      else Fatal "Bailing, Max dex number surpassed" (count_secondary_dex dconfig s)
    else flush_out_dex cfg (count_secondary_dex dconfig s).
Proof.
  unfold flush_out_secondary. unfold_monad.
  destruct (bool_decide (outs (det s) = [])); [reflexivity|].
  destruct (m_emit_canaries cfg); [|reflexivity].
  destruct (Z.of_nat (length (outdex s)) <=? kMaxDexNum); [|reflexivity].
  destruct (mm || is_mixed_mode_dex dconfig s); [|reflexivity].
  simpl.
  destruct (Nat.eqb (m_num_mixed_mode_dexes s) 0); reflexivity.
Qed.

Lemma emit_class_eq cfg clazz dconfig is_primary check_if_skip s :
  emit_class cfg clazz dconfig is_primary check_if_skip s =
    if passes_guards cfg clazz is_primary check_if_skip s then
      if overflows cfg (det s) clazz then
        if is_primary then
          Fatal "would have to do an early flush on the primary dex" s
        else
          match flush_out_secondary cfg dconfig false s with
          | Ok _ s1 => Ok tt (admit_in cfg clazz s1)
          | Fatal msg s1 => Fatal msg s1
          end
      else Ok tt (admit_in cfg clazz s)
    else Ok tt s.
Proof.
  unfold emit_class, passes_guards. unfold_monad.
  destruct (bool_decide (clazz ∈ emitted (det s)) || is_canary clazz); [reflexivity|].
  destruct (check_if_skip && should_skip_class (m_plugins cfg) clazz); [reflexivity|].
  destruct (negb is_primary && check_if_skip &&
            is_mixed_mode_class (m_mixed_mode_info s) clazz); [reflexivity|].
  simpl.
  destruct (overflows cfg (det s) clazz); [|reflexivity].
  destruct is_primary; simpl; [reflexivity|].
  destruct (flush_out_secondary cfg dconfig false s); reflexivity.
Qed.

Lemma overflows_false_iff cfg d C :
  0 <= la_size d -> la_size d + estimate_linear_alloc C < 2 ^ 32 ->
  overflows cfg d C = false <-> spec_admits cfg d C.
Proof.
  intros Hla Hfit. unfold overflows, spec_admits.
  rewrite !set_difference_eq.
  pose proof (wrap32_range (spec_linear_alloc C)) as Hr.
  rewrite <- estimate_linear_alloc_wrap in Hr.
  rewrite wrap32_small by lia.
  unfold kMaxMethodRefs, kMaxFieldRefs.
  rewrite !orb_false_iff, Z.ltb_ge, !Z.leb_gt. cbv zeta. simpl. lia.
Qed.

Lemma flush_out_dex_outdex cfg s s' :
  flush_out_dex cfg s = Ok tt s' -> length (outdex s') = S (length (outdex s)).
Proof.
  rewrite flush_out_dex_eq. intros [= <-]. simpl.
  rewrite length_app. simpl. lia.
Qed.

Lemma flush_out_secondary_nonempty_grows cfg dconfig mm s s' :
  outs (det s) <> [] ->
  flush_out_secondary cfg dconfig mm s = Ok tt s' ->
  length (outdex s') = S (length (outdex s)).
Proof.
  intros Hne. rewrite flush_out_secondary_eq.
  rewrite bool_decide_eq_false_2 by assumption.
  repeat match goal with
         | |- context [if ?b then _ else _] => destruct b
         end; try discriminate;
    intros Hf; apply flush_out_dex_outdex in Hf; exact Hf.
Qed.

(** C1, as amended. For a class that reaches the capacity test of
    [emit_class] (not yet emitted, not a canary, not vetoed, not a withheld
    mixed-mode class), a bin that already holds a class, and a linear-alloc
    sum within the 32 bits of its type: the class is appended to the current
    bin with no bin sealed if and only if la_size + LA(C) <= LA_LIMIT,
    |mrefs| + |refs of C not in mrefs| < 65535 and the same for the field
    refs; the comparisons on the refs are strict, so the sets of a bin the
    class was added to hold at most 65534 refs. *)
Theorem emit_class_admission cfg C dconfig is_primary check_if_skip s :
  passes_guards cfg C is_primary check_if_skip s = true ->
  outs (det s) <> [] ->
  0 <= la_size (det s) ->
  la_size (det s) + estimate_linear_alloc C < 2 ^ 32 ->
  (admitted_in_place cfg C dconfig is_primary check_if_skip s <->
   spec_admits cfg (det s) C) /\
  (forall s', admitted_in_place cfg C dconfig is_primary check_if_skip s ->
              emit_class cfg C dconfig is_primary check_if_skip s = Ok tt s' ->
              Z.of_nat (size (mrefs (det s'))) <= 65534 /\
              Z.of_nat (size (frefs (det s'))) <= 65534).
Proof.
  intros Hg Hne Hla Hfit.
  pose proof (overflows_false_iff cfg (det s) C Hla Hfit) as Hov.
  unfold admitted_in_place. rewrite emit_class_eq, Hg.
  destruct (overflows cfg (det s) C) eqn:Ho.
  - assert (Hns : ~ spec_admits cfg (det s) C).
    { intros Hs. apply Hov in Hs. discriminate. }
    assert (Hnot : ~ exists s',
               (if is_primary
                then Fatal "would have to do an early flush on the primary dex" s
                else match flush_out_secondary cfg dconfig false s with
                     | Ok _ s1 => Ok tt (admit_in cfg C s1)
                     | Fatal msg s1 => Fatal msg s1
                     end) = Ok tt s' /\
               outdex s' = outdex s /\ outs (det s') = outs (det s) ++ [C]).
    { intros (s' & Hrun & Hod & _).
      destruct is_primary; [discriminate|].
      destruct (flush_out_secondary cfg dconfig false s) as [[] s1|] eqn:Hf;
        [|discriminate].
      injection Hrun as <-.
      apply flush_out_secondary_nonempty_grows in Hf; [|assumption].
      simpl in Hod. rewrite Hod in Hf. lia. }
    split; [tauto|]. intros s' Hadm. contradiction.
  - assert (Hs : spec_admits cfg (det s) C) by (apply Hov; reflexivity).
    split.
    + split; [intros _; exact Hs|]. intros _.
      exists (admit_in cfg C s). repeat split.
    + intros s' _ [= <-]. simpl.
      destruct Hs as (_ & Hm & Hf).
      rewrite !size_union_difference. cbv zeta in Hm, Hf. unfold gather_refs in Hm, Hf. simpl in Hm, Hf. lia.
Qed.

(** C6. A class that reaches admission into the primary bin and fails the
    capacity test aborts the run: [emit_class] with [is_primary] ends in
    [Fatal] with the state it was called in, so nothing of the tracker has
    changed for the class; and no call with [is_primary] seals a bin. *)
Theorem emit_class_primary_overflow_fatal cfg C dconfig check_if_skip s :
  (forall s', emit_class cfg C dconfig true check_if_skip s = Ok tt s' ->
              outdex s' = outdex s /\
              m_secondary_dexes s' = m_secondary_dexes s) /\
  (passes_guards cfg C true check_if_skip s = true ->
   overflows cfg (det s) C = true ->
   exists msg, emit_class cfg C dconfig true check_if_skip s = Fatal msg s).
Proof.
  rewrite emit_class_eq. split.
  - intros s'.
    destruct (passes_guards cfg C true check_if_skip s).
    + destruct (overflows cfg (det s) C); [discriminate|].
      intros [= <-]. split; reflexivity.
    + intros [= <-]. split; reflexivity.
  - intros -> ->. eexists. reflexivity.
Qed.

(** C7, as amended. With canary emission enabled, a flush that seals a bin
    carrying the mixed-mode flag (given by the caller or found by
    [is_mixed_mode_dex]) aborts the run when a mixed-mode bin was sealed
    before; otherwise it counts the bin and appends the canary name and a
    newline to mixed_mode.txt. *)
Theorem flush_out_secondary_mixed_mode cfg dconfig mixed_mode_dex s :
  m_emit_canaries cfg = true ->
  outs (det s) <> [] ->
  (length (outdex s) <= 99)%nat ->
  mixed_mode_dex || is_mixed_mode_dex dconfig s = true ->
  (m_num_mixed_mode_dexes s <> O ->
   exists msg s1, flush_out_secondary cfg dconfig mixed_mode_dex s = Fatal msg s1 /\
                  outdex s1 = outdex s) /\
  (m_num_mixed_mode_dexes s = O ->
   exists s', flush_out_secondary cfg dconfig mixed_mode_dex s = Ok tt s' /\
              m_num_mixed_mode_dexes s' = 1%nat /\
              mixed_mode_txt s' =
                (mixed_mode_txt s ++ canary_name (length (outdex s)) ++
                 String (ascii_of_nat 10) "")%string /\
              length (outdex s') = S (length (outdex s))).
Proof.
  intros Hc Hne Hlen Hmm.
  rewrite flush_out_secondary_eq, Hc, Hmm.
  rewrite bool_decide_eq_false_2 by assumption.
  replace (Z.of_nat (length (outdex s)) <=? kMaxDexNum) with true
    by (symmetry; apply Z.leb_le; unfold kMaxDexNum; lia).
  split.
  - intros Hn. apply Nat.eqb_neq in Hn. rewrite Hn.
    eexists _, _. split; reflexivity.
  - intros Hn. rewrite Hn. simpl.
    eexists. split; [reflexivity|]. simpl. rewrite Hn.
    repeat split. rewrite length_app. simpl. lia.
Qed.

(** C10, the two flushers. *)
Lemma flush_out_secondary_empty cfg dconfig mixed_mode_dex s :
  outs (det s) = [] -> flush_out_secondary cfg dconfig mixed_mode_dex s = Ok tt s.
Proof.
  intros He. rewrite flush_out_secondary_eq.
  rewrite bool_decide_eq_true_2 by assumption. reflexivity.
Qed.


(** ** Operations that keep an invariant *)

Section Respects.

Variable cfg : InterDexConfig.

Variable I : InterDexState -> Prop.

Variable R : InterDexState -> InterDexState -> Prop.

Variable fresh : InterDexState -> DexClass -> Prop.

Variable Adm : DexClass -> Prop.

Hypothesis R_refl : forall s, R s s.

Hypothesis R_trans : forall s1 s2 s3, R s1 s2 -> R s2 s3 -> R s1 s3.

Hypothesis H_core : forall s s', same_core s s' -> I s -> I s' /\ R s s'.

Hypothesis H_fresh : forall s c,
    I s -> Adm c -> c ∉ emitted (det s) -> is_canary c = false -> fresh s c.

Hypothesis H_admit : forall s c,
    I s -> fresh s c -> is_canary c = false ->
    I (admit_in cfg c s) /\ R s (admit_in cfg c s).

Hypothesis H_flush : forall dconfig mm,
    respects I R (flush_out_secondary cfg dconfig mm).

Hypothesis H_flush_fresh : forall dconfig mm s s' c,
    I s -> fresh s c -> is_canary c = false ->
    flush_out_secondary cfg dconfig mm s = Ok tt s' -> fresh s' c.

Hypothesis H_mixed : forall (g : MixedModeInfo -> MixedModeInfo) s,
    (forall mmi c, c ∈ mixed_mode_classes (g mmi) -> c ∈ mixed_mode_classes mmi) ->
    I s ->
    I (set_mixed_mode_info (g (m_mixed_mode_info s)) s) /\
    R s (set_mixed_mode_info (g (m_mixed_mode_info s)) s).

Lemma respects_ret {A} (a : A) : respects I R (mret a).
Proof. intros s a' s' HI [= <- <-]. auto. Qed.

Lemma respects_bind {A B} (m : M A) (f : A -> M B) :
  respects I R m -> (forall a, respects I R (f a)) -> respects I R (m ≫= f).
Proof.
  intros Hm Hf s b s'' HI Hrun.
  apply bind_Ok in Hrun as (a & s' & H1 & H2).
  destruct (Hm _ _ _ HI H1) as [HI' HR'].
  destruct (Hf a _ _ _ HI' H2) as [HI'' HR''].
  eauto.
Qed.

Lemma respects_get {A} (f : InterDexState -> M A) :
  (forall s0, respects I R (f s0)) -> respects I R (get_state ≫= f).
Proof. intros Hf s a s' HI Hrun. exact (Hf s s a s' HI Hrun). Qed.

Lemma respects_get_at {A} (f : InterDexState -> M A) :
  (forall s0, I s0 -> forall a s', f s0 s0 = Ok a s' -> I s' /\ R s0 s') ->
  respects I R (get_state ≫= f).
Proof. intros Hf s a s' HI Hrun. exact (Hf s HI a s' Hrun). Qed.

Lemma respects_assert b msg : respects I R (always_assert_log b msg).
Proof.
  intros s [] s' HI. unfold always_assert_log.
  destruct b; [intros [= <-]; auto | discriminate].
Qed.

Lemma respects_counters (f : InterDexState -> InterDexState) :
  (forall s, same_core s (f s)) -> respects I R (modify_state f).
Proof. intros Hf s [] s' HI [= <-]. apply H_core; auto. Qed.

Lemma respects_if {A} (b : bool) (m1 m2 : M A) :
  respects I R m1 -> respects I R m2 -> respects I R (if b then m1 else m2).
Proof. destruct b; auto. Qed.

Lemma respects_for_each {A} (l : list A) (body : A -> M unit) :
  (forall x, x ∈ l -> respects I R (body x)) -> respects I R (for_each l body).
Proof.
  induction l as [|x l IH]; intros Hb; simpl.
  - apply respects_ret.
  - apply respects_bind.
    + apply Hb. left.
    + intros _. apply IH. intros y Hy. apply Hb. right. exact Hy.
Qed.

Lemma respects_for_each_acc {A B} (l : list A) (body : B -> A -> M B) acc :
  (forall b x, x ∈ l -> respects I R (body b x)) ->
  respects I R (for_each_acc l acc body).
Proof.
  revert acc. induction l as [|x l IH]; intros acc Hb; simpl.
  - apply respects_ret.
  - apply respects_bind.
    + apply Hb. left.
    + intros acc'. apply IH. intros b y Hy. apply Hb. right. exact Hy.
Qed.

Lemma passes_guards_fresh c is_primary check_if_skip s :
  I s -> Adm c -> passes_guards cfg c is_primary check_if_skip s = true ->
  fresh s c /\ is_canary c = false.
Proof.
  intros HI Ha Hg. unfold passes_guards in Hg.
  apply andb_true_iff in Hg as [Hg _]. apply andb_true_iff in Hg as [Hg _].
  apply negb_true_iff, orb_false_iff in Hg as [He Hc].
  apply bool_decide_eq_false in He. split; [apply H_fresh|]; assumption.
Qed.

Lemma emit_class_respects c dconfig is_primary check_if_skip :
  Adm c -> respects I R (emit_class cfg c dconfig is_primary check_if_skip).
Proof.
  intros Ha s [] s' HI. rewrite emit_class_eq.
  destruct (passes_guards cfg c is_primary check_if_skip s) eqn:Hg;
    [|intros [= <-]; auto].
  destruct (passes_guards_fresh _ _ _ _ HI Ha Hg) as [Hf Hc].
  destruct (overflows cfg (det s) c).
  - destruct is_primary; [discriminate|].
    destruct (flush_out_secondary cfg dconfig false s) as [[] s1|] eqn:Hfl;
      [|discriminate].
    intros [= <-].
    destruct (H_flush _ _ _ _ _ HI Hfl) as [HI1 HR1].
    pose proof (H_flush_fresh _ _ _ _ _ HI Hf Hc Hfl) as Hf1.
    destruct (H_admit _ _ HI1 Hf1 Hc) as [HI2 HR2]. eauto.
  - intros [= <-]. apply H_admit; assumption.
Qed.

Hypothesis Adm_all : forall c, Adm c.

Lemma remove_mixed_respects c :
  respects I R (modify_state (fun s' =>
    set_mixed_mode_info (remove_mixed_mode_class (m_mixed_mode_info s') c) s')).
Proof.
  intros s [] s' HI [= <-].
  apply (H_mixed (fun mmi => remove_mixed_mode_class mmi c)); [|assumption].
  intros mmi x. simpl. rewrite list_elem_of_filter. tauto.
Qed.

Lemma remove_all_mixed_respects :
  respects I R (modify_state (fun s' =>
    set_mixed_mode_info (remove_all_mixed_mode_classes (m_mixed_mode_info s')) s')).
Proof.
  intros s [] s' HI [= <-].
  apply (H_mixed remove_all_mixed_mode_classes); [|assumption].
  intros mmi x. simpl. rewrite elem_of_nil. tauto.
Qed.

Lemma emit_mixed_mode_classes_respects interdexorder can_touch :
  respects I R (emit_mixed_mode_classes cfg interdexorder can_touch).
Proof.
  unfold emit_mixed_mode_classes.
  apply respects_bind.
  { apply respects_for_each. intros elem _. apply respects_get. intros s0.
    destruct (clookup (det s0) !! elem) as [clazz|]; [|apply respects_ret].
    apply respects_if; [|apply respects_ret].
    apply respects_bind.
    - apply respects_if; [apply emit_class_respects, Adm_all | apply respects_ret].
    - intros _. apply remove_mixed_respects. }
  intros _. apply respects_get. intros s0.
  apply respects_bind.
  { apply respects_for_each. intros clazz _. apply respects_get. intros s1.
    apply respects_if; [apply emit_class_respects, Adm_all | apply respects_ret]. }
  intros _. apply respects_get. intros s1.
  apply respects_bind.
  { apply respects_if; [apply respects_ret | apply H_flush]. }
  intros _. apply remove_all_mixed_respects.
Qed.

Lemma walk_entry_respects interdexorder unreferenced loc position :
  respects I R (walk_entry cfg interdexorder unreferenced loc position).
Proof.
  unfold walk_entry. apply respects_get. intros s0.
  destruct (clookup (det s0) !! position.2) as [clazz|].
  - apply respects_bind.
    { apply respects_if; [|apply respects_ret].
      apply respects_if; [apply remove_mixed_respects | apply respects_assert]. }
    intros _. apply respects_if.
    + apply respects_bind; [|intros _; apply respects_ret].
      apply respects_counters. intros s. repeat split.
    + apply respects_get. intros s1.
      apply respects_bind; [apply emit_class_respects, Adm_all|].
      intros _. apply respects_ret.
  - apply respects_bind.
    { apply respects_if; [|apply respects_ret].
      apply respects_bind; [apply H_flush|]. intros _.
      apply respects_bind.
      { apply respects_counters. intros s. repeat split. }
      intros _. apply respects_get. intros s1.
      apply respects_bind; [|intros _; apply respects_ret].
      apply respects_if;
        [apply emit_mixed_mode_classes_respects | apply respects_ret]. }
    intros loc'. apply respects_bind; [|intros _; apply respects_ret].
    apply respects_if; [|apply respects_ret].
    apply respects_bind; [apply H_flush|]. intros _.
    apply respects_counters. intros s. repeat split.
Qed.

Lemma priority_walk_respects unreferenced n :
  respects I R (priority_walk cfg unreferenced n).
Proof.
  unfold priority_walk. apply respects_get. intros s0.
  apply respects_for_each_acc. intros b x _. apply walk_entry_respects.
Qed.

Lemma run_epilogue_respects unreferenced loc :
  respects I R (run_epilogue cfg unreferenced loc).
Proof.
  unfold run_epilogue. apply respects_get. intros s0.
  apply respects_bind.
  { apply respects_if;
      [apply emit_mixed_mode_classes_respects | apply respects_ret]. }
  intros _. apply respects_bind.
  { apply respects_for_each. intros entry _. apply respects_get. intros s1.
    destruct (clookup (det s1) !! entry) as [clazz|]; [|apply respects_ret].
    apply respects_if; [apply emit_class_respects, Adm_all | apply respects_ret]. }
  intros _. apply respects_bind.
  { apply respects_if; [|apply respects_ret].
    apply respects_counters. intros s. repeat split. }
  intros _. apply respects_bind.
  { apply respects_for_each. intros clazz _. apply emit_class_respects, Adm_all. }
  intros _. apply respects_bind.
  { apply respects_for_each. intros plugin _.
    apply respects_for_each. intros add_class _. apply emit_class_respects, Adm_all. }
  intros _. apply respects_get. intros s1.
  apply respects_bind.
  { apply respects_if; [apply respects_ret | apply H_flush]. }
  intros _. apply respects_get. intros s2. apply respects_ret.
Qed.

End Respects.

(** ** Names *)

Lemma prefix_append (p x : string) : String.prefix p (p ++ x)%string = true.
Proof.
  induction p as [|a p IH]; simpl.
  - destruct x; reflexivity.
  - destruct (Ascii.ascii_dec a a); [exact IH | congruence].
Qed.

Lemma is_canary_named (c : DexClass) i :
  cls_name c = canary_name i -> is_canary c = true.
Proof.
  intros Hn. unfold is_canary. rewrite Hn. unfold canary_name.
  apply prefix_append.
Qed.

Lemma type_class_name registry t c :
  type_class registry t = Some c -> cls_name c = t.
Proof.
  unfold type_class. intros Hf. apply find_some in Hf as [_ He].
  apply String.eqb_eq in He. exact He.
Qed.

Lemma find_canary_name cfg d n :
  (forall k c, clookup d !! k = Some c -> cls_name c = k) ->
  cls_name (find_canary cfg d n) = n.
Proof.
  intros Hcl. unfold find_canary.
  destruct (clookup d !! n) as [c|] eqn:Hl; [eauto|].
  destruct (type_class (type_registry cfg) n) as [c|] eqn:Ht.
  - eapply type_class_name; eassumption.
  - reflexivity.
Qed.

(** ** What a secondary flush of a non-empty pending list leaves behind *)

Lemma flush_out_secondary_Ok cfg dconfig mm s s' :
  outs (det s) <> [] ->
  flush_out_secondary cfg dconfig mm s = Ok tt s' ->
  outdex s' =
    outdex s ++
    [sealed_pending cfg s ++
     plugin_additions (m_plugins cfg) (outdex s) (sealed_pending cfg s)] /\
  outs (det s') = [] /\
  emitted (det s') =
    set_insert_all
      (plugin_additions (m_plugins cfg) (outdex s) (sealed_pending cfg s))
      (emitted (det s)) /\
  clookup (det s') = clookup (det s) /\
  m_mixed_mode_info s' = m_mixed_mode_info s /\
  (m_emit_canaries cfg = true -> (length (outdex s) <= 99)%nat).
Proof.
  intros Hne. rewrite flush_out_secondary_eq.
  rewrite bool_decide_eq_false_2 by assumption.
  unfold sealed_pending.
  destruct (m_emit_canaries cfg).
  - destruct (Z.of_nat (length (outdex s)) <=? kMaxDexNum) eqn:Hle; [|discriminate].
    apply Z.leb_le in Hle. unfold kMaxDexNum in Hle.
    destruct (mm || is_mixed_mode_dex dconfig s).
    + destruct (Nat.eqb (m_num_mixed_mode_dexes s) 0); [|discriminate].
      rewrite flush_out_dex_eq. intros [= <-]. simpl.
      repeat split. intros _. lia.
    + rewrite flush_out_dex_eq. intros [= <-]. simpl.
      repeat split. intros _. lia.
  - rewrite flush_out_dex_eq. intros [= <-]. simpl.
    repeat split. discriminate.
Qed.

Lemma flat_after_flush cfg dconfig mm s s' :
  outs (det s) <> [] ->
  flush_out_secondary cfg dconfig mm s = Ok tt s' ->
  flat s' =
    flat s ++
    (if m_emit_canaries cfg
     then [find_canary cfg (det s) (canary_name (length (outdex s)))] else []) ++
    plugin_additions (m_plugins cfg) (outdex s) (sealed_pending cfg s).
Proof.
  intros Hne Hf.
  destruct (flush_out_secondary_Ok _ _ _ _ _ Hne Hf) as (Ho & Hp & _).
  unfold flat. rewrite Ho, Hp, concat_app. simpl. rewrite !app_nil_r.
  unfold sealed_pending. destruct (m_emit_canaries cfg); simpl;
    rewrite <- ?app_assoc; simpl; rewrite ?app_nil_r; reflexivity.
Qed.

Lemma plugin_additions_outside cfg sofar pending c :
  extras_outside cfg ->
  c ∈ plugin_additions (m_plugins cfg) sofar pending ->
  counted cfg c = false.
Proof.
  intros Hex Hc. unfold plugin_additions in Hc.
  apply list_elem_of_In, in_flat_map in Hc as (plugin & Hp & Hc).
  apply list_elem_of_In in Hp, Hc.
  unfold counted. rewrite bool_decide_eq_false_2; [reflexivity|].
  eapply Hex; eassumption.
Qed.

(** ** The invariant is kept by the operations of the packer *)

Lemma Ext_refl s : Ext s s.
Proof.
  split; auto.
  - exists []. rewrite app_nil_r. reflexivity.
Qed.

Lemma Ext_trans s1 s2 s3 : Ext s1 s2 -> Ext s2 s3 -> Ext s1 s3.
Proof.
  intros [[a1 Hf1] Ho1 He1 Hc1 Hm1] [[a2 Hf2] Ho2 He2 Hc2 Hm2]. split.
  - exists (a1 ++ a2). rewrite Hf2, Hf1, app_assoc. reflexivity.
  - etrans; eassumption.
  - auto.
  - congruence.
  - auto.
Qed.

Lemma filter_none {A} (P : A -> Prop) `{forall x, Decision (P x)} (l : list A) :
  (forall x, x ∈ l -> ~ P x) -> filter P l = [].
Proof.
  induction l as [|x l IH]; intros Hn; [reflexivity|].
  rewrite list.filter_cons_False by (apply Hn; left).
  apply IH. intros y Hy. apply Hn. right. exact Hy.
Qed.

Section Primitives.

Variable cfg : InterDexConfig.

Variable Adm : DexClass -> Prop.

Variable k0 : nat.

Variable mixed0 : list DexClass.

Abbreviation I := (Inv cfg Adm k0 mixed0).

Abbreviation fresh := (fresh_for cfg Adm).

Lemma Inv_core s s' : same_core s s' -> I s -> I s' /\ Ext s s'.
Proof.
  intros (Hd & Ho & Hm) [H1 H2 H3 H4 H5 H6 H7 H8].
  assert (Hfl : flat s' = flat s) by (unfold flat; rewrite Hd, Ho; reflexivity).
  split.
  - split; rewrite ?Hd, ?Ho, ?Hm, ?Hfl; assumption.
  - split; rewrite ?Hd, ?Ho, ?Hm, ?Hfl; auto.
    exists []. rewrite app_nil_r. reflexivity.
Qed.

Lemma Inv_fresh s c :
  I s -> Adm c -> c ∉ emitted (det s) -> is_canary c = false -> fresh s c.
Proof.
  intros HI Ha He Hc. split; [assumption|].
  intros Hex Hcnt Hin. apply He. eapply inv_emitted; eassumption.
Qed.

Lemma Inv_admit s c :
  I s -> fresh s c -> is_canary c = false ->
  I (admit_in cfg c s) /\ Ext s (admit_in cfg c s).
Proof.
  intros [H1 H2 H3 H4 H5 H6 H7 H8] [Ha Hfr] Hc.
  assert (Hfl : flat (admit_in cfg c s) = flat s ++ [c]).
  { unfold flat. simpl. rewrite app_assoc. reflexivity. }
  split.
  - split; rewrite ?Hfl; simpl; try assumption.
    + apply Forall_app. split; [assumption|]. constructor; auto.
    + intros c' Hc' Hnc Hns. rewrite elem_of_app, list_elem_of_singleton.
      apply elem_of_set_insert in Hc' as [->|Hc']; [right; reflexivity|].
      left. auto.
    + intros Hex c' Hc' Hcnt. apply elem_of_set_insert.
      apply elem_of_app in Hc' as [Hc'|Hc'].
      * right. auto.
      * left. apply list_elem_of_singleton in Hc'. assumption.
    + intros Hex. rewrite list.filter_app. apply list.NoDup_app. split; [auto|].
      split.
      * intros x Hx Hx'. rewrite list.filter_cons, list.filter_nil in Hx'.
        case_decide as Hcnt; [|apply elem_of_nil in Hx'; assumption].
        apply list_elem_of_singleton in Hx'. subst x.
        apply list_elem_of_filter in Hx as [_ Hx]. exact (Hfr Hex Hcnt Hx).
      * rewrite list.filter_cons, list.filter_nil. case_decide.
        -- apply NoDup_singleton.
        -- apply NoDup_nil_2.
  - split; simpl; auto.
    + exists [c]. assumption.
    + intros c' Hc'. apply elem_of_set_insert. auto.
Qed.

Lemma Inv_flush dconfig mm :
  respects I Ext (flush_out_secondary cfg dconfig mm).
Proof.
  intros s [] s' HI Hf.
  destruct (decide (outs (det s) = [])) as [He|Hne].
  { rewrite flush_out_secondary_empty in Hf by assumption.
    injection Hf as <-. split; [assumption | apply Ext_refl]. }
  pose proof (flat_after_flush _ _ _ _ _ Hne Hf) as Hfl.
  destruct (flush_out_secondary_Ok _ _ _ _ _ Hne Hf)
    as (Ho & Hp & Hem & Hcl & Hmx & Hlen).
  destruct HI as [H1 H2 H3 H4 H5 H6 H7 H8].
  assert (Hcn : forall i,
             is_canary (find_canary cfg (det s) (canary_name i)) = true).
  { intros i. eapply is_canary_named, find_canary_name.
    intros k c Hk. apply (H2 k c Hk). }
  split.
  - split.
    + rewrite Hp. constructor.
    + rewrite Hcl. assumption.
    + rewrite Ho, length_app. simpl. lia.
    + intros Hcan i bin Hi Hk. rewrite Ho in Hi |- *.
      destruct (decide (i < length (outdex s))%nat) as [Hlt|Hge].
      * rewrite lookup_app_l in Hi by assumption.
        rewrite take_app_le by lia. auto.
      * rewrite lookup_app_r in Hi by lia.
        apply list_lookup_singleton_Some in Hi as [Hi <-].
        assert (i = length (outdex s)) as -> by lia.
        rewrite take_app_length.
        unfold sealed_pending. rewrite Hcan.
        exists (outs (det s)), (find_canary cfg (det s) (canary_name (length (outdex s)))).
        split; [rewrite <- app_assoc; reflexivity|].
        split; [assumption|]. split.
        -- eapply Forall_impl; [|exact H1]. intros x [Hx _]. exact Hx.
        -- apply find_canary_name. intros k c Hkc. apply (H2 k c Hkc).
    + rewrite Hmx. assumption.
    + intros c Hc Hnc Hns. rewrite Hem in Hc.
      apply elem_of_set_insert_all in Hc as [Hc|Hc].
      * rewrite Hfl, !elem_of_app. right. right. assumption.
      * rewrite Hfl, elem_of_app. left. auto.
    + intros Hex c Hc Hcnt. rewrite Hem. apply elem_of_set_insert_all.
      rewrite Hfl, !elem_of_app in Hc. destruct Hc as [Hc|[Hc|Hc]].
      * right. auto.
      * destruct (m_emit_canaries cfg); [|apply elem_of_nil in Hc; contradiction].
        apply list_elem_of_singleton in Hc. subst c.
        unfold counted in Hcnt. rewrite Hcn, andb_false_r in Hcnt. discriminate.
      * left. assumption.
    + intros Hex. rewrite Hfl, !list.filter_app.
      assert (Hz1 : filter (fun c => counted cfg c = true)
                      (if m_emit_canaries cfg
                       then [find_canary cfg (det s)
                               (canary_name (length (outdex s)))]
                       else []) = []).
      { destruct (m_emit_canaries cfg); [|reflexivity].
        rewrite list.filter_cons, list.filter_nil. case_decide as Hcnt; [|reflexivity].
        unfold counted in Hcnt. rewrite Hcn, andb_false_r in Hcnt. discriminate. }
      assert (Hz2 : filter (fun c => counted cfg c = true)
                      (plugin_additions (m_plugins cfg) (outdex s)
                         (sealed_pending cfg s)) = []).
      { apply filter_none. intros x Hx Hcnt.
        rewrite (plugin_additions_outside _ _ _ _ Hex Hx) in Hcnt. discriminate. }
      rewrite Hz1, Hz2, !app_nil_r. auto.
  - split.
    + eexists. exact Hfl.
    + rewrite Ho. apply prefix_app_r. reflexivity.
    + intros c Hc. rewrite Hem. apply elem_of_set_insert_all. auto.
    + assumption.
    + rewrite Hmx. auto.
Qed.

Lemma Inv_flush_fresh dconfig mm s s' c :
  I s -> fresh s c -> is_canary c = false ->
  flush_out_secondary cfg dconfig mm s = Ok tt s' -> fresh s' c.
Proof.
  intros HI [Ha Hfr] Hc Hf. split; [assumption|].
  intros Hex Hcnt.
  destruct (decide (outs (det s) = [])) as [He|Hne].
  { rewrite flush_out_secondary_empty in Hf by assumption.
    injection Hf as <-. auto. }
  rewrite (flat_after_flush _ _ _ _ _ Hne Hf), !elem_of_app.
  intros [Hin|[Hin|Hin]].
  - exact (Hfr Hex Hcnt Hin).
  - destruct (m_emit_canaries cfg); [|apply elem_of_nil in Hin; contradiction].
    apply list_elem_of_singleton in Hin. subst c.
    erewrite is_canary_named in Hc; [discriminate|].
    apply find_canary_name. intros k c Hk. apply (inv_clookup _ _ _ _ _ HI k c Hk).
  - rewrite (plugin_additions_outside _ _ _ _ Hex Hin) in Hcnt. discriminate.
Qed.

Lemma Inv_mixed (g : MixedModeInfo -> MixedModeInfo) s :
  (forall mmi c, c ∈ mixed_mode_classes (g mmi) -> c ∈ mixed_mode_classes mmi) ->
  I s ->
  I (set_mixed_mode_info (g (m_mixed_mode_info s)) s) /\
  Ext s (set_mixed_mode_info (g (m_mixed_mode_info s)) s).
Proof.
  intros Hg [H1 H2 H3 H4 H5 H6 H7 H8]. split.
  - split; simpl; auto.
  - split; simpl; auto.
    exists []. rewrite app_nil_r. reflexivity.
Qed.

End Primitives.

(** The invariant along the secondary pipeline, where any class may be
    handed to [emit_class]. *)
Section Pipeline.

Variable cfg : InterDexConfig.

Variable k0 : nat.

Variable mixed0 : list DexClass.

Abbreviation J := (Inv cfg (fun _ => True) k0 mixed0).

Ltac pipeline_side :=
  first [ exact Ext_refl | exact Ext_trans
        | exact (Inv_core _ _ _ _) | exact (Inv_fresh _ _ _ _)
        | exact (Inv_admit _ _ _ _) | exact (Inv_flush _ _ _ _)
        | exact (Inv_flush_fresh _ _ _ _) | exact (Inv_mixed _ _ _ _)
        | exact (fun _ => Logic.I) ].

Lemma emit_class_Inv (Adm : DexClass -> Prop) k mixed c dconfig is_primary check_if_skip :
  Adm c ->
  respects (Inv cfg Adm k mixed) Ext
    (emit_class cfg c dconfig is_primary check_if_skip).
Proof.
  exact (emit_class_respects cfg (Inv cfg Adm k mixed) Ext (fresh_for cfg Adm) Adm
           Ext_refl Ext_trans (Inv_fresh cfg Adm k mixed)
           (Inv_admit cfg Adm k mixed) (Inv_flush cfg Adm k mixed)
           (Inv_flush_fresh cfg Adm k mixed) c dconfig is_primary check_if_skip).
Qed.

Lemma emit_mixed_mode_classes_Inv interdexorder can_touch :
  respects J Ext (emit_mixed_mode_classes cfg interdexorder can_touch).
Proof.
  apply (emit_mixed_mode_classes_respects cfg J Ext (fresh_for cfg (fun _ => True))
           (fun _ => True)); pipeline_side.
Qed.

Lemma walk_entry_Inv interdexorder unreferenced loc position :
  respects J Ext (walk_entry cfg interdexorder unreferenced loc position).
Proof.
  apply (walk_entry_respects cfg J Ext (fresh_for cfg (fun _ => True))
           (fun _ => True)); pipeline_side.
Qed.

Lemma priority_walk_Inv unreferenced n :
  respects J Ext (priority_walk cfg unreferenced n).
Proof.
  apply (priority_walk_respects cfg J Ext (fresh_for cfg (fun _ => True))
           (fun _ => True)); pipeline_side.
Qed.

Lemma run_epilogue_Inv unreferenced loc :
  respects J Ext (run_epilogue cfg unreferenced loc).
Proof.
  apply (run_epilogue_respects cfg J Ext (fresh_for cfg (fun _ => True))
           (fun _ => True)); pipeline_side.
Qed.

End Pipeline.

(** ** The name index *)

Lemma index_classes_lookup (l : list DexClass) (m0 : gmap string DexClass) n c :
  foldl (fun m clazz => <[cls_name clazz := clazz]> m) m0 l !! n = Some c ->
  m0 !! n = Some c \/ (c ∈ l /\ cls_name c = n).
Proof.
  revert m0. induction l as [|x l IH]; intros m0; simpl.
  - auto.
  - intros Hl. apply IH in Hl as [Hl|[Hl Hn]].
    + destruct (decide (cls_name x = n)) as [<-|Hne].
      * rewrite lookup_insert_eq in Hl. injection Hl as <-.
        right. split; [left | reflexivity].
      * rewrite lookup_insert_ne in Hl by assumption. auto.
    + right. split; [right; assumption | assumption].
Qed.

Lemma build_clookup_lookup dexen n c :
  build_clookup dexen !! n = Some c ->
  c ∈ build_class_scope dexen /\ cls_name c = n.
Proof.
  unfold build_clookup, build_class_scope.
  assert (H : forall (m0 : gmap string DexClass),
             foldl (fun m dex =>
                      foldl (fun m clazz => <[cls_name clazz := clazz]> m) m dex)
               m0 dexen !! n = Some c ->
             m0 !! n = Some c \/ (c ∈ concat dexen /\ cls_name c = n)).
  { induction dexen as [|dex dexen IH]; intros m0; simpl; [auto|].
    intros Hl. apply IH in Hl as [Hl|[Hl Hn]].
    - apply index_classes_lookup in Hl as [Hl|[Hl Hn]]; [auto|].
      right. split; [apply elem_of_app; auto | assumption].
    - right. split; [apply elem_of_app; auto | assumption]. }
  intros Hl. apply H in Hl as [Hl|Hl]; [|assumption].
  rewrite lookup_empty in Hl. discriminate.
Qed.

(** ** What a call of [emit_class] settles for its class *)

Section Covers.

Variable cfg : InterDexConfig.

Variable Adm : DexClass -> Prop.

Variable k0 : nat.

Variable mixed0 : list DexClass.

Abbreviation I := (Inv cfg Adm k0 mixed0).

Lemma emit_class_covers c dconfig is_primary check_if_skip s s' :
  I s -> Adm c ->
  emit_class cfg c dconfig is_primary check_if_skip s = Ok tt s' ->
  c ∈ emitted (det s') \/ vetoed cfg mixed0 is_primary check_if_skip c.
Proof.
  intros HI Ha Hrun.
  destruct (emit_class_Inv cfg Adm k0 mixed0 c dconfig is_primary
              check_if_skip Ha s tt s' HI Hrun) as [_ HE].
  rewrite emit_class_eq in Hrun.
  destruct (passes_guards cfg c is_primary check_if_skip s) eqn:Hg.
  - left.
    destruct (overflows cfg (det s) c).
    + destruct is_primary; [discriminate|].
      destruct (flush_out_secondary cfg dconfig false s) as [[] s1|];
        [|discriminate].
      injection Hrun as <-. simpl. apply elem_of_set_insert. auto.
    + injection Hrun as <-. simpl. apply elem_of_set_insert. auto.
  - injection Hrun as <-. unfold passes_guards in Hg.
    apply andb_false_iff in Hg as [Hg|Hg];
      [apply andb_false_iff in Hg as [Hg|Hg]|].
    + apply negb_false_iff, orb_true_iff in Hg as [Hg|Hg].
      * left. apply bool_decide_eq_true in Hg. assumption.
      * right. left. assumption.
    + apply negb_false_iff, andb_true_iff in Hg as [Hk Hs].
      right. right. left. auto.
    + apply negb_false_iff in Hg.
      apply andb_true_iff in Hg as [Hg Hm]. apply andb_true_iff in Hg as [Hp Hk].
      apply negb_true_iff in Hp. apply bool_decide_eq_true in Hm.
      right. right. right. repeat split; try assumption.
      eapply inv_mixed; eassumption.
Qed.

Lemma for_each_emit_covers (l : list DexClass) dconfig is_primary check_if_skip :
  Forall Adm l ->
  forall s s',
    I s ->
    for_each l (fun c => emit_class cfg c dconfig is_primary check_if_skip) s
      = Ok tt s' ->
    I s' /\ Ext s s' /\
    forall c, c ∈ l ->
              c ∈ emitted (det s') \/ vetoed cfg mixed0 is_primary check_if_skip c.
Proof.
  induction l as [|x l IH]; intros Hl s s' HI Hrun; simpl in Hrun.
  - injection Hrun as <-. split; [assumption|]. split; [apply Ext_refl|].
    intros c Hc. apply elem_of_nil in Hc. contradiction.
  - apply bind_Ok in Hrun as ([] & s1 & H1 & H2).
    apply list.Forall_cons in Hl as [Hx Hl].
    destruct (emit_class_Inv cfg Adm k0 mixed0 x dconfig is_primary
                check_if_skip Hx s tt s1 HI H1) as [HI1 HE1].
    pose proof (emit_class_covers _ _ _ _ _ _ HI Hx H1) as Hc1.
    destruct (IH Hl s1 s' HI1 H2) as (HI' & HE' & Hcov).
    split; [assumption|]. split; [eapply Ext_trans; eassumption|].
    intros c Hc. apply elem_of_cons in Hc as [->|Hc]; [|auto].
    destruct Hc1 as [Hc1|Hc1]; [|auto].
    left. eapply ext_emitted; eassumption.
Qed.

End Covers.

(** ** The primary dex *)

Lemma emit_class_primary_outdex cfg c dconfig check_if_skip s s' :
  emit_class cfg c dconfig true check_if_skip s = Ok tt s' ->
  outdex s' = outdex s /\ m_secondary_dexes s' = m_secondary_dexes s.
Proof.
  rewrite emit_class_eq.
  destruct (passes_guards cfg c true check_if_skip s).
  - destruct (overflows cfg (det s) c); [discriminate|].
    intros [= <-]. split; reflexivity.
  - intros [= <-]. split; reflexivity.
Qed.

Lemma for_each_outdex {A} (l : list A) (body : A -> M unit) :
  (forall x s s', body x s = Ok tt s' -> outdex s' = outdex s) ->
  forall s s', for_each l body s = Ok tt s' -> outdex s' = outdex s.
Proof.
  intros Hb. induction l as [|x l IH]; intros s s' Hrun; simpl in Hrun.
  - injection Hrun as <-. reflexivity.
  - apply bind_Ok in Hrun as ([] & s1 & H1 & H2).
    rewrite (IH _ _ H2). eapply Hb. eassumption.
Qed.

Lemma set_insert_all_empty (l : list DexClass) c :
  c ∈ set_insert_all l ∅ <-> c ∈ l.
Proof.
  rewrite elem_of_set_insert_all. split; [|auto].
  intros [H|H]; [assumption|]. apply not_elem_of_empty in H. contradiction.
Qed.

Section Prologue.

Variable cfg : InterDexConfig.

Variable unreferenced : listset DexClass.

Lemma Inv_start (Adm : DexClass -> Prop) (d : dex_emit_tracker) s :
  outs d = [] -> emitted d = ∅ ->
  (forall n c, clookup d !! n = Some c -> cls_name c = n /\ Adm c) ->
  Inv cfg Adm 0 (mixed_mode_classes (m_mixed_mode_info s))
    (set_det d (set_outdex [] s)).
Proof.
  intros Ho He Hc. split; unfold flat; simpl; rewrite ?Ho, ?He; simpl.
  - constructor.
  - assumption.
  - lia.
  - intros _ i bin Hi. rewrite lookup_nil in Hi. discriminate.
  - auto.
  - intros c Hin. apply not_elem_of_empty in Hin. contradiction.
  - intros _ c Hin. apply elem_of_nil in Hin. contradiction.
  - intros _. apply NoDup_nil_2.
Qed.

Abbreviation P := (Inv cfg (fun c => c ∈ primary_dex_of cfg) 0).

Lemma primary_body_Inv mixed0 entry : respects (P mixed0) Ext ((primary_body cfg unreferenced) entry).
Proof.
  unfold primary_body.
  apply (respects_get_at (P mixed0) Ext). intros s0 HI [] s' Hrun.
  destruct (clookup (det s0) !! entry) as [clazz|] eqn:Hl.
  - destruct (bool_decide (clazz ∈ unreferenced)).
    + injection Hrun as <-. apply Inv_core; [repeat split | assumption].
    + eapply emit_class_Inv; [|eassumption|eassumption].
      apply (inv_clookup _ _ _ _ _ HI entry clazz Hl).
  - injection Hrun as <-. split; [assumption | apply Ext_refl].
Qed.

Lemma primary_body_outdex entry s s' :
  (primary_body cfg unreferenced) entry s = Ok tt s' -> outdex s' = outdex s.
Proof.
  unfold primary_body. unfold_monad.
  destruct (clookup (det s) !! entry) as [clazz|].
  - destruct (bool_decide (clazz ∈ unreferenced)).
    + intros [= <-]. reflexivity.
    + intros H. apply emit_class_primary_outdex in H as [H _]. exact H.
  - intros [= <-]. reflexivity.
Qed.

Lemma emit_primary_dex_Inv s0 s1 :
  outdex s0 = [] ->
  emit_primary_dex cfg (coldstart_class_names cfg) unreferenced (main_det_of cfg) s0
    = Ok tt s1 ->
  Inv cfg (fun _ => True) 1 (mixed_mode_classes (m_mixed_mode_info s0)) s1 /\
  exists pre,
    outdex s1 = [pre ++ plugin_additions (m_plugins cfg) [] pre] /\
    Forall (fun c => is_canary c = false /\ c ∈ primary_dex_of cfg) pre.
Proof.
  intros Hod Hrun. unfold emit_primary_dex in Hrun.
  apply bind_Ok in Hrun as ([] & sa & Ha & Hrun). injection Ha as <-.
  apply bind_Ok in Hrun as ([] & sb1 & Hl1 & Hrun).
  apply bind_Ok in Hrun as ([] & sb & Hl2 & Hrun).
  apply bind_Ok in Hrun as ([] & sc & Hfl & Hrun).
  injection Hrun as <-.
  set (mixed0 := mixed_mode_classes (m_mixed_mode_info s0)).
  assert (HIa : P mixed0 (set_det (primary_det_of cfg) s0)).
  { replace (set_det (primary_det_of cfg) s0)
      with (set_det (primary_det_of cfg) (set_outdex [] s0))
      by (destruct s0; simpl in *; subst; reflexivity).
    apply Inv_start; [reflexivity | reflexivity |].
    intros n c Hl. apply index_classes_lookup in Hl as [Hl|[Hl Hn]].
    - rewrite lookup_empty in Hl. discriminate.
    - auto. }
  destruct (respects_for_each (P mixed0) Ext Ext_refl Ext_trans
              (coldstart_class_names cfg) (primary_body cfg unreferenced)
              (fun x _ => primary_body_Inv mixed0 x) _ tt _ HIa Hl1)
    as [HIb1 HEb1].
  apply (for_each_outdex _ _ primary_body_outdex) in Hl1 as Ho1.
  assert (Hall : Forall (fun c => c ∈ primary_dex_of cfg) (primary_dex_of cfg))
    by (apply list.Forall_forall; auto).
  destruct (for_each_emit_covers cfg (fun c => c ∈ primary_dex_of cfg) 0%nat
              mixed0 (primary_dex_of cfg) s_empty_config true true
              Hall _ _ HIb1 Hl2)
    as (HIb & HEb & Hcov).
  apply (for_each_outdex _ _
           (fun x s s' H => proj1 (emit_class_primary_outdex cfg x _ _ s s' H)))
    in Hl2 as Ho2.
  assert (Hob : outdex sb = []) by (rewrite Ho2, Ho1; exact Hod).
  rewrite flush_out_dex_eq in Hfl. injection Hfl as <-.
  rewrite Hob. simpl.
  assert (Hflat : flat sb = outs (det sb)) by (unfold flat; rewrite Hob; reflexivity).
  split.
  - split; unfold flat; simpl; rewrite ?app_nil_r.
    + constructor.
    + intros n c Hl. split; [|trivial].
      apply build_clookup_lookup in Hl. apply Hl.
    + lia.
    + intros _ i bin Hi Hk. destruct i as [|i]; [lia|].
      rewrite lookup_cons, lookup_nil in Hi. discriminate.
    + intros c Hc. apply (ext_mixed _ _ HEb), (ext_mixed _ _ HEb1) in Hc.
      exact Hc.
    + intros c Hc Hnc Hns.
      apply elem_of_set_insert_all in Hc as [Hc|Hc];
        [|exfalso; revert Hc; apply not_elem_of_empty].
      apply elem_of_app. left. rewrite <- Hflat.
      destruct (Hcov c Hc) as [Hem|[Hv|[[_ Hv]|[Hv _]]]].
      * eapply inv_placed; eassumption.
      * congruence.
      * congruence.
      * discriminate.
    + intros Hex c Hc Hcnt. apply elem_of_set_insert_all. left.
      apply elem_of_app in Hc as [Hc|Hc].
      * pose proof (inv_pending _ _ _ _ _ HIb) as Hp.
        rewrite list.Forall_forall in Hp. apply Hp. assumption.
      * rewrite (plugin_additions_outside _ _ _ _ Hex Hc) in Hcnt. discriminate.
    + intros Hex. rewrite list.filter_app.
      rewrite (filter_none _ (plugin_additions _ _ _)), app_nil_r.
      * rewrite <- Hflat. eapply inv_nodup; eassumption.
      * intros x Hx Hcnt.
        rewrite (plugin_additions_outside _ _ _ _ Hex Hx) in Hcnt. discriminate.
  - exists (outs (det sb)). split; [reflexivity|].
    exact (inv_pending _ _ _ _ _ HIb).
Qed.

Lemma run_prologue_Inv s s1 :
  run_prologue cfg unreferenced s = Ok tt s1 ->
  Inv cfg (fun _ => True) (if m_normal_primary_dex cfg then 0 else 1)%nat
    (mixed_mode_classes (m_mixed_mode_info s)) s1 /\
  if m_normal_primary_dex cfg then outdex s1 = []
  else exists pre,
      outdex s1 = [pre ++ plugin_additions (m_plugins cfg) [] pre] /\
      Forall (fun c => is_canary c = false /\ c ∈ primary_dex_of cfg) pre.
Proof.
  unfold run_prologue. intros Hrun.
  apply bind_Ok in Hrun as ([] & s0 & H0 & Hrun). injection H0 as <-.
  destruct (m_normal_primary_dex cfg); simpl in Hrun.
  - injection Hrun as <-. split; [|reflexivity].
    apply Inv_start; [reflexivity | reflexivity |].
    intros n c Hl. apply build_clookup_lookup in Hl. split; [apply Hl | trivial].
  - apply emit_primary_dex_Inv in Hrun; [|reflexivity]. exact Hrun.
Qed.

End Prologue.

Lemma get_bind {A} (f : InterDexState -> M A) s : (get_state ≫= f) s = f s s.
Proof. reflexivity. Qed.

Lemma for_each_acc_app {A B} (l1 l2 : list A) (acc : B) (body : B -> A -> M B) s :
  for_each_acc (l1 ++ l2) acc body s =
    match for_each_acc l1 acc body s with
    | Ok acc' s' => for_each_acc l2 acc' body s'
    | Fatal msg s' => Fatal msg s'
    end.
Proof.
  revert acc s. induction l1 as [|x l1 IH]; intros acc s; simpl.
  - reflexivity.
  - unfold mbind, M_bind. destruct (body acc x s) as [acc' s'|]; [apply IH | reflexivity].
Qed.

(** ** The end of a run *)

Section Epilogue.

Variable cfg : InterDexConfig.

Variable unreferenced : listset DexClass.

Variable k0 : nat.

Variable mixed0 : list DexClass.

Abbreviation J := (Inv cfg (fun _ => True) k0 mixed0).

Lemma final_flush_Inv s s' :
  J s ->
  (if bool_decide (outs (det s) = []) then mret tt
   else flush_out_secondary cfg s_empty_config false) s = Ok tt s' ->
  J s' /\ Ext s s' /\ outs (det s') = [].
Proof.
  intros HI. case_bool_decide as He.
  - intros [= <-]. split; [assumption|]. split; [apply Ext_refl | assumption].
  - intros Hf. destruct (Inv_flush cfg _ k0 mixed0 _ _ s tt s' HI Hf) as [HI' HE].
    split; [assumption|]. split; [assumption|].
    apply (flush_out_secondary_Ok _ _ _ _ _ He Hf).
Qed.

Lemma run_epilogue_covers loc s out s' :
  J s -> run_epilogue cfg unreferenced loc s = Ok out s' ->
  J s' /\ Ext s s' /\ out = outdex s' /\ outs (det s') = [] /\
  forall c, c ∈ build_class_scope (m_dexen cfg) ->
            c ∈ emitted (det s') \/ vetoed cfg mixed0 false true c.
Proof.
  intros HI Hrun. unfold run_epilogue in Hrun. rewrite get_bind in Hrun.
  apply bind_Ok in Hrun as ([] & s1 & H1 & Hrun).
  apply bind_Ok in Hrun as ([] & s2 & H2 & Hrun).
  apply bind_Ok in Hrun as ([] & s3 & H3 & Hrun).
  apply bind_Ok in Hrun as ([] & s4 & H4 & Hrun).
  apply bind_Ok in Hrun as ([] & s5 & H5 & Hrun).
  rewrite get_bind in Hrun.
  apply bind_Ok in Hrun as ([] & s6 & H6 & Hrun).
  rewrite get_bind in Hrun. injection Hrun as <- <-.
  assert (HI1 : J s1 /\ Ext s s1).
  { revert H1. destruct (_ && _).
    - apply emit_mixed_mode_classes_Inv. assumption.
    - intros [= <-]. split; [assumption | apply Ext_refl]. }
  destruct HI1 as [HI1 HE1].
  assert (HI2 : J s2 /\ Ext s1 s2).
  { revert H2. apply (respects_for_each J Ext Ext_refl Ext_trans); [|assumption].
    intros entry _. apply (respects_get J Ext). intros s0.
    destruct (clookup (det s0) !! entry) as [clazz|].
    - destruct (bool_decide (clazz ∈ unreferenced)).
      + apply emit_class_Inv. trivial.
      + apply (respects_ret J Ext Ext_refl).
    - apply (respects_ret J Ext Ext_refl). }
  destruct HI2 as [HI2 HE2].
  assert (HI3 : J s3 /\ Ext s2 s3).
  { revert H3. destruct (negb _).
    - intros [= <-]. apply (Inv_core cfg (fun _ => True) k0 mixed0 s2);
        [repeat split | exact HI2].
    - intros [= <-]. split; [exact HI2 | apply Ext_refl]. }
  destruct HI3 as [HI3 HE3].
  destruct (for_each_emit_covers cfg (fun _ => True) k0 mixed0
              (build_class_scope (m_dexen cfg)) s_empty_config false true
              ltac:(apply list.Forall_forall; trivial) s3 s4 HI3 H4)
    as (HI4 & HE4 & Hcov).
  assert (HI5 : J s5 /\ Ext s4 s5).
  { revert H5. apply (respects_for_each J Ext Ext_refl Ext_trans); [|assumption].
    intros plugin _.
    apply (respects_for_each J Ext Ext_refl Ext_trans).
    intros add_class _. apply emit_class_Inv. trivial. }
  destruct HI5 as [HI5 HE5].
  destruct (final_flush_Inv _ _ HI5 H6) as (HI6 & HE6 & Ho6).
  split; [assumption|]. split.
  { repeat (eapply Ext_trans; [eassumption|]).
    first [assumption | apply Ext_refl]. }
  split; [reflexivity|]. split; [assumption|].
  intros c Hc. destruct (Hcov c Hc) as [Hem|Hv]; [|auto].
  left. apply (ext_emitted _ _ HE6), (ext_emitted _ _ HE5). assumption.
Qed.

End Epilogue.

(** ** A whole run *)

Section Run.

Variable cfg : InterDexConfig.

Variable unreferenced : listset DexClass.

Variable s : InterDexState.

Abbreviation K :=
  (Inv cfg (fun _ => True) (first_secondary cfg)
     (mixed_mode_classes (m_mixed_mode_info s))).

Lemma walk_state_Inv n loc sn :
  walk_state cfg unreferenced s n = Ok loc sn ->
  K sn /\
  exists s1, run_prologue cfg unreferenced s = Ok tt s1 /\ K s1 /\ Ext s1 sn /\
             priority_walk cfg unreferenced n s1 = Ok loc sn.
Proof.
  unfold walk_state. intros Hrun.
  apply bind_Ok in Hrun as ([] & s1 & H1 & H2).
  destruct (run_prologue_Inv _ _ _ _ H1) as [HI1 _].
  destruct (priority_walk_Inv cfg _ _ unreferenced n s1 loc sn HI1 H2) as [HI2 HE2].
  split; [assumption|]. exists s1. auto.
Qed.

Lemma walk_state_le n m locm sm :
  (n <= m)%nat ->
  walk_state cfg unreferenced s m = Ok locm sm ->
  exists locn sn, walk_state cfg unreferenced s n = Ok locn sn /\ Ext sn sm.
Proof.
  intros Hle Hm.
  destruct (walk_state_Inv _ _ _ Hm) as (_ & s1 & H1 & HI1 & _ & Hw).
  unfold priority_walk in Hw. rewrite get_bind in Hw.
  set (pos := positions (walk_order cfg)) in *.
  assert (Hsplit : take m pos = take n pos ++ drop n (take m pos)).
  { rewrite <- (take_drop n (take m pos)) at 1.
    rewrite take_take. f_equal. f_equal. lia. }
  rewrite Hsplit, for_each_acc_app in Hw.
  destruct (for_each_acc (take n pos) _ _ s1) as [locn sn|] eqn:Hn; [|discriminate].
  exists locn, sn. split.
  - unfold walk_state. rewrite (bind_Ok_intro _ _ _ _ _ H1).
    unfold priority_walk. rewrite get_bind. exact Hn.
  - assert (HIn : K sn).
    { eapply (respects_for_each_acc K Ext Ext_refl Ext_trans); [|exact HI1|exact Hn].
      intros b x _. apply walk_entry_Inv. }
    eapply (respects_for_each_acc K Ext Ext_refl Ext_trans); [|exact HIn|exact Hw].
    intros b x _. apply walk_entry_Inv.
Qed.

Lemma run_with_Inv out sf :
  run_with cfg unreferenced s = Ok out sf ->
  exists loc s2,
    walk_state cfg unreferenced s (length (walk_order cfg)) = Ok loc s2 /\
    K sf /\ Ext s2 sf /\ out = outdex sf /\ outs (det sf) = [] /\
    forall c, c ∈ build_class_scope (m_dexen cfg) ->
              c ∈ emitted (det sf) \/
              vetoed cfg (mixed_mode_classes (m_mixed_mode_info s)) false true c.
Proof.
  unfold run_with. intros Hrun.
  apply bind_Ok in Hrun as ([] & s1 & H1 & Hrun).
  apply bind_Ok in Hrun as (loc & s2 & H2 & H3).
  assert (Hw : walk_state cfg unreferenced s (length (walk_order cfg)) = Ok loc s2).
  { unfold walk_state. rewrite (bind_Ok_intro _ _ _ _ _ H1). exact H2. }
  destruct (walk_state_Inv _ _ _ Hw) as (HI2 & _).
  destruct (run_epilogue_covers cfg unreferenced _ _ loc s2 out sf HI2 H3)
    as (HIf & HEf & Ho & Hp & Hcov).
  exists loc, s2. auto 10.
Qed.

End Run.

(** ** Lists of bins *)

Lemma elem_of_concat_lookup {A} (L : list (list A)) (c : A) :
  c ∈ concat L <-> exists i b, L !! i = Some b /\ c ∈ b.
Proof.
  induction L as [|b L IH]; simpl.
  - split; [intros H; apply elem_of_nil in H; contradiction|].
    intros (i & b & Hl & _). rewrite lookup_nil in Hl. discriminate.
  - rewrite elem_of_app, IH. split.
    + intros [H|(i & b' & Hl & Hc)].
      * exists 0%nat, b. auto.
      * exists (S i), b'. auto.
    + intros ([|i] & b' & Hl & Hc); simpl in Hl.
      * injection Hl as <-. auto.
      * right. eauto.
Qed.

Lemma concat_take_lookup {A} (L : list (list A)) q (b : list A) :
  L !! q = Some b ->
  concat L = concat (take q L) ++ b ++ concat (drop (S q) L).
Proof.
  intros Hl. rewrite <- (take_drop_middle L q b Hl) at 1.
  rewrite concat_app. reflexivity.
Qed.

Lemma app_eq_prefix {A} (P Q X Y : list A) (b : A) :
  P ++ Q = X ++ b :: Y -> b ∉ P -> exists Z, X = P ++ Z.
Proof.
  revert X. induction P as [|a P IH]; intros X Heq Hb; simpl in *.
  - exists X. reflexivity.
  - destruct X as [|x X]; simpl in Heq.
    + injection Heq as -> _. exfalso. apply Hb. left.
    + injection Heq as -> Heq.
      destruct (IH X Heq) as [Z ->]; [intros H; apply Hb; right; exact H|].
      exists Z. reflexivity.
Qed.

Lemma NoDup_filter_concat_unique {A} (P : A -> Prop) `{forall x, Decision (P x)}
  (L : list (list A)) (c : A) i j bi bj :
  NoDup (filter P (concat L)) -> P c ->
  L !! i = Some bi -> L !! j = Some bj -> c ∈ bi -> c ∈ bj -> i = j.
Proof.
  revert i j. induction L as [|b L IH]; intros i j Hnd Hc Hi Hj Hbi Hbj.
  - rewrite lookup_nil in Hi. discriminate.
  - simpl in Hnd. rewrite list.filter_app in Hnd.
    apply list.NoDup_app in Hnd as (Hn1 & Hdis & Hn2).
    assert (Hout : forall k bk, L !! k = Some bk -> c ∈ bk -> c ∈ b -> False).
    { intros k bk Hk Hck Hcb. apply (Hdis c).
      - apply list_elem_of_filter. auto.
      - apply list_elem_of_filter. split; [assumption|].
        apply elem_of_concat_lookup. eauto. }
    destruct i as [|i], j as [|j]; simpl in Hi, Hj.
    + reflexivity.
    + injection Hi as <-. exfalso. eauto.
    + injection Hj as <-. exfalso. eauto.
    + f_equal. eauto.
Qed.

Lemma NoDup_filter_concat_bin {A} (P : A -> Prop) `{forall x, Decision (P x)}
  (L : list (list A)) i b :
  NoDup (filter P (concat L)) -> L !! i = Some b -> NoDup (filter P b).
Proof.
  intros Hnd Hl. rewrite (concat_take_lookup L i b Hl) in Hnd.
  rewrite !list.filter_app in Hnd.
  apply list.NoDup_app in Hnd as (_ & _ & Hnd).
  apply list.NoDup_app in Hnd as (Hnd & _). exact Hnd.
Qed.

Lemma NoDup_filter_once {A} (P : A -> Prop) `{forall x, Decision (P x)}
  (b : list A) (c : A) :
  NoDup (filter P b) -> P c -> c ∈ b ->
  exists l1 l2, b = (l1 ++ c :: l2) /\ (c ∉ l1) /\ (c ∉ l2).
Proof.
  intros Hnd Hc Hin. apply list_elem_of_split in Hin as (l1 & l2 & ->).
  exists l1, l2. split; [reflexivity|].
  rewrite list.filter_app, list.filter_cons_True in Hnd by assumption.
  apply list.NoDup_app in Hnd as (_ & Hdis & Hn2).
  apply list.NoDup_cons in Hn2 as [Hn2 _]. split.
  - intros H1. apply (Hdis c).
    + apply list_elem_of_filter. auto.
    + left.
  - intros H2. apply Hn2. apply list_elem_of_filter. auto.
Qed.

(** ** From [run] to [run_with] *)

Lemma run_Some fuel cfg s out sf :
  run fuel cfg s = Some (Ok out sf) ->
  exists unreferenced,
    find_unrefenced_coldstart_classes fuel cfg (build_class_scope (m_dexen cfg))
      (main_det_of cfg) (coldstart_class_names cfg) (m_static_prune_classes cfg)
      = Some unreferenced /\
    run_with cfg unreferenced s = Ok out sf.
Proof.
  unfold run, main_det_of.
  destruct (find_unrefenced_coldstart_classes _ _ _ _ _ _) as [u|]; [|discriminate].
  intros [= H]. eauto.
Qed.

(** A run reaches the end of the priority walk in a state that extends the
    one the prologue left, and ends in a state that extends both. *)
Lemma run_with_stages cfg unreferenced s out sf :
  run_with cfg unreferenced s = Ok out sf ->
  exists s1,
    run_prologue cfg unreferenced s = Ok tt s1 /\
    Ext s1 sf /\ out = outdex sf /\ outs (det sf) = [] /\
    Inv cfg (fun _ => True) (first_secondary cfg)
      (mixed_mode_classes (m_mixed_mode_info s)) sf.
Proof.
  intros Hrun.
  destruct (run_with_Inv _ _ _ _ _ Hrun) as (loc & s2 & Hw & HI & HE & Ho & Hp & _).
  destruct (walk_state_Inv _ _ _ _ _ _ Hw) as (_ & s1 & H1 & _ & HE1 & _).
  exists s1. split; [assumption|]. split; [eapply Ext_trans; eassumption|]. auto.
Qed.

(** C2, as amended. With canary emission enabled, every bin sealed by
    [flush_out_secondary] (every bin after the first, and the first too when
    the primary dex is treated as a normal dex) holds the classes
    [emit_class] admitted, none of them a canary, then one class whose
    descriptor is Lsecondary/dexNN/Canary; with NN the index of the bin, then
    the classes the plugins added at the flush: the canary closes the
    packer's own classes, it does not open the bin. The primary bin sealed
    by [flush_out_dex] holds no canary among the classes [emit_class]
    admitted. *)
Theorem canary_placement cfg fuel s out sf :
  m_emit_canaries cfg = true ->
  run fuel cfg s = Some (Ok out sf) ->
  forall i bin,
    out !! i = Some bin ->
    if m_normal_primary_dex cfg || negb (Nat.eqb i 0)
    then canary_shape cfg (take i out) i bin
    else exists pre,
        bin = pre ++ plugin_additions (m_plugins cfg) [] pre /\
        Forall (fun c => is_canary c = false) pre.
Proof.
  intros Hcan Hrun i bin Hi.
  apply run_Some in Hrun as (unref & _ & Hrun).
  destruct (run_with_stages _ _ _ _ _ Hrun) as (s1 & H1 & HE & -> & _ & HI).
  pose proof (run_prologue_Inv _ _ _ _ H1) as [_ Hpro].
  unfold first_secondary in HI.
  destruct (m_normal_primary_dex cfg); simpl.
  - apply (inv_canary _ _ _ _ _ HI Hcan i bin Hi). lia.
  - destruct i as [|i]; simpl.
    + destruct Hpro as (pre & Ho1 & Hpre).
      exists pre. split.
      * pose proof (ext_outdex _ _ HE) as Hpf. rewrite Ho1 in Hpf.
        eapply (prefix_lookup_Some _ _ 0%nat) in Hpf; [|reflexivity].
        rewrite Hi in Hpf. injection Hpf as ->. reflexivity.
      * eapply Forall_impl; [|exact Hpre]. intros x [Hx _]. exact Hx.
    + apply (inv_canary _ _ _ _ _ HI Hcan (S i) bin Hi). lia.
Qed.

(** ** The priority walk *)

Lemma Ext_flat_elem s s' c : Ext s s' -> c ∈ flat s -> c ∈ flat s'.
Proof.
  intros [[added Hf] _ _ _ _] Hc. rewrite Hf. apply elem_of_app. auto.
Qed.

(** ** Passes of the pruner that alternate *)

Lemma prune_loop_step fuel cfg scope cs old loc :
  old <> new_no_ref loc ->
  prune_loop (S fuel) cfg scope cs old loc =
    prune_loop fuel cfg scope cs (new_no_ref loc)
      (prune_pass cfg scope cs (output_scope loc) (unreferenced_classes loc)).
Proof.
  intros Hne. simpl. rewrite bool_decide_eq_true_2 by assumption. reflexivity.
Qed.

Lemma prune_loop_alternates cfg scope cs (la lb : prune_locals) :
  new_no_ref la <> new_no_ref lb ->
  prune_pass cfg scope cs (output_scope la) (unreferenced_classes la) = lb ->
  prune_pass cfg scope cs (output_scope lb) (unreferenced_classes lb) = la ->
  forall fuel,
    prune_loop fuel cfg scope cs (new_no_ref lb) la = None /\
    prune_loop fuel cfg scope cs (new_no_ref la) lb = None.
Proof.
  intros Hne Hab Hba. induction fuel as [|fuel [IH1 IH2]].
  - simpl. rewrite !bool_decide_eq_true_2 by congruence. auto.
  - rewrite !prune_loop_step by congruence. rewrite Hab, Hba. auto.
Qed.

Lemma newest_first_valid : valid_set_order newest_first.
Proof.
  intros X. split; [apply NoDup_elements|].
  intros c. apply elem_of_elements.
Qed.

Lemma oldest_first_valid : valid_set_order oldest_first.
Proof.
  intros X. unfold oldest_first. split.
  - rewrite reverse_Permutation. apply NoDup_elements.
  - intros c. rewrite elem_of_reverse. apply elem_of_elements.
Qed.

Lemma cycle_pass_odd :
  prune_pass cycle_cfg cycle_scope cycle_coldstart
    (output_scope cycle_odd) (unreferenced_classes cycle_odd) = cycle_even.
Proof. vm_compute. reflexivity. Qed.

Lemma cycle_pass_even :
  prune_pass cycle_cfg cycle_scope cycle_coldstart
    (output_scope cycle_even) (unreferenced_classes cycle_even) = cycle_odd.
Proof. vm_compute. reflexivity. Qed.

(** C5, at a failing input. With the switch off the pruner returns the empty
    set at once. With the switch on it need not return: for the six classes
    above, listed in the priority list as L4, L3, L1, L5, L0, L2, and a set
    that yields its elements most recently inserted first, the passes of the
    pruner count 2, 1, 2, 1, ... unreferenced classes. From one pass to the
    next the count goes down from 2 to 1 and the scope kept for the next
    pass grows from four to five classes, so the loop never reaches its
    exit, whatever the number of passes allowed, and [run] never gets past
    the pruner. *)
Theorem pruner_loop_diverges :
  (forall fuel cfg scope d interdexorder,
      find_unrefenced_coldstart_classes fuel cfg scope d interdexorder false
        = Some ∅) /\
  valid_set_order (set_order cycle_cfg) /\
  (prune_pass cycle_cfg cycle_scope cycle_coldstart
     (output_scope cycle_odd) (unreferenced_classes cycle_odd) = cycle_even /\
   new_no_ref cycle_even < new_no_ref cycle_odd /\
   (length (output_scope cycle_odd) < length (output_scope cycle_even))%nat) /\
  (forall fuel,
      find_unrefenced_coldstart_classes fuel cycle_cfg cycle_scope
        (main_det_of cycle_cfg) cycle_order true = None) /\
  (forall fuel s, run fuel cycle_cfg s = None).
Proof.
  assert (H1 : prune_pass cycle_cfg cycle_scope cycle_coldstart cycle_scope ∅
               = mk_prune 2 (Listset [cy3; cy0]) [cy2; cy5; cy1; cy4])
    by (vm_compute; reflexivity).
  assert (H2 : prune_pass cycle_cfg cycle_scope cycle_coldstart
                 [cy2; cy5; cy1; cy4] (Listset [cy3; cy0]) = cycle_even)
    by (vm_compute; reflexivity).
  assert (H3 : prune_pass cycle_cfg cycle_scope cycle_coldstart
                 (output_scope cycle_even) (unreferenced_classes cycle_even)
               = cycle_odd)
    by (vm_compute; reflexivity).
  assert (H4 : prune_pass cycle_cfg cycle_scope cycle_coldstart
                 (output_scope cycle_odd) (unreferenced_classes cycle_odd)
               = cycle_even)
    by (vm_compute; reflexivity).
  assert (Hne : new_no_ref cycle_even <> new_no_ref cycle_odd) by (simpl; lia).
  pose proof (prune_loop_alternates _ _ _ _ _ Hne H3 H4) as Hcycle.
  assert (Hloop : forall fuel,
             find_unrefenced_coldstart_classes fuel cycle_cfg cycle_scope
               (main_det_of cycle_cfg) cycle_order true = None);
    [|split; [reflexivity|]; split; [exact newest_first_valid|];
      split; [split; [exact H4 | split; [simpl; lia | simpl; lia]]|];
      split; [exact Hloop|];
      intros fuel s; unfold run;
      change (find_unrefenced_coldstart_classes fuel cycle_cfg
                (build_class_scope (m_dexen cycle_cfg))
                (mk_det 0 ∅ ∅ [] ∅ (build_clookup (m_dexen cycle_cfg)))
                (coldstart_class_names cycle_cfg)
                (m_static_prune_classes cycle_cfg))
        with (find_unrefenced_coldstart_classes fuel cycle_cfg cycle_scope
                (main_det_of cycle_cfg) cycle_order true);
      rewrite Hloop; reflexivity].
  intros fuel. unfold find_unrefenced_coldstart_classes. simpl negb. cbv iota.
  change (collect_coldstart (clookup (main_det_of cycle_cfg)) cycle_order)
    with cycle_coldstart.
  destruct fuel as [|[|fuel]]; [reflexivity | reflexivity |].
  rewrite prune_loop_step by (simpl; lia).
  change (output_scope (mk_prune 0 ∅ cycle_scope)) with cycle_scope.
  change (unreferenced_classes (mk_prune 0 ∅ cycle_scope))
    with (∅ : listset DexClass).
  rewrite H1.
  change (new_no_ref (mk_prune 0 ∅ cycle_scope)) with 0.
  rewrite prune_loop_step by (simpl; lia).
  change (output_scope (mk_prune 2 (Listset [cy3; cy0]) [cy2; cy5; cy1; cy4]))
    with [cy2; cy5; cy1; cy4].
  change (unreferenced_classes (mk_prune 2 (Listset [cy3; cy0]) [cy2; cy5; cy1; cy4]))
    with (Listset [cy3; cy0]).
  rewrite H2.
  change (new_no_ref (mk_prune 2 (Listset [cy3; cy0]) [cy2; cy5; cy1; cy4]))
    with (new_no_ref cycle_odd).
  apply Hcycle.
Qed.

(** ** Concrete inputs and runs *)

Lemma two_dex_run :
  run 0 two_dex_cfg (fresh_state no_mixed_mode) = Some (Ok two_dex_out two_dex_final).
Proof. vm_compute. reflexivity. Qed.

Lemma no_plugins_extras_outside cfg : m_plugins cfg = [] -> extras_outside cfg.
Proof.
  intros Hn plugin sofar pending c Hp. rewrite Hn in Hp.
  apply elem_of_nil in Hp. contradiction.
Qed.

(** C1, counterexample. A class that is already emitted satisfies the
    capacity predicate and is not admitted; a class that exceeds the
    linear-alloc limit is admitted into an empty bin, no bin being started. *)
Lemma emit_class_admission_counterexample :
  (spec_admits roomy_cfg (det seen_state) ex_A /\
   ~ admitted_in_place roomy_cfg ex_A s_empty_config false true seen_state) /\
  (admitted_in_place tight_cfg ex_A s_empty_config false true
     (fresh_state no_mixed_mode) /\
   ~ spec_admits tight_cfg (det (fresh_state no_mixed_mode)) ex_A).
Proof.
  split; split.
  - unfold spec_admits. vm_compute. repeat split; discriminate.
  - intros (s' & Hrun & _ & Houts).
    vm_compute in Hrun. injection Hrun as <-. vm_compute in Houts. discriminate.
  - eexists. split; [vm_compute; reflexivity|]. split; reflexivity.
  - intros (Hla & _). vm_compute in Hla. apply Hla. reflexivity.
Qed.

Lemma emit_class_admission_witness :
  passes_guards roomy_cfg ex_B false true seen_state = true /\
  outs (det seen_state) <> [] /\
  0 <= la_size (det seen_state) /\
  la_size (det seen_state) + estimate_linear_alloc ex_B < 2 ^ 32 /\
  (admitted_in_place roomy_cfg ex_B s_empty_config false true seen_state <->
   spec_admits roomy_cfg (det seen_state) ex_B).
Proof.
  assert (H1 : passes_guards roomy_cfg ex_B false true seen_state = true)
    by (vm_compute; reflexivity).
  assert (H2 : outs (det seen_state) <> []) by (simpl; discriminate).
  assert (H3 : 0 <= la_size (det seen_state)) by (simpl; lia).
  assert (H4 : la_size (det seen_state) + estimate_linear_alloc ex_B < 2 ^ 32)
    by (vm_compute; reflexivity).
  repeat (split; [assumption|]).
  exact (proj1 (emit_class_admission roomy_cfg ex_B s_empty_config false true
                  seen_state H1 H2 H3 H4)).
Defined.

Lemma emit_class_primary_overflow_fatal_witness :
  passes_guards tight_cfg ex_A true true (fresh_state no_mixed_mode) = true /\
  overflows tight_cfg (det (fresh_state no_mixed_mode)) ex_A = true /\
  exists msg,
    emit_class tight_cfg ex_A s_empty_config true true (fresh_state no_mixed_mode)
      = Fatal msg (fresh_state no_mixed_mode).
Proof.
  assert (H1 : passes_guards tight_cfg ex_A true true (fresh_state no_mixed_mode)
               = true) by (vm_compute; reflexivity).
  assert (H2 : overflows tight_cfg (det (fresh_state no_mixed_mode)) ex_A = true)
    by (vm_compute; reflexivity).
  split; [assumption|]. split; [assumption|].
  exact (proj2 (emit_class_primary_overflow_fatal tight_cfg ex_A s_empty_config
                  true (fresh_state no_mixed_mode)) H1 H2).
Defined.

(** C2, counterexample. With canaries enabled, the secondary bin of this
    run starts with the input class [ex_B]; its canary comes last. *)
Lemma canary_placement_counterexample :
  output_of (run 0 two_dex_cfg (fresh_state no_mixed_mode))
    = Some [[ex_A]; [ex_B; create_canary (canary_name 1)]] /\
  is_canary ex_B = false.
Proof. vm_compute. split; reflexivity. Qed.

Lemma canary_placement_witness :
  m_emit_canaries two_dex_cfg = true /\
  run 0 two_dex_cfg (fresh_state no_mixed_mode) = Some (Ok two_dex_out two_dex_final) /\
  two_dex_out !! 1%nat = Some [ex_B; create_canary "Lsecondary/dex01/Canary;"] /\
  canary_shape two_dex_cfg (take 1 two_dex_out) 1
    [ex_B; create_canary "Lsecondary/dex01/Canary;"].
Proof.
  assert (H1 : m_emit_canaries two_dex_cfg = true) by reflexivity.
  assert (H3 : two_dex_out !! 1%nat
               = Some [ex_B; create_canary "Lsecondary/dex01/Canary;"])
    by reflexivity.
  split; [assumption|]. split; [exact two_dex_run|]. split; [assumption|].
  exact (canary_placement two_dex_cfg 0 (fresh_state no_mixed_mode) two_dex_out
           two_dex_final H1 two_dex_run 1%nat _ H3).
Defined.

Lemma estimate_linear_alloc_cost_model_witness :
  spec_linear_alloc ex_view_group < 2 ^ 32 /\
  estimate_linear_alloc ex_view_group = spec_linear_alloc ex_view_group /\
  spec_linear_alloc ex_view_group = 1980.
Proof.
  assert (H : spec_linear_alloc ex_view_group < 2 ^ 32) by (vm_compute; reflexivity).
  split; [assumption|]. split.
  - exact (proj1 (proj2 (estimate_linear_alloc_cost_model ex_view_group)) H).
  - vm_compute. reflexivity.
Defined.

Lemma empty_primary_run :
  run 0 empty_primary_cfg (fresh_state no_mixed_mode)
    = Some (Ok [[]; [ex_A]] empty_primary_final).
Proof. vm_compute. reflexivity. Qed.

(** C9, at a failing input. The same dex, priority list, plugins and flags
    are packed into different bins by two runs that differ only in the
    order in which the set of cold-start classes yields its elements: the
    pruner finds [LW;] unreferenced under one order and referenced under the
    other. *)
Theorem run_depends_on_set_order :
  valid_set_order newest_first /\ valid_set_order oldest_first /\
  output_of (run 5 (order_cfg newest_first) (fresh_state no_mixed_mode))
    = Some [[dn; dy; dw; dv]] /\
  output_of (run 5 (order_cfg oldest_first) (fresh_state no_mixed_mode))
    = Some [[dw; dn; dy; dv]].
Proof.
  split; [apply newest_first_valid|]. split; [apply oldest_first_valid|].
  split; vm_compute; reflexivity.
Qed.

(** * Further properties *)

(** ** Reference counting at admission *)

(** X1. [set_difference a b] holds the elements of [a] that are not in [b],
    and the count [emit_class] compares with a cap, the size of the bin's
    ref set plus the size of the difference, is the size the ref set has
    once the class is added to the bin. *)
Theorem overflow_count_is_size_after_admission cfg d c :
  (forall x, x ∈ set_difference (gather_refs (m_plugins cfg) c).1 (mrefs d) <->
             x ∈ (gather_refs (m_plugins cfg) c).1 /\ x ∉ mrefs d) /\
  size (mrefs (add_to_bin c (m_plugins cfg) d)) =
    (size (mrefs d) +
     size (set_difference (gather_refs (m_plugins cfg) c).1 (mrefs d)))%nat /\
  size (frefs (add_to_bin c (m_plugins cfg) d)) =
    (size (frefs d) +
     size (set_difference (gather_refs (m_plugins cfg) c).2 (frefs d)))%nat.
Proof.
  split; [|split].
  - intros x. unfold set_difference. rewrite elem_of_filter. tauto.
  - unfold add_to_bin. simpl. rewrite set_difference_eq.
    apply size_union_difference.
  - unfold add_to_bin. simpl. rewrite set_difference_eq.
    apply size_union_difference.
Qed.

(** ** Canary descriptors *)

Lemma append_inj_r (p x y : string) : (p ++ x = p ++ y)%string -> x = y.
Proof.
  induction p as [|a p IH]; simpl; [auto|]. intros [= H]. auto.
Qed.

Lemma append_inj_l (x y t : string) :
  String.length x = String.length y -> (x ++ t = y ++ t)%string -> x = y.
Proof.
  revert y. induction x as [|a x IH]; intros [|b y]; simpl; try discriminate.
  - reflexivity.
  - intros [= Hl] [= -> H]. f_equal. auto.
Qed.

Lemma uint_of_string_format (n : nat) :
  option_map Nat.of_uint (NilEmpty.uint_of_string (format_02d n)) = Some n.
Proof.
  unfold format_02d.
  destruct (String.length (NilEmpty.string_of_uint (Nat.to_uint n)) <? 2)%nat.
  - change (("0" ++ NilEmpty.string_of_uint (Nat.to_uint n))%string)
      with (String "0" (NilEmpty.string_of_uint (Nat.to_uint n))).
    simpl. rewrite NilEmpty.usu. simpl.
    change (Nat.of_uint (Decimal.D0 (Nat.to_uint n)))
      with (Nat.of_uint (Nat.to_uint n)).
    rewrite DecimalNat.Unsigned.of_to. reflexivity.
  - rewrite NilEmpty.usu. simpl. rewrite DecimalNat.Unsigned.of_to. reflexivity.
Qed.

Lemma format_02d_inj n m : format_02d n = format_02d m -> n = m.
Proof.
  intros H. pose proof (uint_of_string_format n) as Hn.
  rewrite H, uint_of_string_format in Hn. congruence.
Qed.

Lemma format_02d_length n : (n <= 99)%nat -> String.length (format_02d n) = 2%nat.
Proof.
  intros Hn.
  assert (H : forallb (fun k => Nat.eqb (String.length (format_02d k)) 2)
                (seq 0 100) = true) by (vm_compute; reflexivity).
  rewrite forallb_forall in H. apply Nat.eqb_eq, H, in_seq. lia.
Qed.

(** X2. Canary descriptors name their dex: two dex numbers with the same
    descriptor are equal, every class carrying a generated descriptor is
    recognised by [is_canary], and up to [kMaxDexNum] the descriptor has 24
    characters, so that the buffer of [kCanaryClassBufsize] bytes holds it
    whole. *)
Theorem canary_name_names_its_dex :
  (forall n m, canary_name n = canary_name m -> n = m) /\
  (forall n c, cls_name c = canary_name n -> is_canary c = true) /\
  (forall n, is_canary (create_canary (canary_name n)) = true) /\
  (forall n, (Z.of_nat n <= kMaxDexNum) ->
             String.length (canary_name n) = 24%nat).
Proof.
  split; [|split; [|split]].
  - intros n m H. unfold canary_name in H.
    apply append_inj_r in H.
    destruct (decide (String.length (format_02d n) = String.length (format_02d m)))
      as [Hl|Hl].
    + apply append_inj_l in H; [|exact Hl]. apply format_02d_inj, H.
    + exfalso. apply Hl.
      apply (f_equal String.length) in H.
      rewrite !length_append in H. lia.
  - intros n c. apply is_canary_named.
  - intros n. apply (is_canary_named _ n). reflexivity.
  - intros n Hn. unfold canary_name, kCanaryPrefix.
    rewrite !length_append, format_02d_length by (unfold kMaxDexNum in Hn; lia).
    reflexivity.
Qed.

Lemma canary_name_names_its_dex_witness :
  Z.of_nat 7 <= kMaxDexNum /\ String.length (canary_name 7) = 24%nat.
Proof.
  assert (H : Z.of_nat 7 <= kMaxDexNum) by (unfold kMaxDexNum; lia).
  split; [exact H|].
  exact (proj2 (proj2 (proj2 canary_name_names_its_dex)) 7%nat H).
Defined.

(** ** Repeated calls *)

Lemma passes_guards_emitted cfg c is_primary check_if_skip s :
  c ∈ emitted (det s) -> passes_guards cfg c is_primary check_if_skip s = false.
Proof.
  intros Hc. unfold passes_guards.
  rewrite bool_decide_eq_true_2 by exact Hc. reflexivity.
Qed.

Lemma admit_in_emitted cfg c s : c ∈ emitted (det (admit_in cfg c s)).
Proof. unfold admit_in, add_to_bin. simpl. apply elem_of_set_insert. auto. Qed.

(** X3. [emit_class] filters duplicates: on a class that is in the emitted
    set it returns at once, leaving the state as it is, whatever its other
    arguments; and a call repeated with the same arguments does what the
    single call does, also when that call seals a bin or aborts. *)
Theorem emit_class_twice cfg c dconfig is_primary check_if_skip s :
  (c ∈ emitted (det s) ->
   emit_class cfg c dconfig is_primary check_if_skip s = Ok tt s) /\
  (emit_class cfg c dconfig is_primary check_if_skip;;
   emit_class cfg c dconfig is_primary check_if_skip) s
  = emit_class cfg c dconfig is_primary check_if_skip s.
Proof.
  split.
  - intros Hc. rewrite emit_class_eq, passes_guards_emitted by exact Hc.
    reflexivity.
  - assert (Hdone : forall s1,
               emit_class cfg c dconfig is_primary check_if_skip (admit_in cfg c s1)
               = Ok tt (admit_in cfg c s1)).
    { intros s1. rewrite emit_class_eq, passes_guards_emitted; [reflexivity|].
      apply admit_in_emitted. }
    destruct (emit_class cfg c dconfig is_primary check_if_skip s)
      as [[] s'|msg s'] eqn:He.
    + rewrite (bind_Ok_intro _ _ _ _ _ He).
      rewrite emit_class_eq in He.
      destruct (passes_guards cfg c is_primary check_if_skip s) eqn:Hg.
      * destruct (overflows cfg (det s) c).
        -- destruct is_primary; [discriminate|].
           destruct (flush_out_secondary cfg dconfig false s) as [[] s1|];
             [|discriminate].
           injection He as <-. apply Hdone.
        -- injection He as <-. apply Hdone.
      * injection He as <-. rewrite emit_class_eq, Hg. reflexivity.
    + apply (bind_Fatal_intro _ _ _ _ _ He).
Qed.

Lemma emit_class_twice_witness :
  ex_A ∈ emitted (det seen_state) /\
  emit_class roomy_cfg ex_A s_empty_config false true seen_state = Ok tt seen_state.
Proof.
  assert (H : ex_A ∈ emitted (det seen_state)) by (vm_compute; left).
  split; [exact H|].
  exact (proj1 (emit_class_twice roomy_cfg ex_A s_empty_config false true seen_state) H).
Defined.

Lemma flush_out_dex_outs cfg s s' :
  flush_out_dex cfg s = Ok tt s' ->
  outs (det s') = [] /\ la_size (det s') = 0 /\ mrefs (det s') = ∅ /\
  frefs (det s') = ∅ /\ clookup (det s') = clookup (det s).
Proof. rewrite flush_out_dex_eq. intros [= <-]. simpl. auto. Qed.

Lemma flush_out_secondary_outs cfg dconfig mm s s' :
  flush_out_secondary cfg dconfig mm s = Ok tt s' -> outs (det s') = [].
Proof.
  rewrite flush_out_secondary_eq.
  destruct (bool_decide (outs (det s) = [])) eqn:He.
  { intros [= <-]. apply bool_decide_eq_true in He. exact He. }
  repeat match goal with
         | |- (if ?b then _ else _) = _ -> _ => destruct b
         end;
    try discriminate; intros H; apply flush_out_dex_outs in H; tauto.
Qed.

(** X4. Sealing leaves nothing pending: after [flush_out_dex] the bin under
    construction is empty, with its linear-alloc size and its ref sets
    cleared and the name index untouched, and after [flush_out_secondary]
    the pending list is empty; hence a second [flush_out_secondary] in a
    row, whatever its arguments, adds nothing to what the first one did. *)
Theorem flush_leaves_nothing_pending cfg dconfig mm dconfig' mm' s :
  (forall s', flush_out_dex cfg s = Ok tt s' ->
              outs (det s') = [] /\ la_size (det s') = 0 /\
              mrefs (det s') = ∅ /\ frefs (det s') = ∅ /\
              clookup (det s') = clookup (det s)) /\
  (forall s', flush_out_secondary cfg dconfig mm s = Ok tt s' ->
              outs (det s') = []) /\
  (flush_out_secondary cfg dconfig mm;; flush_out_secondary cfg dconfig' mm') s
  = flush_out_secondary cfg dconfig mm s.
Proof.
  split; [apply flush_out_dex_outs|].
  split; [apply flush_out_secondary_outs|].
  destruct (flush_out_secondary cfg dconfig mm s) as [[] s'|msg s'] eqn:Hf.
  - rewrite (bind_Ok_intro _ _ _ _ _ Hf).
    apply flush_out_secondary_outs in Hf. apply flush_out_secondary_empty, Hf.
  - apply (bind_Fatal_intro _ _ _ _ _ Hf).
Qed.

(** X5. When [emit_mixed_mode_classes] returns, no class is a mixed-mode
    class any more and nothing is pending: what follows in the run treats
    every class as an ordinary one and starts a bin of its own. *)
Theorem emit_mixed_mode_classes_clears cfg interdexorder can_touch s s' :
  emit_mixed_mode_classes cfg interdexorder can_touch s = Ok tt s' ->
  mixed_mode_classes (m_mixed_mode_info s') = [] /\
  has_predefined_classes (m_mixed_mode_info s') = false /\
  outs (det s') = [].
Proof.
  unfold emit_mixed_mode_classes. intros H.
  apply bind_Ok in H as ([] & s1 & _ & H).
  apply bind_Ok in H as (s1' & s1'' & Hg & H). injection Hg as <- <-.
  apply bind_Ok in H as ([] & s2 & _ & H).
  apply bind_Ok in H as (s2' & s2'' & Hg & H). injection Hg as <- <-.
  apply bind_Ok in H as ([] & s3 & Hfl & H).
  injection H as <-. simpl.
  split; [reflexivity|]. split; [reflexivity|].
  destruct (bool_decide (outs (det s2) = [])) eqn:He.
  - injection Hfl as <-. apply bool_decide_eq_true in He. exact He.
  - apply flush_out_secondary_outs in Hfl. exact Hfl.
Qed.

(** X6. [is_mixed_mode_dex] picks the first dex of a kind only: it is false
    for the flags of [s_empty_config], false when the mixed-mode info names
    no status, and false for the flags of a dex once a dex with these flags
    has been counted. *)
Theorem is_mixed_mode_dex_first_of_kind dconfig s :
  is_mixed_mode_dex s_empty_config s = false /\
  (mixed_mode_status (m_mixed_mode_info s) = [] ->
   is_mixed_mode_dex dconfig s = false) /\
  is_mixed_mode_dex dconfig (count_secondary_dex dconfig s) = false.
Proof.
  split; [|split].
  - unfold is_mixed_mode_dex. simpl. rewrite !andb_false_r. reflexivity.
  - intros Hn. unfold is_mixed_mode_dex, has_status. rewrite Hn.
    rewrite !bool_decide_eq_false_2 by (apply not_elem_of_nil).
    rewrite !andb_false_r. reflexivity.
  - unfold is_mixed_mode_dex, count_secondary_dex. simpl.
    destruct dconfig as [[] [] []]; simpl; rewrite ?andb_false_r; reflexivity.
Qed.

(** ** The sanity check of the predicted refs *)

Lemma filter_missing_empty `{Countable T} (G P : gset T) :
  filter (fun x => x ∉ P) G = ∅ <-> G ⊆ P.
Proof.
  split.
  - intros He x Hx. destruct (decide (x ∈ P)) as [|Hn]; [assumption|].
    exfalso. apply (not_elem_of_empty (C := gset T) x). rewrite <- He.
    apply elem_of_filter. auto.
  - intros Hs. apply set_eq. intros x. rewrite elem_of_filter.
    split; [intros [Hn Hx]; destruct (Hn (Hs x Hx))|].
    intros Hx. apply not_elem_of_empty in Hx. contradiction.
Qed.

Lemma missing_reported `{Countable T} (G P : gset T) :
  (if (size P <? size G)%nat then filter (fun x => x ∉ P) G else ∅) <> ∅
  <-> (size P < size G)%nat.
Proof.
  destruct (size P <? size G)%nat eqn:Hlt.
  - apply Nat.ltb_lt in Hlt. split; [auto|]. intros _ He.
    apply filter_missing_empty in He. apply subseteq_size in He. lia.
  - apply Nat.ltb_ge in Hlt. split; [congruence | lia].
Qed.

Lemma check_refs_count_reported d dc :
  (forall mr, mr ∈ (check_refs_count d dc).1 ->
              mr ∈ gathered_mrefs dc /\ mr ∉ mrefs d) /\
  (forall fr, fr ∈ (check_refs_count d dc).2 ->
              fr ∈ gathered_frefs dc /\ fr ∉ frefs d).
Proof.
  unfold check_refs_count. simpl. split.
  - intros mr H.
    destruct (size (mrefs d) <? size (gathered_mrefs dc))%nat;
      [|apply not_elem_of_empty in H; contradiction].
    apply elem_of_filter in H. tauto.
  - intros fr H.
    destruct (size (frefs d) <? size (gathered_frefs dc))%nat;
      [|apply not_elem_of_empty in H; contradiction].
    apply elem_of_filter in H. tauto.
Qed.

(** X7. The sanity check of [flush_out_dex] is one-sided. It warns about a
    ref only if a class of the dex gathers it and the tracker did not
    predict it, and it stays silent when every gathered ref was predicted;
    but it warns about method refs exactly when the gathered set is larger
    than the predicted one, and likewise for field refs, so that a ref that
    is missing from a prediction with as many entries goes unreported. *)
Theorem check_refs_count_one_sided d dc :
  (forall mr, mr ∈ (check_refs_count d dc).1 ->
              mr ∈ gathered_mrefs dc /\ mr ∉ mrefs d) /\
  (forall fr, fr ∈ (check_refs_count d dc).2 ->
              fr ∈ gathered_frefs dc /\ fr ∉ frefs d) /\
  (gathered_mrefs dc ⊆ mrefs d -> gathered_frefs dc ⊆ frefs d ->
   check_refs_count d dc = (∅, ∅)) /\
  ((check_refs_count d dc).1 <> ∅ <->
   (size (mrefs d) < size (gathered_mrefs dc))%nat) /\
  ((check_refs_count d dc).2 <> ∅ <->
   (size (frefs d) < size (gathered_frefs dc))%nat).
Proof.
  split; [apply check_refs_count_reported|].
  split; [apply check_refs_count_reported|].
  unfold check_refs_count. simpl. split; [|split].
  - intros Hm Hf.
    apply subseteq_size in Hm as Hsm. apply subseteq_size in Hf as Hsf.
    apply Nat.ltb_ge in Hsm, Hsf. rewrite Hsm, Hsf. reflexivity.
  - apply missing_reported.
  - apply missing_reported.
Qed.

(** ** The counters of the final trace *)

Lemma count_static_bounds (l : list DexMethod) :
  0 <= count_static l <= Z.of_nat (length l).
Proof.
  unfold count_static.
  assert (H : forall acc, acc <= foldl (fun cnt m => if meth_static m then cnt + 1 else cnt)
                                    acc l <= acc + Z.of_nat (length l)).
  { induction l as [|m l IH]; intros acc; simpl; [lia|].
    specialize (IH (if meth_static m then acc + 1 else acc)).
    destruct (meth_static m); lia. }
  specialize (H 0). lia.
Qed.

(** X8. The static methods counted by [update_class_stats] are direct
    methods: for a class whose direct methods an [int] can count, and as
    long as the counter of direct methods does not wrap around, a call
    raises the counter of static methods by no more than the counter
    of direct methods, so the former stays below the latter; and
    [update_dex_stats] touches neither. *)
Theorem update_class_stats_static_within_direct clazz g :
  0 <= global_smeth_cnt g <= global_dmeth_cnt g ->
  Z.of_nat (length (cls_dmethods clazz)) < 2 ^ 31 ->
  global_dmeth_cnt g + Z.of_nat (length (cls_dmethods clazz)) < 2 ^ 64 ->
  0 <= global_smeth_cnt (update_class_stats clazz g)
    <= global_dmeth_cnt (update_class_stats clazz g) /\
  global_smeth_cnt (update_class_stats clazz g) - global_smeth_cnt g
    <= global_dmeth_cnt (update_class_stats clazz g) - global_dmeth_cnt g /\
  (forall cls_cnt methrefs_cnt frefs_cnt,
      global_smeth_cnt (update_dex_stats cls_cnt methrefs_cnt frefs_cnt g)
        = global_smeth_cnt g /\
      global_dmeth_cnt (update_dex_stats cls_cnt methrefs_cnt frefs_cnt g)
        = global_dmeth_cnt g).
Proof.
  intros Hle _ Hfit. pose proof (count_static_bounds (cls_dmethods clazz)) as Hc.
  unfold update_class_stats, wrap64. simpl.
  rewrite !Z.mod_small by lia. repeat split; lia.
Qed.

Lemma update_class_stats_static_within_direct_witness :
  0 <= global_smeth_cnt (mk_stats 3 1 0 0 0 0)
    <= global_dmeth_cnt (mk_stats 3 1 0 0 0 0) /\
  global_smeth_cnt (update_class_stats dv (mk_stats 3 1 0 0 0 0)) = 2 /\
  global_dmeth_cnt (update_class_stats dv (mk_stats 3 1 0 0 0 0)) = 4 /\
  0 <= global_smeth_cnt (update_class_stats dv (mk_stats 3 1 0 0 0 0))
    <= global_dmeth_cnt (update_class_stats dv (mk_stats 3 1 0 0 0 0)).
Proof.
  assert (H1 : 0 <= global_smeth_cnt (mk_stats 3 1 0 0 0 0)
               <= global_dmeth_cnt (mk_stats 3 1 0 0 0 0)) by (simpl; lia).
  assert (H0 : Z.of_nat (length (cls_dmethods dv)) < 2 ^ 31)
    by (vm_compute; reflexivity).
  assert (H2 : global_dmeth_cnt (mk_stats 3 1 0 0 0 0)
               + Z.of_nat (length (cls_dmethods dv)) < 2 ^ 64)
    by (vm_compute; reflexivity).
  split; [exact H1|]. split; [vm_compute; reflexivity|].
  split; [vm_compute; reflexivity|].
  exact (proj1 (update_class_stats_static_within_direct dv _ H1 H0 H2)).
Defined.

(** ** The walk order of a normal primary dex *)

Lemma find_it_le x l : (find_it x l <= length l)%nat.
Proof.
  induction l as [|y l IH]; simpl; [lia|]. destruct (String.eqb y x); lia.
Qed.

Lemma find_it_lt_elem x l : (find_it x l < length l)%nat <-> x ∈ l.
Proof.
  induction l as [|y l IH]; simpl.
  - rewrite elem_of_nil. lia.
  - rewrite elem_of_cons. destruct (String.eqb y x) eqn:He.
    + apply String.eqb_eq in He. split; [auto | lia].
    + apply String.eqb_neq in He. rewrite <- IH. split; [intros; right; lia|].
      intros [->|H]; [congruence | lia].
Qed.

Lemma find_it_app x a l :
  find_it x (a ++ l) =
    if bool_decide (x ∈ a) then find_it x a else (length a + find_it x l)%nat.
Proof.
  induction a as [|y a IH].
  - case_bool_decide as Hin; [apply elem_of_nil in Hin; contradiction | reflexivity].
  - simpl. destruct (String.eqb y x) eqn:He.
    + apply String.eqb_eq in He. subst.
      rewrite bool_decide_eq_true_2 by left. reflexivity.
    + apply String.eqb_neq in He. rewrite IH.
      destruct (decide (x ∈ a)) as [Hin|Hin].
      * rewrite !bool_decide_eq_true_2; [reflexivity | right; exact Hin | exact Hin].
      * rewrite !bool_decide_eq_false_2; [reflexivity | | exact Hin].
        rewrite elem_of_cons. intros [->|?]; [congruence | contradiction].
Qed.

Lemma respect_primary_dex_eq interdexorder primary_dex :
  respect_primary_dex interdexorder primary_dex =
    map cls_name (filter (fun c => not_already_included_p interdexorder c = true)
                    primary_dex)
    ++ interdexorder.
Proof.
  unfold respect_primary_dex. f_equal.
  assert (H : forall acc : list string,
             foldl (fun acc pclass =>
                      if Nat.eqb (find_it (cls_name pclass) interdexorder)
                           (length interdexorder) ||
                         (find_it "LDexEndMarker0;" interdexorder
                          <? find_it (cls_name pclass) interdexorder)%nat
                      then acc ++ [cls_name pclass] else acc) acc primary_dex
             = acc ++ map cls_name
                        (filter (fun c => not_already_included_p interdexorder c = true)
                           primary_dex)).
  { induction primary_dex as [|c l IH]; intros acc; simpl.
    - rewrite app_nil_r. reflexivity.
    - fold (not_already_included_p interdexorder c).
      destruct (not_already_included_p interdexorder c) eqn:Hp.
      + rewrite list.filter_cons_True by exact Hp. simpl.
        rewrite IH, <- app_assoc. reflexivity.
      + rewrite list.filter_cons_False by congruence. apply IH. }
  apply (H []).
Qed.

(** X9. When the primary dex is packed like any other dex, the walk order
    is the priority list with the names of some classes of the primary dex
    put in front: it names every class of the primary dex, and, unless a
    class of the primary dex is itself called like the first end marker,
    it names each of them no later than that marker, whether the marker is
    in the list or not. *)
Theorem respect_primary_dex_before_first_marker interdexorder primary_dex :
  (exists added,
      respect_primary_dex interdexorder primary_dex = added ++ interdexorder /\
      forall n, n ∈ added -> exists c, c ∈ primary_dex /\ cls_name c = n) /\
  (forall c, c ∈ primary_dex ->
             cls_name c ∈ respect_primary_dex interdexorder primary_dex) /\
  ((forall c, c ∈ primary_dex -> cls_name c <> "LDexEndMarker0;") ->
   forall c, c ∈ primary_dex ->
     (find_it (cls_name c) (respect_primary_dex interdexorder primary_dex)
      <= find_it "LDexEndMarker0;"
           (respect_primary_dex interdexorder primary_dex))%nat).
Proof.
  rewrite respect_primary_dex_eq.
  set (added := map cls_name
                  (filter (fun c => not_already_included_p interdexorder c = true)
                     primary_dex)).
  assert (Hadded : forall n, n ∈ added <->
            exists c, c ∈ primary_dex /\ not_already_included_p interdexorder c = true
                      /\ cls_name c = n).
  { intros n. unfold added. rewrite list_elem_of_fmap. split.
    - intros (c & -> & Hc). apply list_elem_of_filter in Hc as [Hp Hc]. eauto.
    - intros (c & Hc & Hp & <-). exists c. split; [reflexivity|].
      apply list_elem_of_filter. auto. }
  split; [|split].
  - exists added. split; [reflexivity|]. intros n Hn.
    apply Hadded in Hn as (c & Hc & _ & Hn). eauto.
  - intros c Hc. apply elem_of_app.
    destruct (not_already_included_p interdexorder c) eqn:Hp.
    + left. apply Hadded. eauto.
    + right. apply find_it_lt_elem.
      unfold not_already_included_p in Hp. apply orb_false_iff in Hp as [Hp _].
      apply Nat.eqb_neq in Hp. pose proof (find_it_le (cls_name c) interdexorder). lia.
  - intros Hmk c Hc. rewrite !find_it_app.
    rewrite (bool_decide_eq_false_2 ("LDexEndMarker0;" ∈ added)).
    2: { intros Hin. apply Hadded in Hin as (c' & Hc' & _ & Hn).
         exact (Hmk c' Hc' Hn). }
    destruct (decide (cls_name c ∈ added)) as [Hin|Hin].
    + rewrite bool_decide_eq_true_2 by exact Hin.
      apply find_it_lt_elem in Hin. lia.
    + rewrite bool_decide_eq_false_2 by exact Hin.
      destruct (not_already_included_p interdexorder c) eqn:Hp.
      * exfalso. apply Hin, Hadded. eauto.
      * unfold not_already_included_p in Hp. apply orb_false_iff in Hp as [_ Hp].
        apply Nat.ltb_ge in Hp. lia.
Qed.

(** ** What the pruner may report *)

Lemma split_coldstart_unreferenced traversal refs unref c :
  c ∈ unreferenced_classes (split_coldstart traversal refs unref) ->
  c ∈ unref \/ (c ∈ traversal /\ cls_can_rename c = true /\ c ∉ refs).
Proof.
  unfold split_coldstart.
  assert (H : forall loc,
             c ∈ unreferenced_classes
                   (foldl (fun loc cls =>
                             if cls_can_rename cls && bool_decide (cls ∉ refs)
                             then mk_prune (new_no_ref loc + 1)
                                    (set_insert cls (unreferenced_classes loc))
                                    (output_scope loc)
                             else mk_prune (new_no_ref loc) (unreferenced_classes loc)
                                    (output_scope loc ++ [cls])) loc traversal) ->
             c ∈ unreferenced_classes loc \/
             (c ∈ traversal /\ cls_can_rename c = true /\ c ∉ refs)).
  { induction traversal as [|x l IH]; intros loc; simpl; [auto|].
    intros Hc. apply IH in Hc as [Hc|(Hc & Hr & Hn)].
    - destruct (cls_can_rename x && bool_decide (x ∉ refs)) eqn:Hx; simpl in Hc.
      + apply elem_of_set_insert in Hc as [->|Hc]; [|auto].
        apply andb_true_iff in Hx as [Hr Hn]. apply bool_decide_eq_true in Hn.
        right. split; [left | auto].
      + auto.
    - right. split; [right; exact Hc | auto]. }
  intros Hc. apply H in Hc. exact Hc.
Qed.

Lemma split_coldstart_none traversal refs unref :
  (forall c, c ∈ traversal -> cls_can_rename c = false) ->
  new_no_ref (split_coldstart traversal refs unref) = 0 /\
  unreferenced_classes (split_coldstart traversal refs unref) = unref.
Proof.
  unfold split_coldstart.
  assert (H : forall loc,
             (forall c, c ∈ traversal -> cls_can_rename c = false) ->
             let loc' :=
               foldl (fun loc cls =>
                        if cls_can_rename cls && bool_decide (cls ∉ refs)
                        then mk_prune (new_no_ref loc + 1)
                               (set_insert cls (unreferenced_classes loc))
                               (output_scope loc)
                        else mk_prune (new_no_ref loc) (unreferenced_classes loc)
                               (output_scope loc ++ [cls])) loc traversal in
             new_no_ref loc' = new_no_ref loc /\
             unreferenced_classes loc' = unreferenced_classes loc).
  { induction traversal as [|x l IH]; intros loc Hall; simpl; [auto|].
    rewrite (Hall x) by left. simpl.
    destruct (IH (mk_prune (new_no_ref loc) (unreferenced_classes loc)
                    (output_scope loc ++ [x]))) as [H1 H2].
    { intros c Hc. apply Hall. right. exact Hc. }
    simpl in H1, H2. auto. }
  intros Hall. exact (H (mk_prune 0 unref []) Hall).
Qed.

Lemma elem_of_collect_coldstart (m : gmap string DexClass) interdexorder c :
  c ∈ collect_coldstart m interdexorder <->
  exists n, n ∈ interdexorder /\ m !! n = Some c.
Proof.
  unfold collect_coldstart.
  assert (H : forall acc : listset DexClass,
             c ∈ foldl (fun acc class_string =>
                          match m !! class_string with
                          | Some cls => set_insert cls acc
                          | None => acc
                          end) acc interdexorder <->
             c ∈ acc \/ exists n, n ∈ interdexorder /\ m !! n = Some c).
  { induction interdexorder as [|x l IH]; intros acc; simpl.
    - split; [auto|]. intros [H|(n & Hn & _)]; [exact H|].
      apply elem_of_nil in Hn. contradiction.
    - rewrite IH. destruct (m !! x) as [cls|] eqn:Hx.
      + rewrite elem_of_set_insert. split.
        * intros [[->|H]|(n & Hn & Hl)]; [right; exists x; split; [left|exact Hx]
                                         | auto | right; exists n; split; [right|]; auto].
        * intros [H|(n & Hn & Hl)]; [auto|].
          apply elem_of_cons in Hn as [->|Hn]; [|right; eauto].
          left. left. congruence.
      + split.
        * intros [H|(n & Hn & Hl)]; [auto | right; exists n; split; [right|]; auto].
        * intros [H|(n & Hn & Hl)]; [auto|].
          apply elem_of_cons in Hn as [->|Hn]; [congruence | right; eauto]. }
  rewrite H. split; [|auto]. intros [Hc|Hc]; [|exact Hc].
  apply not_elem_of_empty in Hc. contradiction.
Qed.

Lemma prune_loop_unreferenced fuel cfg scope cs old loc unref (Q : DexClass -> Prop) :
  (forall c, c ∈ set_order cfg cs -> cls_can_rename c = true -> Q c) ->
  (forall c, c ∈ unreferenced_classes loc -> Q c) ->
  prune_loop fuel cfg scope cs old loc = Some unref ->
  forall c, c ∈ unref -> Q c.
Proof.
  intros Hcs. revert old loc.
  induction fuel as [|fuel IH]; intros old loc Hloc; simpl.
  - destruct (bool_decide (old ≠ new_no_ref loc)); [discriminate|].
    intros [= <-]. exact Hloc.
  - destruct (bool_decide (old ≠ new_no_ref loc)); [|intros [= <-]; exact Hloc].
    apply IH. intros c Hc. unfold prune_pass in Hc.
    apply split_coldstart_unreferenced in Hc as [Hc|(Hc & Hr & _)]; auto.
Qed.

(** X10. The pruner reports only classes it may prune: when it returns,
    with a set that yields exactly its elements, every class it reports as
    unreferenced can be renamed and is the class that a name of the priority
    list resolves to in the name index; a class that cannot be renamed and a
    class outside the cold-start list are never reported. *)
Theorem pruner_reports_renamable_coldstart
  fuel cfg scope d interdexorder static_prune_classes unref :
  valid_set_order (set_order cfg) ->
  find_unrefenced_coldstart_classes fuel cfg scope d interdexorder
    static_prune_classes = Some unref ->
  forall c, c ∈ unref ->
    cls_can_rename c = true /\
    exists n, n ∈ interdexorder /\ clookup d !! n = Some c.
Proof.
  intros Hv Hrun. unfold find_unrefenced_coldstart_classes in Hrun.
  destruct static_prune_classes; simpl in Hrun.
  - refine (prune_loop_unreferenced fuel cfg scope _ (-1) (mk_prune 0 ∅ scope) unref
              (fun c => cls_can_rename c = true /\
                        exists n, n ∈ interdexorder /\ clookup d !! n = Some c)
              _ _ Hrun).
    + intros c Hc Hr. split; [exact Hr|].
      apply elem_of_collect_coldstart, (proj2 (Hv _)). exact Hc.
    + simpl. intros c Hc. apply not_elem_of_empty in Hc. contradiction.
  - injection Hrun as <-. intros c Hc. apply not_elem_of_empty in Hc. contradiction.
Qed.

Lemma prune_loop_stop fuel cfg scope cs loc :
  prune_loop fuel cfg scope cs (new_no_ref loc) loc = Some (unreferenced_classes loc).
Proof.
  destruct fuel; simpl; rewrite bool_decide_eq_false_2 by auto; reflexivity.
Qed.

(** X11. The pruner returns after one pass when it has nothing to prune:
    if no name of the priority list resolves to a class that can be renamed,
    as with an empty priority list, the first pass counts no unreferenced
    class, the loop ends and the empty set is returned. *)
Theorem pruner_returns_when_nothing_renamable fuel cfg scope d interdexorder :
  valid_set_order (set_order cfg) ->
  (forall n c, n ∈ interdexorder -> clookup d !! n = Some c ->
               cls_can_rename c = false) ->
  find_unrefenced_coldstart_classes (S fuel) cfg scope d interdexorder true
    = Some ∅.
Proof.
  intros Hv Hall. unfold find_unrefenced_coldstart_classes. simpl negb. cbv iota.
  set (cs := collect_coldstart (clookup d) interdexorder).
  rewrite prune_loop_step by (simpl; lia).
  unfold prune_pass.
  change (output_scope (mk_prune 0 ∅ scope)) with scope.
  change (unreferenced_classes (mk_prune 0 ∅ scope)) with (∅ : listset DexClass).
  change (new_no_ref (mk_prune 0 ∅ scope)) with 0.
  destruct (split_coldstart_none (set_order cfg cs)
              (cold_references (type_registry cfg) scope cs scope) ∅) as [Hn Hu].
  { intros c Hc. apply (proj2 (Hv _)) in Hc.
    apply elem_of_collect_coldstart in Hc as (n & Hn & Hl). eauto. }
  rewrite <- Hn at 1. rewrite prune_loop_stop, Hu. reflexivity.
Qed.

(** ** Operations that keep a property of the state *)

Section Keeps.

Variable cfg : InterDexConfig.

Variable I : InterDexState -> Prop.

Abbreviation Any := (fun _ _ : InterDexState => True).

Hypothesis H_same : forall s s', same_tally s s' -> I s -> I s'.

Hypothesis H_emit : forall c dconfig check_if_skip,
  respects I Any (emit_class cfg c dconfig false check_if_skip).

Hypothesis H_flush : forall dconfig mm,
  respects I Any (flush_out_secondary cfg dconfig mm).

Lemma Any_refl (s : InterDexState) : Any s s.
Proof. exact Logic.I. Qed.

Lemma Any_trans (s1 s2 s3 : InterDexState) : Any s1 s2 -> Any s2 s3 -> Any s1 s3.
Proof. intros _ _. exact Logic.I. Qed.

Lemma keeps_modify (f : InterDexState -> InterDexState) :
(forall s, same_tally s (f s)) -> respects I Any (modify_state f).
Proof. intros Hf s [] s' HI [= <-]. split; [|exact Logic.I]. eapply H_same; eauto. Qed.

Ltac keeps_step :=
lazymatch goal with
| |- respects _ _ (mret _) => apply (respects_ret I Any Any_refl)
| |- respects _ _ (always_assert_log _ _) => apply (respects_assert I Any Any_refl)
| |- respects _ _ (emit_class _ _ _ false _) => apply H_emit
| |- respects _ _ (flush_out_secondary _ _ _) => apply H_flush
| |- respects _ _ (modify_state _) =>
    apply keeps_modify; intros ?; repeat split
| |- respects _ _ (get_state ≫= _) => apply (respects_get I Any); intros ?
| |- respects _ _ (for_each _ _) =>
    apply (respects_for_each I Any Any_refl Any_trans); intros ? _
| |- respects _ _ (for_each_acc _ _ _) =>
    apply (respects_for_each_acc I Any Any_refl Any_trans); intros ? ? _
| |- respects _ _ (match ?x with Some _ => _ | None => _ end) => destruct x
| |- respects _ _ (if ?b then _ else _) => destruct b
| |- respects _ _ (_ ≫= _) => apply (respects_bind I Any Any_trans); [|intros ?]
end.

Lemma emit_mixed_mode_classes_keeps interdexorder can_touch :
respects I Any (emit_mixed_mode_classes cfg interdexorder can_touch).
Proof. unfold emit_mixed_mode_classes. repeat keeps_step. Qed.

Lemma walk_entry_keeps interdexorder unreferenced loc position :
respects I Any (walk_entry cfg interdexorder unreferenced loc position).
Proof.
pose proof emit_mixed_mode_classes_keeps as Hm.
unfold walk_entry. cbv zeta.
repeat first [apply Hm | keeps_step].
Qed.

Lemma priority_walk_keeps unreferenced n :
respects I Any (priority_walk cfg unreferenced n).
Proof.
pose proof walk_entry_keeps as Hw.
unfold priority_walk. cbv zeta. repeat first [apply Hw | keeps_step].
Qed.

Lemma run_epilogue_keeps unreferenced loc :
respects I Any (run_epilogue cfg unreferenced loc).
Proof.
pose proof emit_mixed_mode_classes_keeps as Hm.
unfold run_epilogue. cbv zeta. repeat first [apply Hm | keeps_step].
Qed.

End Keeps.

(** ** The tally of a run *)

Lemma bin_mrefs_snoc cfg l c :
  bin_mrefs cfg (l ++ [c]) = bin_mrefs cfg l ∪ (gather_refs (m_plugins cfg) c).1.
Proof.
  unfold bin_mrefs. rewrite fmap_app, union_list_app_L. simpl.
  rewrite (right_id_L ∅ (∪)). reflexivity.
Qed.

Lemma bin_frefs_snoc cfg l c :
  bin_frefs cfg (l ++ [c]) = bin_frefs cfg l ∪ (gather_refs (m_plugins cfg) c).2.
Proof.
  unfold bin_frefs. rewrite fmap_app, union_list_app_L. simpl.
  rewrite (right_id_L ∅ (∪)). reflexivity.
Qed.

Lemma la_sum_snoc l c : la_sum (l ++ [c]) = la_sum l + estimate_linear_alloc c.
Proof. unfold la_sum. induction l as [|x l IH]; simpl; [lia | rewrite IH; lia]. Qed.

Lemma Tally_same cfg k0 sec0 mix0 txt0 s s' :
  same_tally s s' -> Tally cfg k0 sec0 mix0 txt0 s -> Tally cfg k0 sec0 mix0 txt0 s'.
Proof.
  intros (Hd & Ho & Hs & Hn & Ht) [H1 H2 H3 H4 H5 H6 H7 H8].
  split; unfold mixed_tally; rewrite ?Hd, ?Ho, ?Hs, ?Hn, ?Ht; assumption.
Qed.

Lemma flush_out_secondary_view cfg dconfig mm s s' :
  outs (det s) <> [] ->
  flush_out_secondary cfg dconfig mm s = Ok tt s' ->
  exists cans,
    (if m_emit_canaries cfg then exists cn, cans = [cn] else cans = []) /\
    outdex s' =
      outdex s ++
      [outs (det s) ++ cans ++
       plugin_additions (m_plugins cfg) (outdex s) (outs (det s) ++ cans)] /\
    outs (det s') = [] /\ la_size (det s') = 0 /\
    mrefs (det s') = ∅ /\ frefs (det s') = ∅ /\
    m_secondary_dexes s' = S (m_secondary_dexes s) /\
    ((m_num_mixed_mode_dexes s' = m_num_mixed_mode_dexes s /\
      mixed_mode_txt s' = mixed_mode_txt s) \/
     (m_emit_canaries cfg = true /\ m_num_mixed_mode_dexes s = 0%nat /\
      m_num_mixed_mode_dexes s' = 1%nat /\
      mixed_mode_txt s' =
        (mixed_mode_txt s ++ canary_name (length (outdex s)) ++
         String (ascii_of_nat 10) "")%string)).
Proof.
  intros Hne. rewrite flush_out_secondary_eq.
  rewrite bool_decide_eq_false_2 by exact Hne.
  destruct (m_emit_canaries cfg) eqn:Hcan.
  - destruct (Z.of_nat (length (outdex s)) <=? kMaxDexNum); [|discriminate].
    destruct (mm || is_mixed_mode_dex dconfig s).
    + destruct (Nat.eqb (m_num_mixed_mode_dexes s) 0) eqn:Hz; [|discriminate].
      apply Nat.eqb_eq in Hz. rewrite flush_out_dex_eq. intros [= <-].
      exists [find_canary cfg (det s) (canary_name (length (outdex s)))].
      simpl. rewrite <- !app_assoc. simpl.
      repeat split; eauto. right. rewrite Hz. auto.
    + rewrite flush_out_dex_eq. intros [= <-].
      exists [find_canary cfg (det s) (canary_name (length (outdex s)))].
      simpl. rewrite <- !app_assoc. simpl. repeat split; eauto.
  - rewrite flush_out_dex_eq. intros [= <-]. exists []. simpl.
    rewrite !app_nil_r. repeat split; auto.
Qed.

Lemma Tally_flush cfg k0 sec0 mix0 txt0 dconfig mm :
  respects (Tally cfg k0 sec0 mix0 txt0) (fun _ _ => True)
    (flush_out_secondary cfg dconfig mm).
Proof.
  intros s [] s' HT Hfl. split; [|exact I].
  destruct (decide (outs (det s) = [])) as [He|Hne].
  { rewrite flush_out_secondary_empty in Hfl by exact He. injection Hfl as <-.
    exact HT. }
  destruct (flush_out_secondary_view _ _ _ _ _ Hne Hfl)
    as (cans & Hcans & Ho & Houts & Hla & Hm & Hf & Hsec & Hmix).
  destruct HT as [H1 H2 H3 H4 H5 H6 H7 H8].
  split.
  - rewrite Hm, Houts. reflexivity.
  - rewrite Hf, Houts. reflexivity.
  - rewrite Hla, Houts. reflexivity.
  - rewrite Houts. left. simpl. lia.
  - intros i bin Hi Hk. rewrite Ho in Hi |- *.
    destruct (decide (i < length (outdex s))%nat) as [Hlt|Hge].
    + rewrite lookup_app_l in Hi by exact Hlt.
      rewrite take_app_le by lia. apply H5; assumption.
    + assert (i = length (outdex s)) as ->.
      { apply lookup_lt_Some in Hi. rewrite length_app in Hi. simpl in Hi. lia. }
      rewrite list_lookup_middle in Hi by reflexivity. injection Hi as <-.
      rewrite take_app_length.
      exists (outs (det s)), cans. split; [reflexivity|]. split; [exact Hne|].
      split; [exact Hcans|].
      destruct H4 as [H4|H4]; [|right; exact H4].
      left. destruct (outs (det s)) as [|x [|y l]]; simpl in *; [congruence | lia | lia].
  - rewrite Ho, length_app. simpl. lia.
  - rewrite Hsec, H7, Ho, length_app. simpl. lia.
  - unfold mixed_tally in *. rewrite Ho, length_app. simpl.
    destruct Hmix as [[Hn Ht]|(Hc & Hz & Hn & Ht)].
    + rewrite Hn, Ht.
      destruct H8 as [H8|(Hc & Hm0 & Hn1 & i & Hi & Hti)]; [left; exact H8|].
      right. repeat split; try assumption. exists i. split; [lia | exact Hti].
    + destruct H8 as [[Hn0 Ht0]|(_ & _ & Hn1 & _)]; [|congruence].
      right. split; [exact Hc|]. split; [congruence|]. split; [exact Hn|].
      exists (length (outdex s)). split; [lia|]. rewrite Ht, Ht0. reflexivity.
Qed.

Lemma admit_in_within_caps cfg c (d : dex_emit_tracker) :
  mrefs d = bin_mrefs cfg (outs d) -> frefs d = bin_frefs cfg (outs d) ->
  la_size d = wrap32 (la_sum (outs d)) ->
  overflows cfg d c = false ->
  within_caps cfg (outs d ++ [c]).
Proof.
  intros Hm Hf Hla Hov. unfold overflows in Hov.
  apply orb_false_iff in Hov as [Hov Hovf]. apply orb_false_iff in Hov as [Hovl Hovm].
  apply Z.ltb_ge in Hovl. apply Z.leb_gt in Hovm, Hovf.
  rewrite !set_difference_eq in *.
  unfold within_caps.
  rewrite la_sum_snoc, bin_mrefs_snoc, bin_frefs_snoc, <- Hm, <- Hf.
  rewrite !size_union_difference, !Nat2Z.inj_add.
  rewrite Hla, wrap32_add_l in Hovl. auto.
Qed.

Lemma admit_in_Tally cfg k0 sec0 mix0 txt0 c s :
  Tally cfg k0 sec0 mix0 txt0 s ->
  overflows cfg (det s) c = false \/ outs (det s) = [] ->
  Tally cfg k0 sec0 mix0 txt0 (admit_in cfg c s).
Proof.
  intros [H1 H2 H3 H4 H5 H6 H7 H8] Hfit.
  split; unfold mixed_tally; simpl; try assumption.
  - rewrite bin_mrefs_snoc, H1. reflexivity.
  - rewrite bin_frefs_snoc, H2. reflexivity.
  - rewrite la_sum_snoc, H3, wrap32_add_l. reflexivity.
  - destruct Hfit as [Hov|He].
    + right. apply admit_in_within_caps; assumption.
    + left. rewrite He. simpl. lia.
Qed.

Lemma Tally_emit cfg k0 sec0 mix0 txt0 c dconfig check_if_skip :
  respects (Tally cfg k0 sec0 mix0 txt0) (fun _ _ => True)
    (emit_class cfg c dconfig false check_if_skip).
Proof.
  intros s [] s' HT. rewrite emit_class_eq. split; [|exact I].
  destruct (passes_guards cfg c false check_if_skip s);
    [|injection H as <-; exact HT].
  destruct (overflows cfg (det s) c) eqn:Hov.
  - destruct (flush_out_secondary cfg dconfig false s) as [[] s1|] eqn:Hfl;
      [|discriminate].
    injection H as <-.
    apply admit_in_Tally.
    + exact (proj1 (Tally_flush _ _ _ _ _ _ _ _ _ _ HT Hfl)).
    + right. apply flush_out_secondary_outs in Hfl. exact Hfl.
  - injection H as <-. apply admit_in_Tally; auto.
Qed.

(** ** The tally of the primary dex *)

Lemma emit_class_primary_tally cfg sec0 mix0 txt0 c dconfig check_if_skip :
  respects (primary_tally cfg sec0 mix0 txt0) (fun _ _ => True)
    (emit_class cfg c dconfig true check_if_skip).
Proof.
  intros s [] s' HT. rewrite emit_class_eq. split; [|exact I].
  destruct (passes_guards cfg c true check_if_skip s);
    [|injection H as <-; exact HT].
  destruct (overflows cfg (det s) c) eqn:Hov; [discriminate|].
  injection H as <-.
  destruct HT as (H1 & H2 & H3 & H4 & H5 & H6 & H7 & H8).
  unfold primary_tally. simpl.
  rewrite bin_mrefs_snoc, bin_frefs_snoc, la_sum_snoc, H1, H2, H3, wrap32_add_l.
  repeat split; try assumption; try reflexivity.
  right. apply admit_in_within_caps; assumption.
Qed.

Lemma primary_body_tally cfg unreferenced sec0 mix0 txt0 entry :
  respects (primary_tally cfg sec0 mix0 txt0) (fun _ _ => True)
    (primary_body cfg unreferenced entry).
Proof.
  unfold primary_body. apply respects_get. intros s0.
  destruct (clookup (det s0) !! entry) as [clazz|].
  - destruct (bool_decide (clazz ∈ unreferenced)).
    + intros s [] s' HT [= <-]. split; [exact HT | exact I].
    + apply emit_class_primary_tally.
  - apply respects_ret. auto.
Qed.

Lemma emit_primary_dex_tally cfg unreferenced d s0 s1 :
  outdex s0 = [] -> outs d = [] -> la_size d = 0 -> mrefs d = ∅ -> frefs d = ∅ ->
  emit_primary_dex cfg (coldstart_class_names cfg) unreferenced d s0 = Ok tt s1 ->
  Tally cfg 1 (m_secondary_dexes s0) (m_num_mixed_mode_dexes s0)
    (mixed_mode_txt s0) s1 /\
  exists pre,
    outdex s1 = [pre ++ plugin_additions (m_plugins cfg) [] pre] /\
    (pre = [] \/ within_caps cfg pre).
Proof.
  intros Hod Hdo Hdl Hdm Hdf Hrun. unfold emit_primary_dex in Hrun.
  apply bind_Ok in Hrun as ([] & sa & Ha & Hrun). injection Ha as <-.
  apply bind_Ok in Hrun as ([] & sb1 & Hl1 & Hrun).
  apply bind_Ok in Hrun as ([] & sb & Hl2 & Hrun).
  apply bind_Ok in Hrun as ([] & sc & Hfl & Hrun).
  injection Hrun as <-.
  set (PT := primary_tally cfg (m_secondary_dexes s0) (m_num_mixed_mode_dexes s0)
               (mixed_mode_txt s0)).
  assert (HTa : PT (set_det (primary_det_of cfg) s0)).
  { unfold PT, primary_tally. simpl. repeat split; auto. }
  assert (Hrefl : forall s : InterDexState, (fun _ _ : InterDexState => True) s s)
    by (intros; exact I).
  assert (Htrans : forall s1 s2 s3 : InterDexState,
             (fun _ _ : InterDexState => True) s1 s2 ->
             (fun _ _ : InterDexState => True) s2 s3 ->
             (fun _ _ : InterDexState => True) s1 s3) by (intros; exact I).
  destruct (respects_for_each PT _ Hrefl Htrans
              (coldstart_class_names cfg) (primary_body cfg unreferenced)
              (fun x _ => primary_body_tally cfg unreferenced _ _ _ x)
              _ tt _ HTa Hl1) as [HTb1 _].
  destruct (respects_for_each PT _ Hrefl Htrans
              (primary_dex_of cfg)
              (fun clazz => emit_class cfg clazz s_empty_config true true)
              (fun x _ => emit_class_primary_tally cfg _ _ _ x s_empty_config true)
              _ tt _ HTb1 Hl2) as [HTb _].
  destruct HTb as (H1 & H2 & H3 & H4 & H5 & H6 & H7 & H8).
  rewrite flush_out_dex_eq in Hfl. injection Hfl as <-. simpl.
  rewrite H5. simpl.
  split.
  - split; unfold mixed_tally; simpl; rewrite ?Hdo, ?Hdl, ?Hdm, ?Hdf; simpl;
      try reflexivity; auto.
    + intros i bin Hi Hk. destruct i; [lia|].
      rewrite lookup_cons, lookup_nil in Hi. discriminate.
    + rewrite H6. lia.
  - exists (outs (det sb)). split; [reflexivity | exact H4].
Qed.

Lemma run_prologue_Tally cfg unreferenced s s1 :
  run_prologue cfg unreferenced s = Ok tt s1 ->
  Tally cfg (first_secondary cfg) (m_secondary_dexes s) (m_num_mixed_mode_dexes s)
    (mixed_mode_txt s) s1 /\
  (m_normal_primary_dex cfg = false ->
   exists pre,
     outdex s1 = [pre ++ plugin_additions (m_plugins cfg) [] pre] /\
     (pre = [] \/ within_caps cfg pre)).
Proof.
  unfold run_prologue, first_secondary. intros Hrun.
  apply bind_Ok in Hrun as ([] & s0 & H0 & Hrun). injection H0 as <-.
  destruct (m_normal_primary_dex cfg); simpl in Hrun.
  - injection Hrun as <-. split; [|discriminate].
    split; unfold mixed_tally; simpl; try reflexivity; auto.
    intros i bin Hi. rewrite lookup_nil in Hi. discriminate.
  - apply emit_primary_dex_tally in Hrun; try reflexivity.
    destruct Hrun as [HT Hpre]. simpl in HT. auto.
Qed.

Lemma run_with_Tally cfg unreferenced s out sf :
  run_with cfg unreferenced s = Ok out sf ->
  Tally cfg (first_secondary cfg) (m_secondary_dexes s) (m_num_mixed_mode_dexes s)
    (mixed_mode_txt s) sf /\
  out = outdex sf /\
  (m_normal_primary_dex cfg = false ->
   exists pre rest,
     out = (pre ++ plugin_additions (m_plugins cfg) [] pre) :: rest /\
     (pre = [] \/ within_caps cfg pre)).
Proof.
  intros Hrun.
  destruct (run_with_stages _ _ _ _ _ Hrun) as (s1' & Hp' & HE & Hout & _).
  unfold run_with in Hrun.
  apply bind_Ok in Hrun as ([] & s1 & Hp & Hrun).
  rewrite Hp in Hp'. injection Hp' as <-.
  apply bind_Ok in Hrun as (loc & s2 & Hw & Hrun).
  destruct (run_prologue_Tally _ _ _ _ Hp) as [HT1 Hprim].
  set (T := Tally cfg (first_secondary cfg) (m_secondary_dexes s)
              (m_num_mixed_mode_dexes s) (mixed_mode_txt s)) in *.
  assert (Hsame : forall a b, same_tally a b -> T a -> T b)
    by (intros a b; apply Tally_same).
  assert (Hemit : forall c dconfig chk,
             respects T (fun _ _ => True) (emit_class cfg c dconfig false chk))
    by (intros; apply Tally_emit).
  assert (Hflush : forall dconfig mm,
             respects T (fun _ _ => True) (flush_out_secondary cfg dconfig mm))
    by (intros; apply Tally_flush).
  destruct (priority_walk_keeps cfg T Hsame Hemit Hflush _ _ _ _ _ HT1 Hw) as [HT2 _].
  destruct (run_epilogue_keeps cfg T Hsame Hemit Hflush _ _ _ _ _ HT2 Hrun) as [HT3 _].
  split; [exact HT3|]. split; [exact Hout|].
  intros Hnp. destruct (Hprim Hnp) as (pre & Ho1 & Hcaps).
  pose proof (ext_outdex _ _ HE) as [rest Hpf].
  exists pre, rest. split; [|exact Hcaps].
  rewrite Hout, Hpf, Ho1. reflexivity.
Qed.

Lemma mixed_run :
  run 0 mixed_cfg (fresh_state mixed_B) = Some (Ok mixed_out mixed_final).
Proof. vm_compute. reflexivity. Qed.

Lemma mixed_run_recorded :
  m_num_mixed_mode_dexes mixed_final = 1%nat /\
  m_secondary_dexes mixed_final = 1%nat /\
  mixed_mode_txt mixed_final =
    ("Lsecondary/dex01/Canary;" ++ String (ascii_of_nat 10) "")%string.
Proof. vm_compute. auto. Qed.

(** ** Bins, counters and mixed_mode.txt at the end of a run *)

(** X12. The bins of a run respect the caps. Every bin sealed by
    [flush_out_secondary] is non-empty and consists of the classes
    [emit_class] admitted, the canary if canaries are emitted and what the
    plugins added at the flush; the admitted classes need fewer than 65535
    method refs and fewer than 65535 field refs, plugins' refs included, and
    their linear-alloc estimates, summed up as an [unsigned], stay within
    the limit, unless the bin was opened for a single class that does not
    fit. The classes admitted to a primary dex that is kept apart fit
    without exception. *)
Theorem sealed_bins_within_caps cfg fuel s out sf :
  run fuel cfg s = Some (Ok out sf) ->
  (forall i bin,
      out !! i = Some bin -> (first_secondary cfg <= i)%nat ->
      bin <> [] /\
      exists pre cans,
        bin = pre ++ cans ++
              plugin_additions (m_plugins cfg) (take i out) (pre ++ cans) /\
        pre <> [] /\
        (if m_emit_canaries cfg then exists cn, cans = [cn] else cans = []) /\
        (length pre = 1%nat \/ within_caps cfg pre)) /\
  (m_normal_primary_dex cfg = false ->
   exists pre rest,
     out = (pre ++ plugin_additions (m_plugins cfg) [] pre) :: rest /\
     (pre = [] \/ within_caps cfg pre)).
Proof.
  intros Hrun. apply run_Some in Hrun as (unref & _ & Hrun).
  destruct (run_with_Tally _ _ _ _ _ Hrun) as (HT & -> & Hprim).
  split; [|exact Hprim].
  intros i bin Hi Hk.
  destruct (tally_bins _ _ _ _ _ _ HT i bin Hi Hk)
    as (pre & cans & Hbin & Hne & Hcans & Hcaps).
  split.
  - rewrite Hbin. destruct pre; [congruence | discriminate].
  - exists pre, cans. auto.
Qed.

Lemma sealed_bins_within_caps_witness :
  run 0 two_dex_cfg (fresh_state no_mixed_mode) = Some (Ok two_dex_out two_dex_final) /\
  two_dex_out !! 1%nat = Some [ex_B; create_canary "Lsecondary/dex01/Canary;"] /\
  (first_secondary two_dex_cfg <= 1)%nat /\
  [ex_B; create_canary "Lsecondary/dex01/Canary;"] <> [] /\
  exists pre cans,
    [ex_B; create_canary "Lsecondary/dex01/Canary;"] =
      pre ++ cans ++
      plugin_additions (m_plugins two_dex_cfg) (take 1 two_dex_out) (pre ++ cans) /\
    pre <> [] /\
    (if m_emit_canaries two_dex_cfg then exists cn, cans = [cn] else cans = []) /\
    (length pre = 1%nat \/ within_caps two_dex_cfg pre).
Proof.
  assert (H2 : two_dex_out !! 1%nat
               = Some [ex_B; create_canary "Lsecondary/dex01/Canary;"])
    by reflexivity.
  assert (H3 : (first_secondary two_dex_cfg <= 1)%nat) by (vm_compute; lia).
  split; [exact two_dex_run|]. split; [exact H2|]. split; [exact H3|].
  exact (proj1 (sealed_bins_within_caps two_dex_cfg 0 _ _ _ two_dex_run) 1%nat _ H2 H3).
Defined.

(** X13. The counter of secondary dexes counts the bins sealed by
    [flush_out_secondary]: a run adds to it the number of bins of its
    output, less the primary bin when the primary dex is kept apart. *)
Theorem secondary_dex_count_matches_output cfg fuel s out sf :
  run fuel cfg s = Some (Ok out sf) ->
  (first_secondary cfg <= length out)%nat /\
  m_secondary_dexes sf =
    (m_secondary_dexes s + (length out - first_secondary cfg))%nat.
Proof.
  intros Hrun. apply run_Some in Hrun as (unref & _ & Hrun).
  destruct (run_with_Tally _ _ _ _ _ Hrun) as (HT & -> & _).
  split; [exact (tally_k0 _ _ _ _ _ _ HT) | exact (tally_secondary _ _ _ _ _ _ HT)].
Qed.

Lemma secondary_dex_count_matches_output_witness :
  run 0 mixed_cfg (fresh_state mixed_B) = Some (Ok mixed_out mixed_final) /\
  (first_secondary mixed_cfg <= length mixed_out)%nat /\
  m_secondary_dexes mixed_final =
    (m_secondary_dexes (fresh_state mixed_B)
     + (length mixed_out - first_secondary mixed_cfg))%nat.
Proof.
  split; [exact mixed_run|].
  exact (secondary_dex_count_matches_output mixed_cfg 0 _ _ _ mixed_run).
Defined.

(** X14. A run records at most one mixed-mode dex. Either the counter of
    mixed-mode dexes and mixed_mode.txt end as they started, which is always
    so when canaries are not emitted; or the counter was 0 and ends at 1,
    and mixed_mode.txt has got one more line, the canary name of a bin of
    the output sealed by [flush_out_secondary]. *)
Theorem mixed_mode_recorded_at_most_once cfg fuel s out sf :
  run fuel cfg s = Some (Ok out sf) ->
  (m_num_mixed_mode_dexes sf = m_num_mixed_mode_dexes s /\
   mixed_mode_txt sf = mixed_mode_txt s) \/
  (m_emit_canaries cfg = true /\ m_num_mixed_mode_dexes s = 0%nat /\
   m_num_mixed_mode_dexes sf = 1%nat /\
   exists i, (first_secondary cfg <= i < length out)%nat /\
             mixed_mode_txt sf =
               (mixed_mode_txt s ++ canary_name i ++
                String (ascii_of_nat 10) "")%string).
Proof.
  intros Hrun. apply run_Some in Hrun as (unref & _ & Hrun).
  destruct (run_with_Tally _ _ _ _ _ Hrun) as (HT & -> & _).
  exact (tally_mixed _ _ _ _ _ _ HT).
Qed.

Lemma mixed_mode_recorded_at_most_once_witness :
  run 0 mixed_cfg (fresh_state mixed_B) = Some (Ok mixed_out mixed_final) /\
  m_num_mixed_mode_dexes mixed_final = 1%nat /\
  ((m_num_mixed_mode_dexes mixed_final = m_num_mixed_mode_dexes (fresh_state mixed_B) /\
    mixed_mode_txt mixed_final = mixed_mode_txt (fresh_state mixed_B)) \/
   (m_emit_canaries mixed_cfg = true /\
    m_num_mixed_mode_dexes (fresh_state mixed_B) = 0%nat /\
    m_num_mixed_mode_dexes mixed_final = 1%nat /\
    exists i, (first_secondary mixed_cfg <= i < length mixed_out)%nat /\
              mixed_mode_txt mixed_final =
                (mixed_mode_txt (fresh_state mixed_B) ++ canary_name i ++
                 String (ascii_of_nat 10) "")%string)).
Proof.
  split; [exact mixed_run|]. split; [exact (proj1 mixed_run_recorded)|].
  exact (mixed_mode_recorded_at_most_once mixed_cfg 0 _ _ _ mixed_run).
Defined.

(** ** The primary dex kept apart *)

Lemma primary_dex_in_scope cfg c :
  c ∈ primary_dex_of cfg -> c ∈ build_class_scope (m_dexen cfg).
Proof.
  unfold primary_dex_of, build_class_scope.
  destruct (m_dexen cfg) as [|dex rest]; simpl.
  - intros H. apply elem_of_nil in H. contradiction.
  - intros H. apply elem_of_app. auto.
Qed.

Lemma apart_same cfg s s' : same_tally s s' -> apart cfg s -> apart cfg s'.
Proof.
  intros (Hd & Ho & _) (H1 & H2 & H3 & H4). unfold apart.
  rewrite Hd, Ho. auto.
Qed.

Lemma apart_flush cfg dconfig mm :
  extras_outside cfg ->
  respects (apart cfg) (fun _ _ => True) (flush_out_secondary cfg dconfig mm).
Proof.
  intros Hex s [] s' HA Hfl. split; [|exact I].
  destruct (decide (outs (det s) = [])) as [He|Hne].
  { rewrite flush_out_secondary_empty in Hfl by exact He. injection Hfl as <-.
    exact HA. }
  destruct (flush_out_secondary_Ok _ _ _ _ _ Hne Hfl)
    as (Ho & Houts & Hem & Hcl & _).
  destruct HA as (H1 & H2 & H3 & H4).
  unfold apart. rewrite Ho, Houts, Hem, Hcl.
  split; [exact H1|]. split; [|split].
  - intros c Hc. apply elem_of_set_insert_all. auto.
  - intros c Hc. apply elem_of_nil in Hc. contradiction.
  - intros i bin c Hi Hk Hc Hp.
    destruct (decide (i < length (outdex s))%nat) as [Hlt|Hge].
    { rewrite lookup_app_l in Hi by exact Hlt. eauto. }
    assert (i = length (outdex s)) as ->.
    { apply lookup_lt_Some in Hi. rewrite length_app in Hi. simpl in Hi. lia. }
    rewrite list_lookup_middle in Hi by reflexivity. injection Hi as <-.
    apply elem_of_app in Hc as [Hc|Hc].
    + unfold sealed_pending in Hc. destruct (m_emit_canaries cfg); [|auto].
      apply elem_of_app in Hc as [Hc|Hc]; [auto|].
      apply list_elem_of_singleton in Hc. subst c.
      eapply is_canary_named, find_canary_name, H1.
    + pose proof (plugin_additions_outside _ _ _ _ Hex Hc) as Hcnt.
      unfold counted in Hcnt.
      rewrite bool_decide_eq_true_2 in Hcnt by (apply primary_dex_in_scope, Hp).
      simpl in Hcnt. apply negb_false_iff in Hcnt. exact Hcnt.
Qed.

Lemma apart_emit cfg c dconfig check_if_skip :
  extras_outside cfg ->
  respects (apart cfg) (fun _ _ => True)
    (emit_class cfg c dconfig false check_if_skip).
Proof.
  intros Hex s [] s' HA. rewrite emit_class_eq. split; [|exact I].
  destruct (passes_guards cfg c false check_if_skip s) eqn:Hg;
    [|injection H as <-; exact HA].
  assert (Hnp : c ∉ primary_dex_of cfg).
  { intros Hp. apply (proj1 (proj2 HA)) in Hp.
    rewrite passes_guards_emitted in Hg by exact Hp. discriminate. }
  assert (Hadmit : forall s1, apart cfg s1 -> apart cfg (admit_in cfg c s1)).
  { intros s1 (H1 & H2 & H3 & H4). unfold apart. simpl.
    split; [exact H1|]. split; [|split; [|exact H4]].
    - intros x Hx. apply elem_of_set_insert. auto.
    - intros x Hx Hp. apply elem_of_app in Hx as [Hx|Hx]; [auto|].
      apply list_elem_of_singleton in Hx. subst x. contradiction. }
  destruct (overflows cfg (det s) c).
  - destruct (flush_out_secondary cfg dconfig false s) as [[] s1|] eqn:Hfl;
      [|discriminate].
    injection H as <-. apply Hadmit.
    exact (proj1 (apart_flush cfg dconfig false Hex _ _ _ HA Hfl)).
  - injection H as <-. apply Hadmit, HA.
Qed.

Lemma emit_primary_dex_covers cfg unreferenced s0 s1 :
  outdex s0 = [] ->
  emit_primary_dex cfg (coldstart_class_names cfg) unreferenced (main_det_of cfg) s0
    = Ok tt s1 ->
  det s1 = insert_emitted (primary_dex_of cfg) (main_det_of cfg) /\
  exists pre,
    outdex s1 = [pre ++ plugin_additions (m_plugins cfg) [] pre] /\
    Forall (fun c => is_canary c = false /\ c ∈ primary_dex_of cfg) pre /\
    forall c, c ∈ primary_dex_of cfg -> is_canary c = false ->
              should_skip_class (m_plugins cfg) c = false -> c ∈ pre.
Proof.
  intros Hod Hrun. unfold emit_primary_dex in Hrun.
  apply bind_Ok in Hrun as ([] & sa & Ha & Hrun). injection Ha as <-.
  apply bind_Ok in Hrun as ([] & sb1 & Hl1 & Hrun).
  apply bind_Ok in Hrun as ([] & sb & Hl2 & Hrun).
  apply bind_Ok in Hrun as ([] & sc & Hfl & Hrun).
  injection Hrun as <-.
  set (mixed0 := mixed_mode_classes (m_mixed_mode_info s0)).
  set (P := Inv cfg (fun c => c ∈ primary_dex_of cfg) 0 mixed0).
  assert (HIa : P (set_det (primary_det_of cfg) s0)).
  { replace (set_det (primary_det_of cfg) s0)
      with (set_det (primary_det_of cfg) (set_outdex [] s0))
      by (destruct s0; simpl in *; subst; reflexivity).
    apply Inv_start; [reflexivity | reflexivity |].
    intros n c Hl. apply index_classes_lookup in Hl as [Hl|[Hl Hn]].
    - rewrite lookup_empty in Hl. discriminate.
    - auto. }
  destruct (respects_for_each P Ext Ext_refl Ext_trans
              (coldstart_class_names cfg) (primary_body cfg unreferenced)
              (fun x _ => primary_body_Inv cfg unreferenced mixed0 x) _ tt _ HIa Hl1)
    as [HIb1 HEb1].
  apply (for_each_outdex _ _ (primary_body_outdex cfg unreferenced)) in Hl1 as Ho1.
  assert (Hall : Forall (fun c => c ∈ primary_dex_of cfg) (primary_dex_of cfg))
    by (apply list.Forall_forall; auto).
  destruct (for_each_emit_covers cfg (fun c => c ∈ primary_dex_of cfg) 0%nat
              mixed0 (primary_dex_of cfg) s_empty_config true true
              Hall _ _ HIb1 Hl2)
    as (HIb & HEb & Hcov).
  apply (for_each_outdex _ _
           (fun x s s' H => proj1 (emit_class_primary_outdex cfg x _ _ s s' H)))
    in Hl2 as Ho2.
  assert (Hob : outdex sb = []) by (rewrite Ho2, Ho1; exact Hod).
  rewrite flush_out_dex_eq in Hfl. injection Hfl as <-.
  rewrite Hob. simpl. split; [reflexivity|].
  exists (outs (det sb)). split; [reflexivity|].
  split; [exact (inv_pending _ _ _ _ _ HIb)|].
  intros c Hc Hnc Hns.
  assert (Hflat : flat sb = outs (det sb)) by (unfold flat; rewrite Hob; reflexivity).
  rewrite <- Hflat.
  destruct (Hcov c Hc) as [Hem|[Hv|[[_ Hv]|[Hv _]]]].
  - eapply inv_placed; eassumption.
  - congruence.
  - congruence.
  - discriminate.
Qed.

(** X15. A primary dex that is kept apart stays the primary dex. When a run
    with [normal_primary_dex] off returns, the first bin of the output holds
    classes of the primary input dex only, followed by what the plugins add;
    it holds every class of the primary dex that is not a canary and that no
    plugin vetoes; and, when no plugin hands an input class to a flush, no
    class of the primary dex other than a canary is in a later bin. *)
Theorem primary_dex_kept_apart cfg fuel s out sf :
  run fuel cfg s = Some (Ok out sf) ->
  m_normal_primary_dex cfg = false ->
  exists pre rest,
    out = (pre ++ plugin_additions (m_plugins cfg) [] pre) :: rest /\
    Forall (fun c => is_canary c = false /\ c ∈ primary_dex_of cfg) pre /\
    (forall c, c ∈ primary_dex_of cfg -> is_canary c = false ->
               should_skip_class (m_plugins cfg) c = false -> c ∈ pre) /\
    (extras_outside cfg ->
     forall c, c ∈ primary_dex_of cfg -> is_canary c = false ->
               forall i bin, out !! i = Some bin -> c ∈ bin -> i = 0%nat).
Proof.
  intros Hrun Hnp. apply run_Some in Hrun as (unref & _ & Hrun).
  destruct (run_with_stages _ _ _ _ _ Hrun) as (s1' & Hp' & HE & Hout & _).
  unfold run_with in Hrun.
  apply bind_Ok in Hrun as ([] & s1 & Hp & Hrun).
  rewrite Hp in Hp'. injection Hp' as <-.
  apply bind_Ok in Hrun as (loc & s2 & Hw & Hrun).
  unfold run_prologue in Hp.
  apply bind_Ok in Hp as ([] & s0 & H0 & Hp). injection H0 as <-.
  rewrite Hnp in Hp. simpl in Hp.
  apply emit_primary_dex_covers in Hp as (Hdet & pre & Ho1 & Hpre & Hcov);
    [|reflexivity].
  pose proof (ext_outdex _ _ HE) as [rest Hpf].
  exists pre, rest. split; [rewrite Hout, Hpf, Ho1; reflexivity|].
  split; [exact Hpre|]. split; [exact Hcov|].
  intros Hex c Hc Hnc i bin Hi Hin.
  assert (HA1 : apart cfg s1).
  { unfold apart. rewrite Hdet, Ho1. simpl. split; [|split; [|split]].
    - intros n x Hl. apply build_clookup_lookup in Hl. apply Hl.
    - intros x Hx. apply elem_of_set_insert_all. auto.
    - intros x Hx. apply elem_of_nil in Hx. contradiction.
    - intros j b x Hj Hk. destruct j; [lia|].
      rewrite lookup_cons, lookup_nil in Hj. discriminate. }
  assert (Hemit : forall x dconfig chk,
             respects (apart cfg) (fun _ _ => True)
               (emit_class cfg x dconfig false chk))
    by (intros; apply apart_emit, Hex).
  assert (Hflush : forall dconfig mm,
             respects (apart cfg) (fun _ _ => True)
               (flush_out_secondary cfg dconfig mm))
    by (intros; apply apart_flush, Hex).
  destruct (priority_walk_keeps cfg (apart cfg) (apart_same cfg) Hemit Hflush
              _ _ _ _ _ HA1 Hw) as [HA2 _].
  destruct (run_epilogue_keeps cfg (apart cfg) (apart_same cfg) Hemit Hflush
              _ _ _ _ _ HA2 Hrun) as [HA3 _].
  destruct i as [|i]; [reflexivity|]. exfalso.
  rewrite Hout in Hi.
  pose proof (proj2 (proj2 (proj2 HA3)) (S i) bin c Hi ltac:(lia) Hin Hc) as Hcan.
  congruence.
Qed.

Lemma primary_dex_kept_apart_witness :
  run 0 two_dex_cfg (fresh_state no_mixed_mode) = Some (Ok two_dex_out two_dex_final) /\
  m_normal_primary_dex two_dex_cfg = false /\
  exists pre rest,
    two_dex_out = (pre ++ plugin_additions (m_plugins two_dex_cfg) [] pre) :: rest /\
    Forall (fun c => is_canary c = false /\ c ∈ primary_dex_of two_dex_cfg) pre /\
    (forall c, c ∈ primary_dex_of two_dex_cfg -> is_canary c = false ->
               should_skip_class (m_plugins two_dex_cfg) c = false -> c ∈ pre) /\
    (extras_outside two_dex_cfg ->
     forall c, c ∈ primary_dex_of two_dex_cfg -> is_canary c = false ->
               forall i bin, two_dex_out !! i = Some bin -> c ∈ bin -> i = 0%nat).
Proof.
  assert (H2 : m_normal_primary_dex two_dex_cfg = false) by reflexivity.
  split; [exact two_dex_run|]. split; [exact H2|].
  exact (primary_dex_kept_apart two_dex_cfg 0 _ _ _ two_dex_run H2).
Defined.

(** ** The states of the priority walk *)

Lemma walk_state_Tally cfg unreferenced s n loc sn :
  walk_state cfg unreferenced s n = Ok loc sn ->
  Tally cfg (first_secondary cfg) (m_secondary_dexes s) (m_num_mixed_mode_dexes s)
    (mixed_mode_txt s) sn.
Proof.
  unfold walk_state. intros Hrun.
  apply bind_Ok in Hrun as ([] & s1 & Hp & Hw).
  destruct (run_prologue_Tally _ _ _ _ Hp) as [HT1 _].
  refine (proj1 (priority_walk_keeps cfg _ _ _ _ _ _ _ _ _ HT1 Hw)).
  - intros a b. apply Tally_same.
  - intros. apply Tally_emit.
  - intros. apply Tally_flush.
Qed.

Lemma gather_refs_extend plugins c :
  plugins_extend plugins ->
  (forall mr, mr ∈ cls_gather_methods c -> mr ∈ (gather_refs plugins c).1) /\
  (forall fr, fr ∈ cls_gather_fields c -> fr ∈ (gather_refs plugins c).2).
Proof.
  intros Hext. unfold gather_refs. simpl.
  assert (H : forall (l : list InterDexPassPlugin) refs,
             (forall p, p ∈ l -> p ∈ plugins) ->
             (forall mr, mr ∈ refs.1 ->
                mr ∈ (foldl (fun refs plugin => plugin_gather_mrefs plugin c refs)
                        refs l).1) /\
             (forall fr, fr ∈ refs.2 ->
                fr ∈ (foldl (fun refs plugin => plugin_gather_mrefs plugin c refs)
                        refs l).2)).
  { induction l as [|p l IH]; intros refs Hl; simpl; [auto|].
    destruct (Hext p c refs (Hl p ltac:(left))) as [Hm Hf].
    destruct (IH (plugin_gather_mrefs p c refs)
                (fun q Hq => Hl q ltac:(right; exact Hq))) as [IHm IHf].
    split; auto. }
  destruct (H plugins (cls_gather_methods c, cls_gather_fields c) (fun p Hp => Hp))
    as [Hm Hf].
  split; intros x Hx; apply elem_of_list_to_set; auto.
Qed.

Lemma gathered_within_bin cfg l :
  plugins_extend (m_plugins cfg) ->
  gathered_mrefs l ⊆ bin_mrefs cfg l /\ gathered_frefs l ⊆ bin_frefs cfg l.
Proof.
  intros Hext. unfold gathered_mrefs, gathered_frefs, bin_mrefs, bin_frefs.
  split; intros x Hx; apply elem_of_list_to_set, list_elem_of_In, in_flat_map in Hx
    as (c & Hc & Hx); apply list_elem_of_In in Hc, Hx;
    apply elem_of_union_list; eexists; (split; [apply list_elem_of_fmap; eauto|]);
    apply (gather_refs_extend _ c Hext); exact Hx.
Qed.

Lemma gathered_mrefs_app l1 l2 x :
  x ∈ gathered_mrefs (l1 ++ l2) <-> x ∈ gathered_mrefs l1 \/ x ∈ gathered_mrefs l2.
Proof.
  unfold gathered_mrefs. rewrite flat_map_app, list_to_set_app, elem_of_union.
  reflexivity.
Qed.

Lemma gathered_frefs_app l1 l2 x :
  x ∈ gathered_frefs (l1 ++ l2) <-> x ∈ gathered_frefs l1 \/ x ∈ gathered_frefs l2.
Proof.
  unfold gathered_frefs. rewrite flat_map_app, list_to_set_app, elem_of_union.
  reflexivity.
Qed.

(** X16. The tracker predicts the refs of what [emit_class] admits. At
    every step of the priority walk the ref sets of the tracker are the refs
    gathered for the pending classes, plugins' refs included, and its
    linear-alloc size is the sum of their estimates as an [unsigned]. Hence,
    with plugins that only add refs, whatever [check_refs_count] reports for
    a tracker in that condition stems from the classes put behind the
    pending ones when the dex is sealed: the canary and the classes the
    plugins add. *)
Theorem sanity_check_blames_late_classes cfg :
  plugins_extend (m_plugins cfg) ->
  (forall unreferenced s n loc sn,
      walk_state cfg unreferenced s n = Ok loc sn ->
      mrefs (det sn) = bin_mrefs cfg (outs (det sn)) /\
      frefs (det sn) = bin_frefs cfg (outs (det sn)) /\
      la_size (det sn) = wrap32 (la_sum (outs (det sn)))) /\
  (forall d late,
      mrefs d = bin_mrefs cfg (outs d) -> frefs d = bin_frefs cfg (outs d) ->
      (forall mr, mr ∈ (check_refs_count d (outs d ++ late)).1 ->
                  mr ∈ gathered_mrefs late) /\
      (forall fr, fr ∈ (check_refs_count d (outs d ++ late)).2 ->
                  fr ∈ gathered_frefs late)).
Proof.
  intros Hext. split.
  - intros unreferenced s n loc sn Hw.
    destruct (walk_state_Tally _ _ _ _ _ _ Hw) as [H1 H2 H3 _ _ _ _ _]. auto.
  - intros d late Hm Hf.
    destruct (gathered_within_bin cfg (outs d) Hext) as [Hgm Hgf].
    destruct (check_refs_count_reported d (outs d ++ late)) as (Wm & Wf).
    split.
    + intros mr Hmr. apply Wm in Hmr as [Hg Hn].
      apply gathered_mrefs_app in Hg as [Hg|Hg]; [|exact Hg].
      exfalso. apply Hn. rewrite Hm. apply Hgm, Hg.
    + intros fr Hfr. apply Wf in Hfr as [Hg Hn].
      apply gathered_frefs_app in Hg as [Hg|Hg]; [|exact Hg].
      exfalso. apply Hn. rewrite Hf. apply Hgf, Hg.
Qed.

(** X17. The output is built by appending. Whatever the priority walk has
    sealed or has pending after its first [n] entries keeps its place to
    the end of the run: the bins sealed by then open the output, and the
    classes placed by then, in their order, open the sequence of all classes
    of the output. *)
Theorem placed_classes_keep_their_place cfg unreferenced s n loc sn out sf :
  walk_state cfg unreferenced s n = Ok loc sn ->
  run_with cfg unreferenced s = Ok out sf ->
  outdex sn `prefix_of` out /\
  exists added, concat out = concat (outdex sn) ++ outs (det sn) ++ added.
Proof.
  intros Hn Hrun.
  destruct (run_with_Inv _ _ _ _ _ Hrun) as (loc2 & s2 & Hw & _ & HE2 & -> & Hp & _).
  assert (HE : Ext sn s2).
  { destruct (decide (n <= length (walk_order cfg))%nat) as [Hle|Hgt].
    - destruct (walk_state_le _ _ _ n _ _ _ Hle Hw) as (l' & x & Hx & HE).
      rewrite Hn in Hx. injection Hx as <- <-. exact HE.
    - assert (Heq : walk_state cfg unreferenced s n
                    = walk_state cfg unreferenced s (length (walk_order cfg))).
      { unfold walk_state, priority_walk.
        rewrite !take_ge; [reflexivity | |];
          unfold positions; rewrite length_imap; lia. }
      rewrite Heq, Hw in Hn. injection Hn as <- <-. apply Ext_refl. }
  pose proof (Ext_trans _ _ _ HE HE2) as HEf.
  split; [exact (ext_outdex _ _ HEf)|].
  destruct (ext_flat _ _ HEf) as [added Hf]. exists added.
  unfold flat in Hf. rewrite Hp, app_nil_r in Hf. rewrite Hf, <- app_assoc.
  reflexivity.
Qed.

(** ** Operations that keep a property of the state and of the classes *)

Section KeepsGiven.

Variable cfg : InterDexConfig.

Variable I : InterDexState -> Prop.

Variable Adm : DexClass -> Prop.

Abbreviation Any := (fun _ _ : InterDexState => True).

Hypothesis H_same : forall s s',
  same_tally s s' ->
  (forall c, c ∈ mixed_mode_classes (m_mixed_mode_info s') ->
             c ∈ mixed_mode_classes (m_mixed_mode_info s)) ->
  I s -> I s'.

Hypothesis H_emit : forall c dconfig check_if_skip,
  Adm c -> respects I Any (emit_class cfg c dconfig false check_if_skip).

Hypothesis H_flush : forall dconfig mm,
  respects I Any (flush_out_secondary cfg dconfig mm).

Hypothesis H_clookup : forall s n c, I s -> clookup (det s) !! n = Some c -> Adm c.

Hypothesis H_mixed : forall s c,
  I s -> c ∈ mixed_mode_classes (m_mixed_mode_info s) -> Adm c.

Hypothesis H_scope : forall c, c ∈ build_class_scope (m_dexen cfg) -> Adm c.

Hypothesis H_left : forall plugin c,
  plugin ∈ m_plugins cfg -> c ∈ plugin_leftover_classes plugin -> Adm c.

Lemma given_modify (f : InterDexState -> InterDexState) :
(forall s, same_tally s (f s) /\
           forall c, c ∈ mixed_mode_classes (m_mixed_mode_info (f s)) ->
                     c ∈ mixed_mode_classes (m_mixed_mode_info s)) ->
respects I Any (modify_state f).
Proof.
intros Hf s [] s' HI [= <-]. split; [|exact Logic.I].
destruct (Hf s). eapply H_same; eauto.
Qed.

Lemma respects_get_know {A} (f : InterDexState -> M A) :
(forall s0, I s0 -> respects I Any (f s0)) -> respects I Any (get_state ≫= f).
Proof. intros Hf s a s' HI Hrun. exact (Hf s HI s a s' HI Hrun). Qed.

Lemma Any_refl' (s : InterDexState) : Any s s.
Proof. exact Logic.I. Qed.

Lemma Any_trans' (s1 s2 s3 : InterDexState) : Any s1 s2 -> Any s2 s3 -> Any s1 s3.
Proof. intros _ _. exact Logic.I. Qed.

Ltac given_class :=
first [ eapply H_clookup; [|eassumption]; assumption
      | eapply H_mixed; [|eassumption]; assumption
      | apply H_scope; assumption
      | eapply H_left; eassumption ].

Ltac mixed_shrinks :=
let c := fresh "c" in
let Hc := fresh "Hc" in
intros c Hc; simpl in Hc;
first [ exact Hc
      | apply list_elem_of_filter in Hc; apply Hc
      | apply elem_of_nil in Hc; contradiction ].

Ltac given_step :=
lazymatch goal with
| |- respects _ _ (mret _) => apply (respects_ret I Any Any_refl')
| |- respects _ _ (always_assert_log _ _) => apply (respects_assert I Any Any_refl')
| |- respects _ _ (emit_class _ _ _ false _) => apply H_emit; given_class
| |- respects _ _ (flush_out_secondary _ _ _) => apply H_flush
| |- respects _ _ (modify_state _) =>
    apply given_modify; intros ?; split; [repeat split | mixed_shrinks]
| |- respects _ _ (get_state ≫= _) => apply respects_get_know; intros ? ?
| |- respects _ _ (for_each _ _) =>
    apply (respects_for_each I Any Any_refl' Any_trans'); intros ? ?
| |- respects _ _ (for_each_acc _ _ _) =>
    apply (respects_for_each_acc I Any Any_refl' Any_trans'); intros ? ? ?
| |- respects _ _ (match ?x with Some _ => _ | None => _ end) => destruct x eqn:?
| |- respects _ _ (if ?b then _ else _) => destruct b
| |- respects _ _ (_ ≫= _) => apply (respects_bind I Any Any_trans'); [|intros ?]
end.

Lemma emit_mixed_mode_classes_given interdexorder can_touch :
respects I Any (emit_mixed_mode_classes cfg interdexorder can_touch).
Proof. unfold emit_mixed_mode_classes. repeat given_step. Qed.

Lemma walk_entry_given interdexorder unreferenced loc position :
respects I Any (walk_entry cfg interdexorder unreferenced loc position).
Proof.
pose proof emit_mixed_mode_classes_given as Hm.
unfold walk_entry. cbv zeta.
repeat first [apply Hm | given_step].
Qed.

Lemma priority_walk_given unreferenced n :
respects I Any (priority_walk cfg unreferenced n).
Proof.
pose proof walk_entry_given as Hw.
unfold priority_walk. cbv zeta. repeat first [apply Hw | given_step].
Qed.

Lemma run_epilogue_given unreferenced loc :
respects I Any (run_epilogue cfg unreferenced loc).
Proof.
pose proof emit_mixed_mode_classes_given as Hm.
unfold run_epilogue. cbv zeta. repeat first [apply Hm | given_step].
Qed.

End KeepsGiven.

(** ** Every class of the output has a source *)

Lemma plugin_additions_added cfg sofar pending c :
  c ∈ plugin_additions (m_plugins cfg) sofar pending -> added_at_flush cfg c.
Proof.
  unfold plugin_additions. intros Hc.
  apply list_elem_of_In, in_flat_map in Hc as (plugin & Hp & Hc).
  apply list_elem_of_In in Hp, Hc. right. eauto.
Qed.

Lemma sourced_same cfg mixed0 s s' :
  same_tally s s' ->
  (forall c, c ∈ mixed_mode_classes (m_mixed_mode_info s') ->
             c ∈ mixed_mode_classes (m_mixed_mode_info s)) ->
  sourced cfg mixed0 s -> sourced cfg mixed0 s'.
Proof.
  intros (Hd & Ho & _) Hm (H1 & H2 & H3). unfold sourced, flat.
  rewrite Hd, Ho. auto.
Qed.

Lemma sourced_flush cfg mixed0 dconfig mm :
  respects (sourced cfg mixed0) (fun _ _ => True)
    (flush_out_secondary cfg dconfig mm).
Proof.
  intros s [] s' HS Hfl. split; [|exact I].
  destruct (decide (outs (det s) = [])) as [He|Hne].
  { rewrite flush_out_secondary_empty in Hfl by exact He. injection Hfl as <-.
    exact HS. }
  pose proof (flat_after_flush _ _ _ _ _ Hne Hfl) as Hflat.
  destruct (flush_out_secondary_Ok _ _ _ _ _ Hne Hfl)
    as (_ & _ & _ & Hcl & Hmi & _).
  destruct HS as (H1 & H2 & H3). unfold sourced.
  rewrite Hcl, Hmi, Hflat. split; [exact H1|]. split; [exact H2|].
  intros c Hc. apply elem_of_app in Hc as [Hc|Hc]; [auto|].
  apply elem_of_app in Hc as [Hc|Hc].
  - destruct (m_emit_canaries cfg); [|apply elem_of_nil in Hc; contradiction].
    apply list_elem_of_singleton in Hc. subst c. right. left.
    exists (length (outdex s)). apply find_canary_name.
    intros k x Hk. apply (H1 k x Hk).
  - right. eapply plugin_additions_added, Hc.
Qed.

Lemma sourced_emit cfg mixed0 c dconfig check_if_skip :
  given cfg mixed0 c ->
  respects (sourced cfg mixed0) (fun _ _ => True)
    (emit_class cfg c dconfig false check_if_skip).
Proof.
  intros Hg s [] s' HS. rewrite emit_class_eq. split; [|exact I].
  destruct (passes_guards cfg c false check_if_skip s);
    [|injection H as <-; exact HS].
  assert (Hadmit : forall s1, sourced cfg mixed0 s1 ->
                              sourced cfg mixed0 (admit_in cfg c s1)).
  { intros s1 (H1 & H2 & H3). unfold sourced, flat. simpl.
    split; [exact H1|]. split; [exact H2|].
    intros x Hx. rewrite app_assoc in Hx. apply elem_of_app in Hx as [Hx|Hx].
    - apply H3. exact Hx.
    - apply list_elem_of_singleton in Hx. subst x. auto. }
  destruct (overflows cfg (det s) c).
  - destruct (flush_out_secondary cfg dconfig false s) as [[] s1|] eqn:Hfl;
      [|discriminate].
    injection H as <-. apply Hadmit.
    exact (proj1 (sourced_flush cfg mixed0 dconfig false _ _ _ HS Hfl)).
  - injection H as <-. apply Hadmit, HS.
Qed.

Lemma run_prologue_sourced cfg unreferenced s s1 :
  run_prologue cfg unreferenced s = Ok tt s1 ->
  sourced cfg (mixed_mode_classes (m_mixed_mode_info s)) s1.
Proof.
  intros Hp.
  destruct (run_prologue_Inv _ _ _ _ Hp) as [HI _].
  unfold run_prologue in Hp.
  apply bind_Ok in Hp as ([] & s0 & H0 & Hp). injection H0 as <-.
  split; [|split; [exact (inv_mixed _ _ _ _ _ HI)|]].
  - destruct (m_normal_primary_dex cfg); simpl in Hp.
    + injection Hp as <-. simpl. intros n c Hl.
      apply build_clookup_lookup in Hl. tauto.
    + apply emit_primary_dex_covers in Hp as (Hdet & _); [|reflexivity].
      rewrite Hdet. simpl. intros n c Hl.
      apply build_clookup_lookup in Hl. tauto.
  - destruct (m_normal_primary_dex cfg); simpl in Hp.
    + injection Hp as <-. unfold flat. simpl. intros c Hc.
      apply elem_of_nil in Hc. contradiction.
    + apply emit_primary_dex_covers in Hp as (Hdet & pre & Ho & Hpre & _);
        [|reflexivity].
      unfold flat. rewrite Hdet, Ho. simpl. rewrite !app_nil_r.
      intros c Hc. apply elem_of_app in Hc as [Hc|Hc].
      * left. left. rewrite list.Forall_forall in Hpre.
        apply primary_dex_in_scope, (Hpre c Hc).
      * right. eapply plugin_additions_added, Hc.
Qed.

(** X18. The packer invents no class. Every class in a bin of the output
    is an input class, a mixed-mode class of the start of the run or a
    leftover class of a plugin, unless it was put there at a flush: then it
    carries a canary descriptor or is a class a plugin added. *)
Theorem output_classes_have_a_source cfg fuel s out sf :
  run fuel cfg s = Some (Ok out sf) ->
  forall i bin c,
    out !! i = Some bin -> c ∈ bin ->
    c ∈ build_class_scope (m_dexen cfg) \/
    c ∈ mixed_mode_classes (m_mixed_mode_info s) \/
    (exists plugin, plugin ∈ m_plugins cfg /\ c ∈ plugin_leftover_classes plugin) \/
    (exists j, cls_name c = canary_name j) \/
    (exists plugin sofar pending,
        plugin ∈ m_plugins cfg /\
        c ∈ plugin_additional_classes plugin sofar pending).
Proof.
  intros Hrun i bin c Hi Hc. apply run_Some in Hrun as (unref & _ & Hrun).
  destruct (run_with_stages _ _ _ _ _ Hrun) as (_ & _ & _ & Hout & Hp & _).
  unfold run_with in Hrun.
  apply bind_Ok in Hrun as ([] & s1 & Hpro & Hrun).
  apply bind_Ok in Hrun as (loc & s2 & Hw & Hrun).
  set (mixed0 := mixed_mode_classes (m_mixed_mode_info s)).
  pose proof (run_prologue_sourced _ _ _ _ Hpro) as HS1. fold mixed0 in HS1.
  assert (Hcl : forall s n x, sourced cfg mixed0 s ->
                              clookup (det s) !! n = Some x -> given cfg mixed0 x).
  { intros s' n x (H1 & _) Hl. left. apply (H1 n x Hl). }
  assert (Hmx : forall s x, sourced cfg mixed0 s ->
                            x ∈ mixed_mode_classes (m_mixed_mode_info s) ->
                            given cfg mixed0 x).
  { intros s' x (_ & H2 & _) Hx. right. left. auto. }
  assert (Hsc : forall x, x ∈ build_class_scope (m_dexen cfg) -> given cfg mixed0 x)
    by (intros x Hx; left; exact Hx).
  assert (Hlf : forall plugin x, plugin ∈ m_plugins cfg ->
                                 x ∈ plugin_leftover_classes plugin ->
                                 given cfg mixed0 x)
    by (intros plugin x Hpl Hx; right; right; eauto).
  destruct (priority_walk_given cfg (sourced cfg mixed0) (given cfg mixed0)
              (sourced_same cfg mixed0)
              (fun x dc chk Hx => sourced_emit cfg mixed0 x dc chk Hx)
              (sourced_flush cfg mixed0) Hcl Hmx
              _ _ _ _ _ HS1 Hw) as [HS2 _].
  destruct (run_epilogue_given cfg (sourced cfg mixed0) (given cfg mixed0)
              (sourced_same cfg mixed0)
              (fun x dc chk Hx => sourced_emit cfg mixed0 x dc chk Hx)
              (sourced_flush cfg mixed0) Hcl Hmx Hsc Hlf
              _ _ _ _ _ HS2 Hrun) as [(_ & _ & HS3) _].
  assert (Hin : c ∈ flat sf).
  { unfold flat. rewrite Hp, app_nil_r, <- Hout.
    apply elem_of_concat_lookup. eauto. }
  destruct (HS3 c Hin) as [[Hg|[Hg|Hg]]|[Hl|Hl]]; auto.
Qed.

Lemma output_classes_have_a_source_witness :
  run 0 two_dex_cfg (fresh_state no_mixed_mode) = Some (Ok two_dex_out two_dex_final) /\
  two_dex_out !! 1%nat = Some [ex_B; create_canary "Lsecondary/dex01/Canary;"] /\
  ex_B ∈ [ex_B; create_canary "Lsecondary/dex01/Canary;"] /\
  (ex_B ∈ build_class_scope (m_dexen two_dex_cfg) \/
   ex_B ∈ mixed_mode_classes (m_mixed_mode_info (fresh_state no_mixed_mode)) \/
   (exists plugin, plugin ∈ m_plugins two_dex_cfg /\
                   ex_B ∈ plugin_leftover_classes plugin) \/
   (exists j, cls_name ex_B = canary_name j) \/
   (exists plugin sofar pending,
       plugin ∈ m_plugins two_dex_cfg /\
       ex_B ∈ plugin_additional_classes plugin sofar pending)).
Proof.
  assert (H2 : two_dex_out !! 1%nat
               = Some [ex_B; create_canary "Lsecondary/dex01/Canary;"])
    by reflexivity.
  assert (H3 : ex_B ∈ [ex_B; create_canary "Lsecondary/dex01/Canary;"]) by left.
  split; [exact two_dex_run|]. split; [exact H2|]. split; [exact H3|].
  exact (output_classes_have_a_source two_dex_cfg 0 _ _ _ two_dex_run 1%nat _ _ H2 H3).
Defined.

(** ** Further concrete inputs and runs *)

Lemma flush_leaves_nothing_pending_witness :
  flush_out_secondary roomy_cfg s_empty_config false seen_state = Ok tt flushed_state /\
  outdex flushed_state = [[ex_A]] /\
  outs (det flushed_state) = [].
Proof.
  assert (H : flush_out_secondary roomy_cfg s_empty_config false seen_state
              = Ok tt flushed_state) by (vm_compute; reflexivity).
  split; [exact H|]. split; [reflexivity|].
  exact (proj1 (proj2 (flush_leaves_nothing_pending roomy_cfg s_empty_config false
                         s_empty_config false seen_state)) flushed_state H).
Defined.

Lemma emit_mixed_mode_classes_clears_witness :
  emit_mixed_mode_classes roomy_cfg [] true mixed_start = Ok tt mixed_done /\
  outdex mixed_done = [[ex_A]] /\
  mixed_mode_classes (m_mixed_mode_info mixed_done) = [] /\
  has_predefined_classes (m_mixed_mode_info mixed_done) = false /\
  outs (det mixed_done) = [].
Proof.
  assert (H : emit_mixed_mode_classes roomy_cfg [] true mixed_start
              = Ok tt mixed_done) by (vm_compute; reflexivity).
  split; [exact H|]. split; [reflexivity|].
  exact (emit_mixed_mode_classes_clears roomy_cfg [] true mixed_start mixed_done H).
Defined.

Lemma is_mixed_mode_dex_first_of_kind_witness :
  mixed_mode_status (m_mixed_mode_info (fresh_state no_mixed_mode)) = [] /\
  is_mixed_mode_dex (mk_dconfig true false false) (fresh_state no_mixed_mode) = false.
Proof.
  assert (H : mixed_mode_status (m_mixed_mode_info (fresh_state no_mixed_mode)) = [])
    by reflexivity.
  split; [exact H|].
  exact (proj1 (proj2 (is_mixed_mode_dex_first_of_kind (mk_dconfig true false false)
                         (fresh_state no_mixed_mode))) H).
Defined.

Lemma check_refs_count_one_sided_witness :
  gathered_mrefs [ex_R] ⊆ mrefs tracker_R /\
  gathered_frefs [ex_R] ⊆ frefs tracker_R /\
  check_refs_count tracker_R [ex_R] = (∅, ∅).
Proof.
  assert (H1 : gathered_mrefs [ex_R] ⊆ mrefs tracker_R).
  { change (mrefs tracker_R) with ({[ ref_m ]} : gset DexMethodRef).
    unfold gathered_mrefs. intros x Hx.
    apply elem_of_list_to_set in Hx. simpl in Hx.
    apply list_elem_of_singleton in Hx. apply elem_of_singleton. exact Hx. }
  assert (H2 : gathered_frefs [ex_R] ⊆ frefs tracker_R).
  { unfold gathered_frefs. intros x Hx.
    apply elem_of_list_to_set in Hx. simpl in Hx.
    apply elem_of_nil in Hx. contradiction. }
  split; [exact H1|]. split; [exact H2|].
  exact (proj1 (proj2 (proj2 (check_refs_count_one_sided tracker_R [ex_R]))) H1 H2).
Defined.

Lemma respect_primary_dex_before_first_marker_witness :
  respect_primary_dex ["LB;"; "LDexEndMarker0;"; "LA;"] [ex_A]
    = ["LA;"; "LB;"; "LDexEndMarker0;"; "LA;"] /\
  (forall c, c ∈ [ex_A] -> cls_name c <> "LDexEndMarker0;") /\
  ex_A ∈ [ex_A] /\
  (find_it (cls_name ex_A)
     (respect_primary_dex ["LB;"; "LDexEndMarker0;"; "LA;"] [ex_A])
   <= find_it "LDexEndMarker0;"
        (respect_primary_dex ["LB;"; "LDexEndMarker0;"; "LA;"] [ex_A]))%nat.
Proof.
  assert (H1 : forall c, c ∈ [ex_A] -> cls_name c <> "LDexEndMarker0;").
  { intros c Hc. apply list_elem_of_singleton in Hc. subst c. discriminate. }
  assert (H2 : ex_A ∈ [ex_A]) by left.
  split; [reflexivity|]. split; [exact H1|]. split; [exact H2|].
  exact (proj2 (proj2 (respect_primary_dex_before_first_marker
                         ["LB;"; "LDexEndMarker0;"; "LA;"] [ex_A])) H1 ex_A H2).
Defined.

Lemma pruner_reports_renamable_coldstart_witness :
  valid_set_order (set_order (order_cfg newest_first)) /\
  find_unrefenced_coldstart_classes 5 (order_cfg newest_first) [dy; dn; dw; dv]
    (main_det_of (order_cfg newest_first)) ["LW;"; "LN;"; "LY;"; "LV;"] true
    = Some order_unref /\
  dw ∈ order_unref /\
  cls_can_rename dw = true /\
  exists n, n ∈ ["LW;"; "LN;"; "LY;"; "LV;"] /\
            clookup (main_det_of (order_cfg newest_first)) !! n = Some dw.
Proof.
  assert (H1 : valid_set_order (set_order (order_cfg newest_first)))
    by exact newest_first_valid.
  assert (H2 : find_unrefenced_coldstart_classes 5 (order_cfg newest_first)
                 [dy; dn; dw; dv] (main_det_of (order_cfg newest_first))
                 ["LW;"; "LN;"; "LY;"; "LV;"] true = Some order_unref)
    by (vm_compute; reflexivity).
  assert (H3 : dw ∈ order_unref) by (vm_compute; left).
  split; [exact H1|]. split; [exact H2|]. split; [exact H3|].
  exact (pruner_reports_renamable_coldstart 5 (order_cfg newest_first) _ _ _ true
           order_unref H1 H2 dw H3).
Defined.

Lemma pruner_returns_when_nothing_renamable_witness :
  valid_set_order (set_order roomy_cfg) /\
  (forall n c, n ∈ @nil string -> clookup empty_tracker !! n = Some c ->
               cls_can_rename c = false) /\
  find_unrefenced_coldstart_classes 1 roomy_cfg [ex_A; ex_B] empty_tracker [] true
    = Some ∅.
Proof.
  assert (H1 : valid_set_order (set_order roomy_cfg)) by exact newest_first_valid.
  assert (H2 : forall n c, n ∈ @nil string -> clookup empty_tracker !! n = Some c ->
                           cls_can_rename c = false).
  { intros n c Hn. apply elem_of_nil in Hn. contradiction. }
  split; [exact H1|]. split; [exact H2|].
  exact (pruner_returns_when_nothing_renamable 0 roomy_cfg [ex_A; ex_B] empty_tracker
           [] H1 H2).
Defined.

Lemma sanity_check_blames_late_classes_witness :
  plugins_extend (m_plugins two_dex_cfg) /\
  walk_state two_dex_cfg ∅ (fresh_state no_mixed_mode) 1
    = Ok two_dex_loc1 two_dex_walk1 /\
  outs (det two_dex_walk1) = [ex_B] /\
  mrefs (det two_dex_walk1) = bin_mrefs two_dex_cfg (outs (det two_dex_walk1)) /\
  frefs (det two_dex_walk1) = bin_frefs two_dex_cfg (outs (det two_dex_walk1)) /\
  la_size (det two_dex_walk1) = wrap32 (la_sum (outs (det two_dex_walk1))).
Proof.
  assert (H1 : plugins_extend (m_plugins two_dex_cfg)).
  { intros plugin cls refs Hp. apply elem_of_nil in Hp. contradiction. }
  assert (H2 : walk_state two_dex_cfg ∅ (fresh_state no_mixed_mode) 1
               = Ok two_dex_loc1 two_dex_walk1) by (vm_compute; reflexivity).
  split; [exact H1|]. split; [exact H2|]. split; [reflexivity|].
  exact (proj1 (sanity_check_blames_late_classes two_dex_cfg H1) _ _ _ _ _ H2).
Defined.

Lemma placed_classes_keep_their_place_witness :
  walk_state two_dex_cfg ∅ (fresh_state no_mixed_mode) 1
    = Ok two_dex_loc1 two_dex_walk1 /\
  run_with two_dex_cfg ∅ (fresh_state no_mixed_mode) = Ok two_dex_out two_dex_final /\
  outdex two_dex_walk1 = [[ex_A]] /\
  outs (det two_dex_walk1) = [ex_B] /\
  outdex two_dex_walk1 `prefix_of` two_dex_out /\
  exists added,
    concat two_dex_out
    = concat (outdex two_dex_walk1) ++ outs (det two_dex_walk1) ++ added.
Proof.
  assert (H1 : walk_state two_dex_cfg ∅ (fresh_state no_mixed_mode) 1
               = Ok two_dex_loc1 two_dex_walk1) by (vm_compute; reflexivity).
  assert (H2 : run_with two_dex_cfg ∅ (fresh_state no_mixed_mode)
               = Ok two_dex_out two_dex_final) by (vm_compute; reflexivity).
  split; [exact H1|]. split; [exact H2|]. split; [reflexivity|].
  split; [reflexivity|].
  exact (placed_classes_keep_their_place two_dex_cfg ∅ _ 1%nat _ _ _ _ H1 H2).
Defined.

(** ** Where a run can abort *)

Section Guarded.

Variable I : InterDexState -> Prop.

Variable P : string -> Prop.

Lemma guarded_ret {A} (a : A) : guarded I P (mret a).
Proof. intros s HI. exact HI. Qed.

Lemma guarded_bind {A B} (m : M A) (f : A -> M B) :
guarded I P m -> (forall a, guarded I P (f a)) -> guarded I P (m ≫= f).
Proof.
intros Hm Hf s HI. specialize (Hm s HI). unfold mbind, M_bind.
destruct (m s) as [a s1|msg s1]; [apply Hf, Hm | exact Hm].
Qed.

Lemma guarded_get {A} (f : InterDexState -> M A) :
(forall s0, I s0 -> guarded I P (f s0)) -> guarded I P (get_state ≫= f).
Proof. intros Hf s HI. exact (Hf s HI s HI). Qed.

Lemma guarded_assert b msg :
(b = false -> P msg) -> guarded I P (always_assert_log b msg).
Proof. intros Hb s HI. unfold always_assert_log. destruct b; auto. Qed.

Lemma guarded_modify (f : InterDexState -> InterDexState) :
(forall s, I s -> I (f s)) -> guarded I P (modify_state f).
Proof. intros Hf s HI. apply Hf, HI. Qed.

Lemma guarded_for_each {A} (l : list A) (body : A -> M unit) :
(forall x, x ∈ l -> guarded I P (body x)) -> guarded I P (for_each l body).
Proof.
induction l as [|x l IH]; intros Hb; simpl.
- apply guarded_ret.
- apply guarded_bind; [apply Hb; left|].
  intros _. apply IH. intros y Hy. apply Hb. right. exact Hy.
Qed.

Lemma guarded_for_each_acc {A B} (l : list A) (body : B -> A -> M B) acc :
(forall b x, x ∈ l -> guarded I P (body b x)) ->
guarded I P (for_each_acc l acc body).
Proof.
revert acc. induction l as [|x l IH]; intros acc Hb; simpl.
- apply guarded_ret.
- apply guarded_bind; [apply Hb; left|].
  intros acc'. apply IH. intros b y Hy. apply Hb. right. exact Hy.
Qed.

End Guarded.

Lemma mixed_flags_same mmi0 s s' :
  m_mixed_mode_info s' = m_mixed_mode_info s -> mixed_flags mmi0 s -> mixed_flags mmi0 s'.
Proof. unfold mixed_flags. intros ->. auto. Qed.

Lemma guarded_flush_out_dex cfg mmi0 :
  guarded (mixed_flags mmi0) (abort_site cfg mmi0) (flush_out_dex cfg).
Proof. intros s HI. rewrite flush_out_dex_eq. exact HI. Qed.

Lemma guarded_flush cfg mmi0 dconfig mm :
  guarded (mixed_flags mmi0) (abort_site cfg mmi0)
    (flush_out_secondary cfg dconfig mm).
Proof.
  intros s HI. rewrite flush_out_secondary_eq.
  destruct (bool_decide (outs (det s) = [])); [exact HI|].
  destruct (m_emit_canaries cfg) eqn:Hcan; [|rewrite flush_out_dex_eq; exact HI].
  destruct (Z.of_nat (length (outdex s)) <=? kMaxDexNum);
    [|right; left; auto].
  destruct (mm || is_mixed_mode_dex dconfig s);
    [|rewrite flush_out_dex_eq; exact HI].
  destruct (Nat.eqb (m_num_mixed_mode_dexes s) 0);
    [rewrite flush_out_dex_eq; exact HI | right; right; left; auto].
Qed.

Lemma guarded_emit cfg mmi0 c dconfig is_primary check_if_skip :
  (is_primary = true -> m_normal_primary_dex cfg = false) ->
  guarded (mixed_flags mmi0) (abort_site cfg mmi0)
    (emit_class cfg c dconfig is_primary check_if_skip).
Proof.
  intros Hp s HI. rewrite emit_class_eq.
  destruct (passes_guards cfg c is_primary check_if_skip s); [|exact HI].
  destruct (overflows cfg (det s) c); [|exact HI].
  destruct is_primary; [left; auto|].
  pose proof (guarded_flush cfg mmi0 dconfig false s HI) as Hfl.
  destruct (flush_out_secondary cfg dconfig false s) as [[] s1|msg s1];
    [exact Hfl | exact Hfl].
Qed.

Section Aborts.

Variable cfg : InterDexConfig.

Variable mmi0 : MixedModeInfo.

Abbreviation J := (mixed_flags mmi0).

Abbreviation Q := (abort_site cfg mmi0).

Ltac flags_kept :=
let s := fresh "s" in
let H1 := fresh "H" in
let H2 := fresh "H" in
let H3 := fresh "H" in
intros s (H1 & H2 & H3); unfold mixed_flags; simpl;
split; [exact H1|]; split; [exact H2|];
let Hm := fresh "Hm" in
intros Hm; try rewrite (H3 Hm); reflexivity.

Ltac guard_step :=
lazymatch goal with
| |- guarded _ _ (mret _) => apply guarded_ret
| |- guarded _ _ (emit_class _ _ _ false _) =>
    apply guarded_emit; intros ?; discriminate
| |- guarded _ _ (flush_out_secondary _ _ _) => apply guarded_flush
| |- guarded _ _ (flush_out_dex _) => apply guarded_flush_out_dex
| |- guarded _ _ (modify_state _) => apply guarded_modify; flags_kept
| |- guarded _ _ (get_state ≫= _) => apply guarded_get; intros ? ?
| |- guarded _ _ (for_each _ _) => apply guarded_for_each; intros ? _
| |- guarded _ _ (for_each_acc _ _ _) => apply guarded_for_each_acc; intros ? ? _
| |- guarded _ _ (match ?x with Some _ => _ | None => _ end) => destruct x
| |- guarded _ _ (if ?b then _ else _) => destruct b eqn:?
| |- guarded _ _ (_ ≫= _) => apply guarded_bind; [|intros ?]
end.

Lemma emit_mixed_mode_classes_guarded interdexorder can_touch :
guarded J Q (emit_mixed_mode_classes cfg interdexorder can_touch).
Proof. unfold emit_mixed_mode_classes. repeat guard_step. Qed.

Lemma walk_entry_guarded interdexorder unreferenced loc position :
guarded J Q (walk_entry cfg interdexorder unreferenced loc position).
Proof.
pose proof emit_mixed_mode_classes_guarded as Hm.
unfold walk_entry. cbv zeta.
repeat first [apply Hm | guard_step].
apply guarded_assert. intros Hb.
match goal with
| HI : mixed_flags _ ?s0,
  Hc : negb (can_touch_coldstart_set (m_mixed_mode_info ?s0)) && _ = true |- _ =>
    destruct HI as (Hf1 & Hf2 & Hf3);
    apply andb_true_iff in Hc as [Hc1 Hc2];
    apply negb_true_iff in Hc1
end.
right. right. right. split; [reflexivity|].
split; [|split; congruence].
intros Hnil. unfold is_mixed_mode_class in Hc2.
rewrite (Hf3 Hnil) in Hc2. apply bool_decide_eq_true in Hc2.
apply elem_of_nil in Hc2. exact Hc2.
Qed.

Lemma priority_walk_guarded unreferenced n :
guarded J Q (priority_walk cfg unreferenced n).
Proof.
pose proof walk_entry_guarded as Hw.
unfold priority_walk. cbv zeta. repeat first [apply Hw | guard_step].
Qed.

Lemma run_epilogue_guarded unreferenced loc :
guarded J Q (run_epilogue cfg unreferenced loc).
Proof.
pose proof emit_mixed_mode_classes_guarded as Hm.
unfold run_epilogue. cbv zeta. repeat first [apply Hm | guard_step].
Qed.

Lemma run_prologue_guarded unreferenced :
guarded J Q (run_prologue cfg unreferenced).
Proof.
unfold run_prologue. cbv zeta.
apply guarded_bind; [apply guarded_modify; flags_kept|]. intros _.
destruct (m_normal_primary_dex cfg) eqn:Hnp; simpl; [apply guarded_ret|].
unfold emit_primary_dex. cbv zeta.
repeat first [ apply guarded_emit; intros _; exact Hnp | guard_step ].
Qed.

Lemma run_with_guarded unreferenced :
guarded J Q (run_with cfg unreferenced).
Proof.
unfold run_with.
apply guarded_bind; [apply run_prologue_guarded|]. intros _.
apply guarded_bind; [apply priority_walk_guarded|]. intros loc.
apply run_epilogue_guarded.
Qed.

End Aborts.

(** X19. A run aborts at one of four assertions only, each under its own
    condition: the early flush of a primary dex that is kept apart; the dex
    number beyond 99 and the second mixed-mode dex, both only when canaries
    are emitted; and the mixed-mode class met after the end marker, only
    when the run started with mixed-mode classes and neither capability
    flag. So a run that packs the primary dex like any other, emits no
    canaries and has no mixed-mode class returns its bins whenever the
    pruner returns. *)
Theorem run_aborts_at_assertions_only cfg fuel s :
  (forall msg s',
      run fuel cfg s = Some (Fatal msg s') ->
      abort_site cfg (m_mixed_mode_info s) msg) /\
  (m_normal_primary_dex cfg = true -> m_emit_canaries cfg = false ->
   mixed_mode_classes (m_mixed_mode_info s) = [] ->
   forall unreferenced,
     find_unrefenced_coldstart_classes fuel cfg (build_class_scope (m_dexen cfg))
       (main_det_of cfg) (coldstart_class_names cfg) (m_static_prune_classes cfg)
       = Some unreferenced ->
     exists out sf, run fuel cfg s = Some (Ok out sf)).
Proof.
  assert (Hg : forall unreferenced,
             match run_with cfg unreferenced s with
             | Ok _ _ => True
             | Fatal msg _ => abort_site cfg (m_mixed_mode_info s) msg
             end).
  { intros unreferenced.
    pose proof (run_with_guarded cfg (m_mixed_mode_info s) unreferenced s) as H.
    destruct (run_with cfg unreferenced s); [exact I|].
    apply H. repeat split; auto. }
  split.
  - intros msg s' Hrun. unfold run in Hrun.
    destruct (find_unrefenced_coldstart_classes _ _ _ _ _ _) as [unref|];
      [|discriminate].
    injection Hrun as Hrun. specialize (Hg unref). rewrite Hrun in Hg. exact Hg.
  - intros Hnp Hcan Hmix unreferenced Hun. unfold run.
    change (mk_det 0 ∅ ∅ [] ∅ (build_clookup (m_dexen cfg))) with (main_det_of cfg).
    rewrite Hun. specialize (Hg unreferenced).
    destruct (run_with cfg unreferenced s) as [out sf|msg sf]; [eauto|].
    exfalso. destruct Hg as [[_ H]|[[_ H]|[[_ H]|(_ & H & _)]]]; congruence.
Qed.

(** ** What the priority walk leaves to the end *)

Section Skips.

Variable cfg : InterDexConfig.

Variable unreferenced : listset DexClass.

Hypothesis Hex : extras_outside cfg.

Abbreviation Sk := (skips cfg unreferenced).

Abbreviation Any := (fun _ _ : InterDexState => True).

Lemma Any_refl2 (s : InterDexState) : Any s s.
Proof. exact I. Qed.

Lemma Any_trans2 (s1 s2 s3 : InterDexState) : Any s1 s2 -> Any s2 s3 -> Any s1 s3.
Proof. intros _ _. exact I. Qed.

Lemma skips_get {A} (f : InterDexState -> M A) :
(forall s0, Sk s0 -> respects Sk Any (f s0)) -> respects Sk Any (get_state ≫= f).
Proof. intros Hf s a s' HI Hrun. exact (Hf s HI s a s' HI Hrun). Qed.

Lemma skips_modify (f : InterDexState -> InterDexState) :
(forall s, det (f s) = det s /\ outdex (f s) = outdex s /\
           (mixed_mode_classes (m_mixed_mode_info s) = [] ->
            mixed_mode_classes (m_mixed_mode_info (f s)) = [])) ->
respects Sk Any (modify_state f).
Proof.
intros Hf s [] s' (H1 & H2 & H3) [= <-]. split; [|exact I].
destruct (Hf s) as (Hd & Ho & Hm). unfold skips, flat. rewrite Hd, Ho. auto.
Qed.

Lemma skips_flush dconfig mm :
respects Sk Any (flush_out_secondary cfg dconfig mm).
Proof.
intros s [] s' HS Hfl. split; [|exact I].
destruct (decide (outs (det s) = [])) as [He|Hne].
{ rewrite flush_out_secondary_empty in Hfl by exact He. injection Hfl as <-.
  exact HS. }
pose proof (flat_after_flush _ _ _ _ _ Hne Hfl) as Hflat.
destruct (flush_out_secondary_Ok _ _ _ _ _ Hne Hfl)
  as (_ & _ & Hem & Hcl & Hmi & _).
destruct HS as (H1 & H2 & H3). unfold skips.
rewrite Hcl, Hmi, Hflat, Hem. split; [exact H1|]. split; [exact H2|].
assert (Hadd : forall c,
           c ∈ plugin_additions (m_plugins cfg) (outdex s) (sealed_pending cfg s) ->
           c ∈ build_class_scope (m_dexen cfg) -> is_canary c = true).
{ intros c Hc Hsc. pose proof (plugin_additions_outside _ _ _ _ Hex Hc) as Hcnt.
  unfold counted in Hcnt. rewrite bool_decide_eq_true_2 in Hcnt by exact Hsc.
  simpl in Hcnt. apply negb_false_iff in Hcnt. exact Hcnt. }
intros c [Hc|Hc] Hu Hsc.
- apply elem_of_app in Hc as [Hc|Hc]; [auto|].
  apply elem_of_app in Hc as [Hc|Hc]; [|auto].
  destruct (m_emit_canaries cfg); [|apply elem_of_nil in Hc; contradiction].
  apply list_elem_of_singleton in Hc. subst c.
  eapply is_canary_named, find_canary_name, H1.
- apply elem_of_set_insert_all in Hc as [Hc|Hc]; auto.
Qed.

Lemma skips_emit c dconfig check_if_skip :
c ∉ unreferenced ->
respects Sk Any (emit_class cfg c dconfig false check_if_skip).
Proof.
intros Hn s [] s' HS. rewrite emit_class_eq. split; [|exact I].
destruct (passes_guards cfg c false check_if_skip s);
  [|injection H as <-; exact HS].
assert (Hadmit : forall s1, Sk s1 -> Sk (admit_in cfg c s1)).
{ intros s1 (H1 & H2 & H3). unfold skips, flat. simpl.
  split; [exact H1|]. split; [exact H2|].
  intros x [Hx|Hx] Hu Hsc.
  - rewrite app_assoc in Hx. apply elem_of_app in Hx as [Hx|Hx]; [auto|].
    apply list_elem_of_singleton in Hx. subst x. contradiction.
  - apply elem_of_set_insert in Hx as [->|Hx]; [contradiction | auto]. }
destruct (overflows cfg (det s) c).
- destruct (flush_out_secondary cfg dconfig false s) as [[] s1|] eqn:Hfl;
    [|discriminate].
  injection H as <-. apply Hadmit.
  exact (proj1 (skips_flush dconfig false _ _ _ HS Hfl)).
- injection H as <-. apply Hadmit, HS.
Qed.

Ltac no_mixed_class :=
match goal with
| HS : skips _ _ ?s0, Hc : is_mixed_mode_class (m_mixed_mode_info ?s0) _ = true |- _ =>
    exfalso; destruct HS as (_ & HS & _); unfold is_mixed_mode_class in Hc;
    rewrite HS in Hc; apply bool_decide_eq_true, elem_of_nil in Hc; exact Hc
| HS : skips _ _ ?s0, Hc : negb _ && is_mixed_mode_class (m_mixed_mode_info ?s0) _ = true |- _ =>
    exfalso; destruct HS as (_ & HS & _); apply andb_true_iff in Hc as [_ Hc];
    unfold is_mixed_mode_class in Hc;
    rewrite HS in Hc; apply bool_decide_eq_true, elem_of_nil in Hc; exact Hc
| HS : skips _ _ ?s0, Hc : _ ∈ mixed_mode_classes (m_mixed_mode_info ?s0) |- _ =>
    exfalso; destruct HS as (_ & HS & _); rewrite HS in Hc;
    apply elem_of_nil in Hc; exact Hc
end.

Ltac skip_step :=
lazymatch goal with
| |- respects _ _ (mret _) => apply (respects_ret Sk Any Any_refl2)
| |- respects _ _ (flush_out_secondary _ _ _) => apply skips_flush
| |- respects _ _ (modify_state _) =>
    apply skips_modify; intros ?; simpl; repeat split; auto
| |- respects _ _ (get_state ≫= _) => apply skips_get; intros ? ?
| |- respects _ _ (for_each _ _) =>
    apply (respects_for_each Sk Any Any_refl2 Any_trans2); intros ? ?
| |- respects _ _ (for_each_acc _ _ _) =>
    apply (respects_for_each_acc Sk Any Any_refl2 Any_trans2); intros ? ? ?
| |- respects _ _ (match ?x with Some _ => _ | None => _ end) => destruct x eqn:?
| |- respects _ _ (if ?b then _ else _) => destruct b eqn:?
| |- respects _ _ (_ ≫= _) => apply (respects_bind Sk Any Any_trans2); [|intros ?]
end.

Lemma emit_mixed_mode_classes_skips interdexorder can_touch :
respects Sk Any (emit_mixed_mode_classes cfg interdexorder can_touch).
Proof.
unfold emit_mixed_mode_classes.
repeat first [ skip_step | no_mixed_class ].
Qed.

Lemma walk_entry_skips interdexorder loc position :
respects Sk Any (walk_entry cfg interdexorder unreferenced loc position).
Proof.
pose proof emit_mixed_mode_classes_skips as Hm.
unfold walk_entry. cbv zeta.
repeat first [ apply Hm | skip_step | no_mixed_class ].
apply skips_emit.
match goal with
| H : bool_decide (_ ∈ unreferenced) = false |- _ =>
    apply bool_decide_eq_false in H; exact H
end.
Qed.

Lemma walk_state_skips s n loc sn :
m_normal_primary_dex cfg = true ->
mixed_mode_classes (m_mixed_mode_info s) = [] ->
walk_state cfg unreferenced s n = Ok loc sn ->
Sk sn.
Proof.
intros Hnp Hmix Hw. unfold walk_state in Hw.
apply bind_Ok in Hw as ([] & s1 & Hp & Hw).
unfold run_prologue in Hp.
apply bind_Ok in Hp as ([] & s0 & H0 & Hp). injection H0 as <-.
rewrite Hnp in Hp. simpl in Hp. injection Hp as <-.
assert (HS1 : Sk (set_det (mk_det 0 ∅ ∅ [] ∅ (build_clookup (m_dexen cfg)))
                   (set_outdex [] s))).
{ unfold skips, flat. simpl. split; [|split; [exact Hmix|]].
  - intros k c Hl. apply build_clookup_lookup in Hl. apply Hl.
  - intros c [Hc|Hc]; [apply elem_of_nil in Hc | apply not_elem_of_empty in Hc];
      contradiction. }
unfold priority_walk in Hw. rewrite get_bind in Hw.
eapply (respects_for_each_acc Sk Any Any_refl2 Any_trans2); [|exact HS1|exact Hw].
intros b x _. apply walk_entry_skips.
Qed.

End Skips.

(** X20. Pruning defers, it does not drop. In a run that packs the primary
    dex like any other dex and has no mixed-mode class, with plugins that
    hand no input class to a flush, the priority walk places no input class
    that the pruner reported, canaries aside; such a class, unless a plugin
    vetoes it, is placed after everything the walk has placed. *)
Theorem pruned_classes_come_after_the_walk cfg unreferenced s out sf :
  m_normal_primary_dex cfg = true ->
  mixed_mode_classes (m_mixed_mode_info s) = [] ->
  extras_outside cfg ->
  run_with cfg unreferenced s = Ok out sf ->
  exists loc s2 added,
    walk_state cfg unreferenced s (length (walk_order cfg)) = Ok loc s2 /\
    concat out = flat s2 ++ added /\
    forall c, c ∈ unreferenced -> c ∈ build_class_scope (m_dexen cfg) ->
              is_canary c = false ->
              (c ∉ flat s2) /\
              (should_skip_class (m_plugins cfg) c = false -> c ∈ added).
Proof.
  intros Hnp Hmix Hex Hrun.
  destruct (run_with_Inv _ _ _ _ _ Hrun)
    as (loc & s2 & Hw & HI & HE & -> & Hp & Hcov).
  destruct (ext_flat _ _ HE) as [added Hf].
  exists loc, s2, added. split; [exact Hw|].
  assert (Hflat : flat sf = concat (outdex sf))
    by (unfold flat; rewrite Hp, app_nil_r; reflexivity).
  split; [rewrite <- Hflat; exact Hf|].
  intros c Hu Hsc Hnc.
  destruct (walk_state_skips cfg unreferenced Hex _ _ _ _ Hnp Hmix Hw)
    as (_ & _ & HS).
  assert (Hout : c ∉ flat s2).
  { intros Hin. rewrite (HS c (or_introl Hin) Hu Hsc) in Hnc. discriminate. }
  split; [exact Hout|]. intros Hns.
  assert (Hin : c ∈ flat sf).
  { destruct (Hcov c Hsc) as [Hem|[Hv|[[_ Hv]|(_ & _ & Hv)]]].
    - eapply inv_placed; eassumption.
    - congruence.
    - congruence.
    - rewrite Hmix in Hv. apply elem_of_nil in Hv. contradiction. }
  rewrite Hf in Hin. apply elem_of_app in Hin as [Hin|Hin]; [contradiction|exact Hin].
Qed.

Lemma pruned_classes_come_after_the_walk_witness :
  m_normal_primary_dex (order_cfg newest_first) = true /\
  mixed_mode_classes (m_mixed_mode_info (fresh_state no_mixed_mode)) = [] /\
  extras_outside (order_cfg newest_first) /\
  run_with (order_cfg newest_first) order_unref (fresh_state no_mixed_mode)
    = Ok [[dn; dy; dw; dv]] order_final /\
  exists loc s2 added,
    walk_state (order_cfg newest_first) order_unref (fresh_state no_mixed_mode)
      (length (walk_order (order_cfg newest_first))) = Ok loc s2 /\
    concat [[dn; dy; dw; dv]] = flat s2 ++ added /\
    forall c, c ∈ order_unref ->
              c ∈ build_class_scope (m_dexen (order_cfg newest_first)) ->
              is_canary c = false ->
              (c ∉ flat s2) /\
              (should_skip_class (m_plugins (order_cfg newest_first)) c = false ->
               c ∈ added).
Proof.
  assert (H1 : m_normal_primary_dex (order_cfg newest_first) = true) by reflexivity.
  assert (H2 : mixed_mode_classes (m_mixed_mode_info (fresh_state no_mixed_mode)) = [])
    by reflexivity.
  assert (H3 : extras_outside (order_cfg newest_first))
    by (apply no_plugins_extras_outside; reflexivity).
  assert (H4 : run_with (order_cfg newest_first) order_unref
                 (fresh_state no_mixed_mode) = Ok [[dn; dy; dw; dv]] order_final)
    by (vm_compute; reflexivity).
  split; [exact H1|]. split; [exact H2|]. split; [exact H3|]. split; [exact H4|].
  exact (pruned_classes_come_after_the_walk _ _ _ _ _ H1 H2 H3 H4).
Defined.

Lemma run_aborts_at_assertions_only_witness :
  m_normal_primary_dex roomy_cfg = true /\
  m_emit_canaries roomy_cfg = false /\
  mixed_mode_classes (m_mixed_mode_info (fresh_state no_mixed_mode)) = [] /\
  exists out sf, run 0 roomy_cfg (fresh_state no_mixed_mode) = Some (Ok out sf).
Proof.
  assert (H1 : m_normal_primary_dex roomy_cfg = true) by reflexivity.
  assert (H2 : m_emit_canaries roomy_cfg = false) by reflexivity.
  assert (H3 : mixed_mode_classes (m_mixed_mode_info (fresh_state no_mixed_mode)) = [])
    by reflexivity.
  assert (H4 : find_unrefenced_coldstart_classes 0 roomy_cfg
                 (build_class_scope (m_dexen roomy_cfg)) (main_det_of roomy_cfg)
                 (coldstart_class_names roomy_cfg) (m_static_prune_classes roomy_cfg)
               = Some ∅) by reflexivity.
  split; [exact H1|]. split; [exact H2|]. split; [exact H3|].
  exact (proj2 (run_aborts_at_assertions_only roomy_cfg 0 (fresh_state no_mixed_mode))
           H1 H2 H3 ∅ H4).
Defined.

(** * The output as a whole *)

(** ** What stays in the output, whether the run returns or aborts *)

Section Grows.

Variable cfg : InterDexConfig.
















End Grows.

(** ** The primary dex that holds no class *)





(** ** Two dexes that carry the mixed-mode flag *)

(** C7, counterexample. The run seals two dexes that carry the mixed-mode
    flag, the first cold-start dex at the end marker and the first dex of
    the extended set when [LC;] does not fit. With canary emission disabled
    it returns its three bins: the second flagged dex is sealed without an
    assertion, the counter of mixed-mode dexes stays at 0 and nothing is
    written to mixed_mode.txt. With canaries, the same input aborts. *)
Lemma flush_out_secondary_mixed_mode_counterexample :
  (match run 0 (two_mixed_cfg false) (fresh_state two_status) with
   | Some (Ok out sf) =>
       out = [[ex_A]; [ex_B]; [ex_C]] /\
       m_num_mixed_mode_dexes sf = 0%nat /\ mixed_mode_txt sf = ""
   | _ => False
   end) /\
  (match walk_state (two_mixed_cfg false) ∅ (fresh_state two_status) 1 with
   | Ok loc s1 =>
       outdex s1 = [] /\ outs (det s1) = [ex_A] /\
       is_mixed_mode_dex (dconfig_ loc) s1 = true
   | Fatal _ _ => False
   end) /\
  (match walk_state (two_mixed_cfg false) ∅ (fresh_state two_status) 3 with
   | Ok loc s3 =>
       outdex s3 = [[ex_A]] /\ outs (det s3) = [ex_B] /\
       dconfig_ loc = extended_dconfig /\
       overflows (two_mixed_cfg false) (det s3) ex_C = true /\
       is_mixed_mode_dex extended_dconfig s3 = true /\
       match flush_out_secondary (two_mixed_cfg false) extended_dconfig false s3 with
       | Ok _ s' =>
           outdex s' = [[ex_A]; [ex_B]] /\
           m_num_mixed_mode_dexes s' = 0%nat /\ mixed_mode_txt s' = ""
       | Fatal _ _ => False
       end
   | Fatal _ _ => False
   end) /\
  (match run 0 (two_mixed_cfg true) (fresh_state two_status) with
   | Some (Fatal msg _) => msg = "For now we only accept 1 mixed mode dex."
   | _ => False
   end).
Proof. vm_compute. repeat split. Qed.

Lemma two_mixed_reaches_walk3 :
  exists loc,
    walk_state (two_mixed_cfg true) ∅ (fresh_state two_status) 3
      = Ok loc two_mixed_walk3.
Proof. eexists. vm_compute. reflexivity. Qed.

Lemma flush_out_secondary_mixed_mode_witness :
  m_emit_canaries (two_mixed_cfg true) = true /\
  outs (det two_mixed_walk3) <> [] /\
  (length (outdex two_mixed_walk3) <= 99)%nat /\
  false || is_mixed_mode_dex extended_dconfig two_mixed_walk3 = true /\
  (m_num_mixed_mode_dexes two_mixed_walk3 <> O ->
   exists msg s1,
     flush_out_secondary (two_mixed_cfg true) extended_dconfig false two_mixed_walk3
       = Fatal msg s1 /\
     outdex s1 = outdex two_mixed_walk3).
Proof.
  assert (H1 : m_emit_canaries (two_mixed_cfg true) = true) by reflexivity.
  assert (H2 : outs (det two_mixed_walk3) <> []) by (simpl; discriminate).
  assert (H3 : (length (outdex two_mixed_walk3) <= 99)%nat) by (simpl; lia).
  assert (H4 : false || is_mixed_mode_dex extended_dconfig two_mixed_walk3 = true)
    by reflexivity.
  repeat (split; [assumption|]).
  exact (proj1 (flush_out_secondary_mixed_mode (two_mixed_cfg true) extended_dconfig
                  false two_mixed_walk3 H1 H2 H3 H4)).
Defined.

(** ** The empty primary dex *)


(** ** The steps of the priority walk *)

Lemma find_it_absent x l : x ∉ l -> find_it x l = length l.
Proof.
  intros Hn. pose proof (find_it_le x l) as Hle.
  destruct (decide (find_it x l < length l)%nat) as [Hlt|Hge]; [|lia].
  apply find_it_lt_elem in Hlt. contradiction.
Qed.

Lemma find_it_lookup x l : x ∈ l -> l !! find_it x l = Some x.
Proof.
  induction l as [|y l IH]; simpl.
  - intros H. apply elem_of_nil in H. contradiction.
  - intros H. destruct (String.eqb y x) eqn:He.
    + apply String.eqb_eq in He. subst y. reflexivity.
    + apply String.eqb_neq in He. apply elem_of_cons in H as [->|H]; [congruence|].
      simpl. auto.
Qed.

Lemma nil_of_no_elem {A} (l : list A) : (forall x, x ∈ l -> x ∈ @nil A) -> l = [].
Proof.
  destruct l as [|x l]; [reflexivity|]. intros H.
  specialize (H x ltac:(left)). apply elem_of_nil in H. contradiction.
Qed.

(** The step of the walk at position [k]. *)
Lemma walk_state_step cfg unreferenced s k entry loc' s' :
  walk_order cfg !! k = Some entry ->
  walk_state cfg unreferenced s (S k) = Ok loc' s' ->
  exists loc sk,
    walk_state cfg unreferenced s k = Ok loc sk /\
    walk_entry cfg (walk_order cfg) unreferenced loc (k, entry) sk = Ok loc' s'.
Proof.
  intros He Hw. unfold walk_state in Hw.
  apply bind_Ok in Hw as ([] & s1 & H1 & Hw).
  unfold priority_walk in Hw. rewrite get_bind in Hw. cbv zeta in Hw.
  assert (Hpos : positions (walk_order cfg) !! k = Some (k, entry)).
  { unfold positions. rewrite list_lookup_imap, He. reflexivity. }
  rewrite (take_S_r _ _ _ Hpos), for_each_acc_app in Hw.
  destruct (for_each_acc (take k (positions (walk_order cfg))) _ _ s1)
    as [loc sk|] eqn:Hk; [|discriminate].
  exists loc, sk. split.
  - unfold walk_state. rewrite (bind_Ok_intro _ _ _ _ _ H1).
    unfold priority_walk. rewrite get_bind. exact Hk.
  - simpl in Hw. unfold mbind, M_bind in Hw.
    destruct (walk_entry cfg (walk_order cfg) unreferenced loc (k, entry) sk)
      as [l2 s2|]; [|discriminate].
    exact Hw.
Qed.

Lemma run_prologue_clookup cfg unreferenced s s1 :
  run_prologue cfg unreferenced s = Ok tt s1 ->
  clookup (det s1) = build_clookup (m_dexen cfg).
Proof.
  unfold run_prologue. intros Hp.
  apply bind_Ok in Hp as ([] & s0 & H0 & Hp). injection H0 as <-.
  destruct (m_normal_primary_dex cfg); simpl in Hp.
  - injection Hp as <-. reflexivity.
  - apply emit_primary_dex_covers in Hp as (Hdet & _); [|reflexivity].
    rewrite Hdet. reflexivity.
Qed.

Lemma walk_state_clookup cfg unreferenced s n loc sn :
  walk_state cfg unreferenced s n = Ok loc sn ->
  clookup (det sn) = build_clookup (m_dexen cfg).
Proof.
  intros Hw. destruct (walk_state_Inv _ _ _ _ _ _ Hw) as (_ & s1 & H1 & _ & HE & _).
  rewrite (ext_clookup _ _ HE). eapply run_prologue_clookup, H1.
Qed.

(** ** The mixed-mode classes that are left *)

Lemma Inv_fewer_mixed cfg Adm k mixed0 mixed1 s :
  Inv cfg Adm k mixed0 s ->
  (forall c, c ∈ mixed_mode_classes (m_mixed_mode_info s) -> c ∈ mixed1) ->
  Inv cfg Adm k mixed1 s.
Proof. intros [H1 H2 H3 H4 H5 H6 H7 H8] Hm. split; assumption. Qed.

Lemma emit_mixed_mode_classes_none_left cfg interdexorder can_touch s s' :
  emit_mixed_mode_classes cfg interdexorder can_touch s = Ok tt s' ->
  mixed_mode_classes (m_mixed_mode_info s') = [].
Proof.
  unfold emit_mixed_mode_classes. intros Hrun.
  apply bind_Ok in Hrun as ([] & s1 & _ & Hrun). rewrite get_bind in Hrun.
  apply bind_Ok in Hrun as ([] & s2 & _ & Hrun). rewrite get_bind in Hrun.
  apply bind_Ok in Hrun as ([] & s3 & _ & Hrun).
  injection Hrun as <-. reflexivity.
Qed.

Lemma flush_out_secondary_mixed_info cfg dconfig mm s s' :
  flush_out_secondary cfg dconfig mm s = Ok tt s' ->
  m_mixed_mode_info s' = m_mixed_mode_info s.
Proof.
  intros Hf. destruct (decide (outs (det s) = [])) as [He|Hne].
  - rewrite flush_out_secondary_empty in Hf by exact He. injection Hf as <-.
    reflexivity.
  - apply (flush_out_secondary_Ok _ _ _ _ _ Hne Hf).
Qed.

(** The step at the end marker of the cold-start set, when the marker is
    not the name of a class: the mixed-mode classes are emitted, none is
    left. *)
Lemma walk_entry_marker cfg interdexorder unreferenced loc s loc' s' :
  clookup (det s) !! "LDexEndMarker1;" = None ->
  walk_entry cfg interdexorder unreferenced loc
    (find_it "LDexEndMarker1;" interdexorder, "LDexEndMarker1;") s = Ok loc' s' ->
  mixed_mode_classes (m_mixed_mode_info s') = [].
Proof.
  intros Hl. unfold walk_entry. cbv zeta. rewrite get_bind. cbn [fst snd].
  rewrite Hl. change (contains "DexEndMarker" "LDexEndMarker1;") with true.
  cbv iota. rewrite Nat.eqb_refl. simpl andb. intros Hrun.
  apply bind_Ok in Hrun as (loc1 & sa & Ha & Hrun).
  apply bind_Ok in Ha as ([] & s1 & _ & Ha).
  apply bind_Ok in Ha as ([] & s2 & _ & Ha). rewrite get_bind in Ha.
  apply bind_Ok in Ha as ([] & s3 & Hc & Ha). injection Ha as <- <-.
  assert (H3 : mixed_mode_classes (m_mixed_mode_info s3) = []).
  { destruct (has_predefined_classes (m_mixed_mode_info s2)) eqn:Hp.
    - eapply emit_mixed_mode_classes_none_left, Hc.
    - injection Hc as <-. unfold has_predefined_classes in Hp.
      apply negb_false_iff, bool_decide_eq_true in Hp. exact Hp. }
  apply bind_Ok in Hrun as ([] & s4 & Hs & Hrun). injection Hrun as <- <-.
  destruct (m_emit_scroll_set_marker cfg && _).
  - apply bind_Ok in Hs as ([] & s5 & Hf5 & Hs). injection Hs as <-. simpl.
    rewrite (flush_out_secondary_mixed_info _ _ _ _ _ Hf5). exact H3.
  - injection Hs as <-. exact H3.
Qed.

(** Unless the end marker of the cold-start set is listed and is the name
    of an input class, the priority walk ends without mixed-mode classes, or
    the epilogue is to emit them. *)
Lemma walk_ends_without_mixed cfg unreferenced s loc s2 :
  walk_state cfg unreferenced s (length (walk_order cfg)) = Ok loc s2 ->
  build_clookup (m_dexen cfg) !! "LDexEndMarker1;" = None \/
  "LDexEndMarker1;" ∉ walk_order cfg ->
  mixed_mode_classes (m_mixed_mode_info s2) = [] \/
  find_it "LDexEndMarker1;" (walk_order cfg) = length (walk_order cfg).
Proof.
  intros Hw Hmk.
  destruct (decide ("LDexEndMarker1;" ∈ walk_order cfg)) as [Hin|Hout];
    [|right; apply find_it_absent, Hout].
  left. destruct Hmk as [Hnone|Hmk]; [|contradiction].
  set (k := find_it "LDexEndMarker1;" (walk_order cfg)).
  assert (Hk : (S k <= length (walk_order cfg))%nat)
    by (apply find_it_lt_elem in Hin; unfold k; lia).
  destruct (walk_state_le _ _ _ (S k) _ loc s2 Hk Hw) as (loc' & s' & Hs' & HE).
  destruct (walk_state_step _ _ _ _ _ _ _ (find_it_lookup _ _ Hin) Hs')
    as (lock & sk & Hsk & Hstep).
  apply walk_entry_marker in Hstep.
  - apply nil_of_no_elem. intros c Hc. rewrite <- Hstep.
    exact (ext_mixed _ _ HE c Hc).
  - rewrite (walk_state_clookup _ _ _ _ _ _ Hsk). exact Hnone.
Qed.

(** In that case the epilogue runs as from a state without mixed-mode
    classes. *)
Lemma run_epilogue_without_mixed cfg unreferenced k0 mixed0 loc s out sf :
  Inv cfg (fun _ => True) k0 mixed0 s ->
  mixed_mode_classes (m_mixed_mode_info s) = [] \/
  find_it "LDexEndMarker1;" (walk_order cfg) = length (walk_order cfg) ->
  run_epilogue cfg unreferenced loc s = Ok out sf ->
  exists s1,
    Inv cfg (fun _ => True) k0 [] s1 /\
    run_epilogue cfg unreferenced loc s1 = Ok out sf.
Proof.
  intros HI Hcase Hrun.
  assert (Hskip : forall s1,
             mixed_mode_classes (m_mixed_mode_info s1) = [] ->
             has_predefined_classes (m_mixed_mode_info s1) = false).
  { intros s1 H1. unfold has_predefined_classes.
    rewrite bool_decide_eq_true_2 by exact H1. reflexivity. }
  unfold run_epilogue in Hrun. rewrite get_bind in Hrun. cbv zeta in Hrun.
  destruct (has_predefined_classes (m_mixed_mode_info s) &&
            Nat.eqb (find_it "LDexEndMarker1;" (walk_order cfg))
              (length (walk_order cfg))) eqn:Hc.
  - apply bind_Ok in Hrun as ([] & s1 & H1 & Hrun).
    pose proof (emit_mixed_mode_classes_none_left _ _ _ _ _ H1) as Hnone.
    destruct (emit_mixed_mode_classes_Inv cfg k0 mixed0 _ _ _ _ _ HI H1) as [HI1 _].
    exists s1. split.
    + apply (Inv_fewer_mixed _ _ _ _ _ _ HI1). intros c Hx.
      rewrite Hnone in Hx. exact Hx.
    + unfold run_epilogue. rewrite get_bind. cbv zeta.
      rewrite (Hskip s1 Hnone). simpl andb. cbv iota. exact Hrun.
  - assert (Hnone : mixed_mode_classes (m_mixed_mode_info s) = []).
    { apply andb_false_iff in Hc as [Hc|Hc].
      - unfold has_predefined_classes in Hc.
        apply negb_false_iff, bool_decide_eq_true in Hc. exact Hc.
      - destruct Hcase as [Hcase|Hcase]; [exact Hcase|].
        rewrite Hcase, Nat.eqb_refl in Hc. discriminate. }
    exists s. split.
    + apply (Inv_fewer_mixed _ _ _ _ _ _ HI). intros c Hx.
      rewrite Hnone in Hx. exact Hx.
    + unfold run_epilogue. rewrite get_bind. cbv zeta.
      rewrite (Hskip s Hnone). simpl andb. cbv iota. exact Hrun.
Qed.

(** A run in which the mixed-mode dex is not lost leaves no class of the
    input out because it is a mixed-mode class. *)
Lemma run_with_covers_mixed cfg unreferenced s out sf :
  run_with cfg unreferenced s = Ok out sf ->
  build_clookup (m_dexen cfg) !! "LDexEndMarker1;" = None \/
  "LDexEndMarker1;" ∉ walk_order cfg ->
  forall c, c ∈ build_class_scope (m_dexen cfg) ->
            c ∈ emitted (det sf) \/ vetoed cfg [] false true c.
Proof.
  intros Hrun Hmk.
  destruct (run_with_Inv _ _ _ _ _ Hrun) as (loc & s2 & Hw & _).
  unfold run_with in Hrun.
  apply bind_Ok in Hrun as ([] & s1 & H1 & Hrun).
  apply bind_Ok in Hrun as (loc' & s2' & H2 & H3).
  assert (Hw' : walk_state cfg unreferenced s (length (walk_order cfg)) = Ok loc' s2').
  { unfold walk_state. rewrite (bind_Ok_intro _ _ _ _ _ H1). exact H2. }
  rewrite Hw in Hw'. injection Hw' as <- <-.
  destruct (walk_state_Inv _ _ _ _ _ _ Hw) as (HI2 & _).
  pose proof (walk_ends_without_mixed _ _ _ _ _ Hw Hmk) as Hcase.
  destruct (run_epilogue_without_mixed _ _ _ _ _ _ _ _ HI2 Hcase H3)
    as (s3 & HI3 & Hep).
  apply (run_epilogue_covers cfg unreferenced _ _ loc s3 out sf HI3 Hep).
Qed.

(** ** Input classes that carry a canary descriptor *)

Lemma plugin_additions_not_input cfg sofar pending c :
  extras_outside cfg ->
  c ∈ plugin_additions (m_plugins cfg) sofar pending ->
  c ∉ build_class_scope (m_dexen cfg).
Proof.
  intros Hex Hc. unfold plugin_additions in Hc.
  apply list_elem_of_In, in_flat_map in Hc as (plugin & Hp & Hc).
  apply list_elem_of_In in Hp, Hc. eapply Hex; eassumption.
Qed.

Lemma canary_name_inj n m : canary_name n = canary_name m -> n = m.
Proof.
  intros H. unfold canary_name in H. apply append_inj_r in H.
  destruct (decide (String.length (format_02d n) = String.length (format_02d m)))
    as [Hl|Hl].
  - apply append_inj_l in H; [|exact Hl]. apply format_02d_inj, H.
  - exfalso. apply Hl. apply (f_equal String.length) in H.
    rewrite !length_append in H. lia.
Qed.

Lemma no_input_canary_same cfg s s' :
  same_tally s s' -> no_input_canary cfg s -> no_input_canary cfg s'.
Proof.
  intros (Hd & Ho & _) HN. unfold no_input_canary, flat. rewrite Hd, Ho. exact HN.
Qed.

Lemma no_input_canary_flush cfg dconfig mm :
  extras_outside cfg -> m_emit_canaries cfg = false ->
  respects (no_input_canary cfg) (fun _ _ => True)
    (flush_out_secondary cfg dconfig mm).
Proof.
  intros Hex Hcan s [] s' HN Hfl. split; [|exact I].
  destruct (decide (outs (det s) = [])) as [He|Hne].
  { rewrite flush_out_secondary_empty in Hfl by exact He. injection Hfl as <-.
    exact HN. }
  pose proof (flat_after_flush _ _ _ _ _ Hne Hfl) as Hflat.
  rewrite Hcan in Hflat. simpl in Hflat.
  intros c Hc Hsc. rewrite Hflat in Hc. apply elem_of_app in Hc as [Hc|Hc].
  - exact (HN c Hc Hsc).
  - exfalso. exact (plugin_additions_not_input _ _ _ _ Hex Hc Hsc).
Qed.

Lemma no_input_canary_emit cfg c dconfig check_if_skip :
  extras_outside cfg -> m_emit_canaries cfg = false ->
  respects (no_input_canary cfg) (fun _ _ => True)
    (emit_class cfg c dconfig false check_if_skip).
Proof.
  intros Hex Hcan s [] s' HN. rewrite emit_class_eq. split; [|exact I].
  destruct (passes_guards cfg c false check_if_skip s) eqn:Hg;
    [|injection H as <-; exact HN].
  assert (Hnc : is_canary c = false).
  { unfold passes_guards in Hg.
    apply andb_true_iff in Hg as [Hg _]. apply andb_true_iff in Hg as [Hg _].
    apply negb_true_iff, orb_false_iff in Hg as [_ Hg]. exact Hg. }
  assert (Hadmit : forall s1, no_input_canary cfg s1 ->
                              no_input_canary cfg (admit_in cfg c s1)).
  { intros s1 H1 x Hx Hsc. unfold flat in Hx. simpl in Hx.
    rewrite app_assoc in Hx. apply elem_of_app in Hx as [Hx|Hx].
    - exact (H1 x Hx Hsc).
    - apply list_elem_of_singleton in Hx. subst x. exact Hnc. }
  destruct (overflows cfg (det s) c).
  - destruct (flush_out_secondary cfg dconfig false s) as [[] s1|] eqn:Hfl;
      [|discriminate].
    injection H as <-. apply Hadmit.
    exact (proj1 (no_input_canary_flush cfg dconfig false Hex Hcan _ _ _ HN Hfl)).
  - injection H as <-. apply Hadmit, HN.
Qed.

(** The first bin of a run that keeps the primary dex apart. *)
Lemma run_with_primary_bin cfg unreferenced s out sf :
  run_with cfg unreferenced s = Ok out sf ->
  m_normal_primary_dex cfg = false ->
  exists pre,
    out !! 0%nat = Some (pre ++ plugin_additions (m_plugins cfg) [] pre) /\
    Forall (fun c => is_canary c = false /\ c ∈ primary_dex_of cfg) pre /\
    forall c, c ∈ primary_dex_of cfg -> is_canary c = false ->
              should_skip_class (m_plugins cfg) c = false -> c ∈ pre.
Proof.
  intros Hrun Hnp.
  destruct (run_with_stages _ _ _ _ _ Hrun) as (s1 & Hp & HE & Hout & _).
  unfold run_prologue in Hp.
  apply bind_Ok in Hp as ([] & s0 & H0 & Hp). injection H0 as <-.
  rewrite Hnp in Hp. simpl in Hp.
  apply emit_primary_dex_covers in Hp as (_ & pre & Ho1 & Hpre & Hcov);
    [|reflexivity].
  exists pre. split; [|split; [exact Hpre | exact Hcov]].
  pose proof (ext_outdex _ _ HE) as [rest Hpf].
  rewrite Hout, Hpf, Ho1. reflexivity.
Qed.

(** Without canary emission no input class with a canary descriptor
    reaches the output. *)
Lemma run_with_no_input_canary cfg unreferenced s out sf :
  extras_outside cfg -> m_emit_canaries cfg = false ->
  run_with cfg unreferenced s = Ok out sf ->
  forall c, c ∈ concat out -> c ∈ build_class_scope (m_dexen cfg) ->
            is_canary c = false.
Proof.
  intros Hex Hcan Hrun.
  destruct (run_with_stages _ _ _ _ _ Hrun) as (_ & _ & _ & Hout & Hp & _).
  unfold run_with in Hrun.
  apply bind_Ok in Hrun as ([] & s1 & Hpro & Hrun).
  apply bind_Ok in Hrun as (loc & s2 & Hw & Hep).
  assert (HN1 : no_input_canary cfg s1).
  { unfold run_prologue in Hpro.
    apply bind_Ok in Hpro as ([] & s0 & H0 & Hpro). injection H0 as <-.
    destruct (m_normal_primary_dex cfg); simpl in Hpro.
    - injection Hpro as <-. intros c Hc. unfold flat in Hc. simpl in Hc.
      apply elem_of_nil in Hc. contradiction.
    - apply emit_primary_dex_covers in Hpro as (Hdet & pre & Ho1 & Hpre & _);
        [|reflexivity].
      intros c Hc Hsc. unfold flat in Hc. rewrite Hdet, Ho1 in Hc. simpl in Hc.
      rewrite !app_nil_r in Hc. apply elem_of_app in Hc as [Hc|Hc].
      + rewrite list.Forall_forall in Hpre. apply (Hpre c Hc).
      + exfalso. exact (plugin_additions_not_input _ _ _ _ Hex Hc Hsc). }
  assert (Hemit : forall x dconfig chk,
             respects (no_input_canary cfg) (fun _ _ => True)
               (emit_class cfg x dconfig false chk))
    by (intros; apply no_input_canary_emit; assumption).
  assert (Hflush : forall dconfig mm,
             respects (no_input_canary cfg) (fun _ _ => True)
               (flush_out_secondary cfg dconfig mm))
    by (intros; apply no_input_canary_flush; assumption).
  destruct (priority_walk_keeps cfg (no_input_canary cfg) (no_input_canary_same cfg)
              Hemit Hflush _ _ _ _ _ HN1 Hw) as [HN2 _].
  destruct (run_epilogue_keeps cfg (no_input_canary cfg) (no_input_canary_same cfg)
              Hemit Hflush _ _ _ _ _ HN2 Hep) as [HN3 _].
  intros c Hc. apply HN3. unfold flat. rewrite <- Hout, Hp, app_nil_r. exact Hc.
Qed.

(** An input class with a canary descriptor is in a bin only as the canary
    that [flush_out_secondary] found under the canary name of that bin. *)
Lemma input_canary_in_bin cfg unreferenced s out sf c i bin :
  extras_outside cfg ->
  run_with cfg unreferenced s = Ok out sf ->
  c ∈ build_class_scope (m_dexen cfg) -> is_canary c = true ->
  out !! i = Some bin -> c ∈ bin ->
  m_emit_canaries cfg = true /\ cls_name c = canary_name i /\
  exists l1 l2, bin = l1 ++ c :: l2 /\ (c ∉ l1) /\ (c ∉ l2).
Proof.
  intros Hex Hrun Hsc Hcn Hi Hin.
  destruct (m_emit_canaries cfg) eqn:Hcan.
  2: { exfalso.
       assert (Hc : c ∈ concat out) by (apply elem_of_concat_lookup; eauto).
       rewrite (run_with_no_input_canary _ _ _ _ _ Hex Hcan Hrun c Hc Hsc) in Hcn.
       discriminate. }
  split; [reflexivity|].
  destruct (run_with_Inv _ _ _ _ _ Hrun) as (_ & _ & _ & HI & _ & Hout & _).
  destruct (decide (first_secondary cfg <= i)%nat) as [Hk|Hk].
  - rewrite Hout in Hi.
    destruct (inv_canary _ _ _ _ _ HI Hcan i bin Hi Hk)
      as (pre & cn & Hbin & _ & Hpre & Hname).
    rewrite list.Forall_forall in Hpre.
    assert (Hnp : c ∉ pre).
    { intros Hp. rewrite (Hpre c Hp) in Hcn. discriminate. }
    assert (Hna : c ∉ plugin_additions (m_plugins cfg) (take i (outdex sf))
                      (pre ++ [cn])).
    { intros Ha. exact (plugin_additions_not_input _ _ _ _ Hex Ha Hsc). }
    rewrite Hbin in Hin. apply elem_of_app in Hin as [Hin|Hin]; [contradiction|].
    apply elem_of_cons in Hin as [->|Hin]; [|contradiction].
    split; [exact Hname|]. eauto.
  - exfalso. unfold first_secondary in Hk.
    destruct (m_normal_primary_dex cfg) eqn:Hnp; [lia|].
    assert (i = 0%nat) as -> by lia.
    destruct (run_with_primary_bin _ _ _ _ _ Hrun Hnp) as (pre & H0 & Hpre & _).
    rewrite Hi in H0. injection H0 as ->.
    rewrite list.Forall_forall in Hpre.
    apply elem_of_app in Hin as [Hin|Hin].
    + rewrite (proj1 (Hpre c Hin)) in Hcn. discriminate.
    + exact (plugin_additions_not_input _ _ _ _ Hex Hin Hsc).
Qed.

(** C3, as amended. When a run returns, an input class that is not a
    canary lies in a bin if no plugin vetoes it and it is not a mixed-mode
    class, or else the mixed-mode classes get emitted (the end marker of the
    cold-start set is not the name of an input class, or is not listed) or
    it is a class of a primary dex kept apart. When moreover no plugin hands
    an input class to a flush, the bins are disjoint on the input classes:
    an input class lies in at most one bin, at most once; and an input class
    with a canary descriptor lies in a bin only if canaries are emitted and
    it bears the canary name of that bin. *)
Theorem input_classes_partitioned cfg fuel s out sf :
  run fuel cfg s = Some (Ok out sf) ->
  forall c,
    c ∈ build_class_scope (m_dexen cfg) ->
    (is_canary c = false ->
     should_skip_class (m_plugins cfg) c = false ->
     c ∉ mixed_mode_classes (m_mixed_mode_info s) \/
     build_clookup (m_dexen cfg) !! "LDexEndMarker1;" = None \/
     "LDexEndMarker1;" ∉ walk_order cfg \/
     (m_normal_primary_dex cfg = false /\ c ∈ primary_dex_of cfg) ->
     exists i bi, out !! i = Some bi /\ c ∈ bi) /\
    (extras_outside cfg ->
     (forall i j bi bj,
         out !! i = Some bi -> out !! j = Some bj -> c ∈ bi -> c ∈ bj -> i = j) /\
     (forall i bi,
         out !! i = Some bi -> c ∈ bi ->
         exists l1 l2, bi = (l1 ++ c :: l2) /\ (c ∉ l1) /\ (c ∉ l2)) /\
     (is_canary c = true ->
      forall i bi, out !! i = Some bi -> c ∈ bi ->
                   m_emit_canaries cfg = true /\ cls_name c = canary_name i)).
Proof.
  intros Hrun c Hc.
  apply run_Some in Hrun as (unref & _ & Hrun).
  destruct (run_with_Inv _ _ _ _ _ Hrun) as (loc & s2 & _ & HI & _ & Hout & Hp & Hcov).
  assert (Hflat : flat sf = concat out)
    by (unfold flat; rewrite Hout, Hp, app_nil_r; reflexivity).
  split.
  - intros Hnc Hns Hcase.
    assert (Hplaced : c ∈ emitted (det sf) -> exists i bi, out !! i = Some bi /\ c ∈ bi).
    { intros Hem. apply elem_of_concat_lookup. rewrite <- Hflat.
      eapply inv_placed; eassumption. }
    destruct Hcase as [Hnm|[Hmk|[Hmk|[Hnp Hpd]]]].
    + destruct (Hcov c Hc) as [Hem|[Hv|[[_ Hv]|(_ & _ & Hv)]]];
        [auto | congruence | congruence | contradiction].
    + destruct (run_with_covers_mixed _ _ _ _ _ Hrun (or_introl Hmk) c Hc)
        as [Hem|[Hv|[[_ Hv]|(_ & _ & Hv)]]];
        [auto | congruence | congruence |].
      apply elem_of_nil in Hv. contradiction.
    + destruct (run_with_covers_mixed _ _ _ _ _ Hrun (or_intror Hmk) c Hc)
        as [Hem|[Hv|[[_ Hv]|(_ & _ & Hv)]]];
        [auto | congruence | congruence |].
      apply elem_of_nil in Hv. contradiction.
    + destruct (run_with_primary_bin _ _ _ _ _ Hrun Hnp) as (pre & H0 & _ & Hin).
      exists 0%nat, (pre ++ plugin_additions (m_plugins cfg) [] pre).
      split; [exact H0|]. apply elem_of_app. left. auto.
  - intros Hex.
    pose proof (inv_nodup _ _ _ _ _ HI Hex) as Hnd. rewrite Hflat in Hnd.
    destruct (is_canary c) eqn:Hnc.
    + (* a class with a canary descriptor *)
      split; [|split].
      * intros i j bi bj Hi Hj Hbi Hbj.
        destruct (input_canary_in_bin _ _ _ _ _ _ _ _ Hex Hrun Hc Hnc Hi Hbi)
          as (_ & Hni & _).
        destruct (input_canary_in_bin _ _ _ _ _ _ _ _ Hex Hrun Hc Hnc Hj Hbj)
          as (_ & Hnj & _).
        apply canary_name_inj. congruence.
      * intros i bi Hi Hbi.
        apply (input_canary_in_bin _ _ _ _ _ _ _ _ Hex Hrun Hc Hnc Hi Hbi).
      * intros _ i bi Hi Hbi.
        destruct (input_canary_in_bin _ _ _ _ _ _ _ _ Hex Hrun Hc Hnc Hi Hbi)
          as (H1 & H2 & _).
        auto.
    + assert (Hcnt : counted cfg c = true).
      { unfold counted. rewrite bool_decide_eq_true_2, Hnc by assumption. reflexivity. }
      split; [|split; [|discriminate]].
      * intros i j bi bj.
        exact (NoDup_filter_concat_unique (fun x => counted cfg x = true)
                 out c i j bi bj Hnd Hcnt).
      * intros i bi Hi Hin.
        apply (NoDup_filter_once (fun x => counted cfg x = true) bi c);
          [|exact Hcnt|exact Hin].
        exact (NoDup_filter_concat_bin _ out i bi Hnd Hi).
Qed.

(** ** The order of the priority list in the output *)

(** What a step of the walk settles for the class its entry resolves to. *)
Lemma walk_entry_places cfg k0 mixed0 unreferenced loc k entry A s loc' s' :
  Inv cfg (fun _ => True) k0 mixed0 s ->
  clookup (det s) !! entry = Some A ->
  A ∉ unreferenced ->
  is_canary A = false -> should_skip_class (m_plugins cfg) A = false ->
  A ∉ mixed0 ->
  walk_entry cfg (walk_order cfg) unreferenced loc (k, entry) s = Ok loc' s' ->
  A ∈ flat s'.
Proof.
  intros HI Hl Hu Hnc Hns Hnm. unfold walk_entry. cbv zeta.
  rewrite get_bind. cbn [fst snd]. rewrite Hl. intros Hrun.
  apply bind_Ok in Hrun as ([] & sa & Ha & Hrun).
  rewrite bool_decide_eq_false_2 in Hrun by exact Hu.
  rewrite get_bind in Hrun.
  apply bind_Ok in Hrun as ([] & sb & Hb & Hrun). injection Hrun as _ <-.
  assert (HIa : Inv cfg (fun _ => True) k0 mixed0 sa).
  { revert Ha. destruct (negb _ && _); [|intros [= <-]; exact HI].
    destruct (k <? find_it "LDexEndMarker1;" (walk_order cfg))%nat.
    - intros [= <-].
      apply (Inv_mixed cfg _ k0 mixed0 (fun mmi => remove_mixed_mode_class mmi A) s);
        [|exact HI].
      intros mmi x. simpl. rewrite list_elem_of_filter. tauto.
    - unfold always_assert_log. destruct (can_touch_coldstart_extended_set _);
        [intros [= <-]; exact HI | discriminate]. }
  destruct (emit_class_Inv cfg (fun _ => True) k0 mixed0 A _ false true Logic.I
              sa tt sb HIa Hb) as [HIb _].
  destruct (emit_class_covers cfg (fun _ => True) k0 mixed0 A _ false true sa sb
              HIa Logic.I Hb) as [Hem|[Hv|[[_ Hv]|(_ & _ & Hv)]]].
  - eapply inv_placed; eassumption.
  - congruence.
  - congruence.
  - contradiction.
Qed.

(** Classes placed in that order stay in that order. *)
Lemma placed_in_order sj sf A B :
  Ext sj sf -> outs (det sf) = [] ->
  A ∈ flat sj -> B ∉ flat sj ->
  forall q binB l1 l2,
    outdex sf !! q = Some binB -> binB = l1 ++ B :: l2 ->
    A ∈ l1 \/
    exists p binA, (p < q)%nat /\ outdex sf !! p = Some binA /\ A ∈ binA.
Proof.
  intros HEf Hp HAj HBout q binB l1 l2 Hq ->.
  assert (Hflat : flat sf = concat (outdex sf))
    by (unfold flat; rewrite Hp, app_nil_r; reflexivity).
  destruct (ext_flat _ _ HEf) as [added Hadd]. rewrite Hflat in Hadd.
  rewrite (concat_take_lookup _ q _ Hq) in Hadd.
  rewrite <- app_assoc in Hadd. simpl in Hadd.
  rewrite app_assoc in Hadd. symmetry in Hadd.
  apply app_eq_prefix in Hadd as [Z HZ]; [|exact HBout].
  assert (HAx : A ∈ concat (take q (outdex sf)) ++ l1).
  { rewrite HZ. apply elem_of_app. auto. }
  apply elem_of_app in HAx as [HAx|HAx]; [|auto].
  right. apply elem_of_concat_lookup in HAx as (p & binA & Hpl & HpA).
  apply lookup_take_Some in Hpl as [Hpl Hpq].
  exists p, binA. auto.
Qed.

Section Unplaced.

Variable cfg : InterDexConfig.

Variable unreferenced : listset DexClass.

Variable B : DexClass.

Hypothesis Hex : extras_outside cfg.

Hypothesis HBsc : B ∈ build_class_scope (m_dexen cfg).

Hypothesis HBnc : is_canary B = false.

Abbreviation Un := (unplaced B).

Abbreviation Any := (fun _ _ : InterDexState => True).

Lemma Any_refl3 (s : InterDexState) : Any s s.
Proof. exact I. Qed.

Lemma Any_trans3 (s1 s2 s3 : InterDexState) : Any s1 s2 -> Any s2 s3 -> Any s1 s3.
Proof. intros _ _. exact I. Qed.

Lemma unplaced_get {A} (f : InterDexState -> M A) :
  (forall s0, Un s0 -> respects Un Any (f s0)) -> respects Un Any (get_state ≫= f).
Proof. intros Hf s a s' HI Hrun. exact (Hf s HI s a s' HI Hrun). Qed.

Lemma unplaced_modify (f : InterDexState -> InterDexState) :
  (forall s, det (f s) = det s /\ outdex (f s) = outdex s /\
             forall c, c ∈ mixed_mode_classes (m_mixed_mode_info (f s)) ->
                       c ∈ mixed_mode_classes (m_mixed_mode_info s)) ->
  respects Un Any (modify_state f).
Proof.
  intros Hf s [] s' (H1 & H2 & H3 & H4) [= <-]. split; [|exact I].
  destruct (Hf s) as (Hd & Ho & Hm). unfold unplaced, flat. rewrite Hd, Ho.
  split; [exact H1|]. split; [|split; assumption].
  intros Hin. apply H2, Hm, Hin.
Qed.

Lemma unplaced_remove c :
  respects Un Any (modify_state (fun s' =>
    set_mixed_mode_info (remove_mixed_mode_class (m_mixed_mode_info s') c) s')).
Proof.
  apply unplaced_modify. intros s. simpl. repeat split.
  intros x Hx. apply list_elem_of_filter in Hx. apply Hx.
Qed.

Lemma unplaced_remove_all :
  respects Un Any (modify_state (fun s' =>
    set_mixed_mode_info (remove_all_mixed_mode_classes (m_mixed_mode_info s')) s')).
Proof.
  apply unplaced_modify. intros s. simpl. repeat split.
  intros x Hx. apply elem_of_nil in Hx. contradiction.
Qed.

Lemma unplaced_flush dconfig mm :
  respects Un Any (flush_out_secondary cfg dconfig mm).
Proof.
  intros s [] s' HU Hfl. split; [|exact I].
  destruct (decide (outs (det s) = [])) as [He|Hne].
  { rewrite flush_out_secondary_empty in Hfl by exact He. injection Hfl as <-.
    exact HU. }
  pose proof (flat_after_flush _ _ _ _ _ Hne Hfl) as Hflat.
  destruct (flush_out_secondary_Ok _ _ _ _ _ Hne Hfl)
    as (_ & _ & Hem & Hcl & Hmi & _).
  destruct HU as (H1 & H2 & H3 & H4). unfold unplaced.
  rewrite Hcl, Hmi, Hflat, Hem. split; [exact H1|]. split; [exact H2|].
  assert (Hadd : B ∉ plugin_additions (m_plugins cfg) (outdex s)
                     (sealed_pending cfg s)).
  { intros Hin. exact (plugin_additions_not_input _ _ _ _ Hex Hin HBsc). }
  split.
  - intros Hin. apply elem_of_app in Hin as [Hin|Hin]; [contradiction|].
    apply elem_of_app in Hin as [Hin|Hin]; [|contradiction].
    destruct (m_emit_canaries cfg); [|apply elem_of_nil in Hin; contradiction].
    apply list_elem_of_singleton in Hin.
    assert (Hcn : is_canary B = true).
    { rewrite Hin. eapply is_canary_named, find_canary_name, H1. }
    congruence.
  - intros Hin. apply elem_of_set_insert_all in Hin as [Hin|Hin]; contradiction.
Qed.

Lemma unplaced_emit c dconfig check_if_skip :
  c <> B ->
  respects Un Any (emit_class cfg c dconfig false check_if_skip).
Proof.
  intros Hn s [] s' HU. rewrite emit_class_eq. split; [|exact I].
  destruct (passes_guards cfg c false check_if_skip s);
    [|injection H as <-; exact HU].
  assert (Hadmit : forall s1, Un s1 -> Un (admit_in cfg c s1)).
  { intros s1 (H1 & H2 & H3 & H4). unfold unplaced, flat. simpl.
    split; [exact H1|]. split; [exact H2|]. split.
    - intros Hx. rewrite app_assoc in Hx. apply elem_of_app in Hx as [Hx|Hx];
        [contradiction|].
      apply list_elem_of_singleton in Hx. congruence.
    - intros Hx. apply elem_of_set_insert in Hx as [Hx|Hx];
        [congruence | contradiction]. }
  destruct (overflows cfg (det s) c).
  - destruct (flush_out_secondary cfg dconfig false s) as [[] s1|] eqn:Hfl;
      [|discriminate].
    injection H as <-. apply Hadmit.
    exact (proj1 (unplaced_flush dconfig false _ _ _ HU Hfl)).
  - injection H as <-. apply Hadmit, HU.
Qed.

Ltac unplaced_step :=
  lazymatch goal with
  | |- respects _ _ (mret _) => apply (respects_ret Un Any Any_refl3)
  | |- respects _ _ (always_assert_log _ _) =>
      apply (respects_assert Un Any Any_refl3)
  | |- respects _ _ (flush_out_secondary _ _ _) => apply unplaced_flush
  | |- respects _ _ (modify_state _) =>
      first [ apply unplaced_remove | apply unplaced_remove_all
            | apply unplaced_modify; intros ?; simpl; repeat split; auto ]
  | |- respects _ _ (get_state ≫= _) => apply unplaced_get; intros ? ?
  | |- respects _ _ (for_each _ _) =>
      apply (respects_for_each Un Any Any_refl3 Any_trans3); intros ? ?
  | |- respects _ _ (for_each_acc _ _ _) =>
      apply (respects_for_each_acc Un Any Any_refl3 Any_trans3); intros ? ? ?
  | |- respects _ _ (match ?x with Some _ => _ | None => _ end) => destruct x eqn:?
  | |- respects _ _ (if ?b then _ else _) => destruct b eqn:?
  | |- respects _ _ (_ ≫= _) => apply (respects_bind Un Any Any_trans3); [|intros ?]
  end.

(** A class that is one of the mixed-mode classes is not [B]. *)
Ltac mixed_is_not_B :=
  apply unplaced_emit; intros ->;
  match goal with
  | HU : unplaced B ?s0, Hc : is_mixed_mode_class (m_mixed_mode_info ?s0) B = true |- _ =>
      apply bool_decide_eq_true in Hc; exact (proj1 (proj2 HU) Hc)
  | HU : unplaced B ?s0, Hc : B ∈ mixed_mode_classes (m_mixed_mode_info ?s0) |- _ =>
      exact (proj1 (proj2 HU) Hc)
  end.

Lemma emit_mixed_mode_classes_unplaced interdexorder can_touch :
  respects Un Any (emit_mixed_mode_classes cfg interdexorder can_touch).
Proof.
  unfold emit_mixed_mode_classes.
  repeat first [ unplaced_step | mixed_is_not_B ].
Qed.

Lemma walk_entry_unplaced interdexorder loc position :
  position.2 <> cls_name B \/ B ∈ unreferenced ->
  respects Un Any (walk_entry cfg interdexorder unreferenced loc position).
Proof.
  intros Hpos.
  pose proof emit_mixed_mode_classes_unplaced as Hm.
  unfold walk_entry. cbv zeta.
  repeat first [ apply Hm | unplaced_step ].
  apply unplaced_emit. intros ->.
  match goal with
  | H : bool_decide (B ∈ unreferenced) = false |- _ =>
      apply bool_decide_eq_false in H; rename H into Hu
  end.
  destruct Hpos as [Hpos|Hpos]; [|contradiction].
  match goal with
  | HU : unplaced B ?s0, Hl : clookup (det ?s0) !! _ = Some B |- _ =>
      apply (proj1 HU) in Hl; exact (Hpos (eq_sym Hl))
  end.
Qed.

Lemma run_prologue_unplaced s s1 :
  B ∉ mixed_mode_classes (m_mixed_mode_info s) ->
  (m_normal_primary_dex cfg = false -> B ∉ primary_dex_of cfg) ->
  run_prologue cfg unreferenced s = Ok tt s1 ->
  Un s1.
Proof.
  intros Hnm Hnp Hp.
  destruct (run_prologue_Inv _ _ _ _ Hp) as [HI _].
  unfold unplaced. split; [|split].
  - intros n c Hl. apply (inv_clookup _ _ _ _ _ HI n c Hl).
  - intros Hin. apply Hnm. exact (inv_mixed _ _ _ _ _ HI B Hin).
  - unfold run_prologue in Hp.
    apply bind_Ok in Hp as ([] & s0 & H0 & Hp). injection H0 as <-.
    destruct (m_normal_primary_dex cfg); simpl in Hp.
    + injection Hp as <-. unfold flat. simpl. split.
      * intros Hin. apply elem_of_nil in Hin. exact Hin.
      * intros Hin. apply not_elem_of_empty in Hin. exact Hin.
    + apply emit_primary_dex_covers in Hp as (Hdet & pre & Ho1 & Hpre & _);
        [|reflexivity].
      unfold flat. rewrite Hdet, Ho1. simpl. rewrite !app_nil_r. split.
      * intros Hin. apply elem_of_app in Hin as [Hin|Hin].
        -- rewrite list.Forall_forall in Hpre.
           exact (Hnp eq_refl (proj2 (Hpre B Hin))).
        -- exact (plugin_additions_not_input _ _ _ _ Hex Hin HBsc).
      * intros Hin. simpl in Hin.
        apply elem_of_set_insert_all in Hin as [Hin|Hin];
          [exact (Hnp eq_refl Hin) | apply not_elem_of_empty in Hin; exact Hin].
Qed.

(** The walk does not place [B] before the first entry that names it, and
    not at all if the pruner reported [B]. *)
Lemma walk_state_unplaced s n loc sn :
  B ∉ mixed_mode_classes (m_mixed_mode_info s) ->
  (m_normal_primary_dex cfg = false -> B ∉ primary_dex_of cfg) ->
  (forall k, (k < n)%nat -> walk_order cfg !! k <> Some (cls_name B)) \/
  B ∈ unreferenced ->
  walk_state cfg unreferenced s n = Ok loc sn ->
  Un sn.
Proof.
  intros Hnm Hnp Hfirst Hw. unfold walk_state in Hw.
  apply bind_Ok in Hw as ([] & s1 & Hp & Hw).
  pose proof (run_prologue_unplaced _ _ Hnm Hnp Hp) as HU1.
  unfold priority_walk in Hw. rewrite get_bind in Hw.
  eapply (respects_for_each_acc Un Any Any_refl3 Any_trans3); [|exact HU1|exact Hw].
  intros b x Hx. apply walk_entry_unplaced.
  destruct Hfirst as [Hfirst|Hu]; [left | right; exact Hu].
  apply list_elem_of_lookup in Hx as [k Hk].
  apply lookup_take_Some in Hk as [Hk Hlt].
  unfold positions in Hk. rewrite list_lookup_imap in Hk.
  destruct (walk_order cfg !! k) as [e|] eqn:He; [|discriminate].
  injection Hk as <-. simpl. intros ->. exact (Hfirst k Hlt He).
Qed.

End Unplaced.

(** C8, as amended. Take two positions i < j of the priority list the walk
    uses (the list as rewritten for a normal primary dex) that name the
    classes A and B, j being the first position that names B. If both are
    classes the walk is to place (the input class of that name, no canary,
    vetoed by no plugin, no mixed-mode class), the pruner did not report A,
    B is not a class of a primary dex kept apart and no plugin hands an
    input class to a flush, then both are in the output of a run that
    returns, and every occurrence of B has A before it: earlier in the same
    bin, or in an earlier bin. *)
Theorem priority_order_preserved cfg fuel s out sf unreferenced i j A B :
  find_unrefenced_coldstart_classes fuel cfg (build_class_scope (m_dexen cfg))
    (main_det_of cfg) (coldstart_class_names cfg) (m_static_prune_classes cfg)
    = Some unreferenced ->
  run fuel cfg s = Some (Ok out sf) ->
  extras_outside cfg ->
  (i < j)%nat ->
  walk_order cfg !! i = Some (cls_name A) ->
  walk_order cfg !! j = Some (cls_name B) ->
  (forall k, (k < j)%nat -> walk_order cfg !! k <> Some (cls_name B)) ->
  walked cfg (mixed_mode_classes (m_mixed_mode_info s)) A ->
  walked cfg (mixed_mode_classes (m_mixed_mode_info s)) B ->
  A ∉ unreferenced ->
  (m_normal_primary_dex cfg = false -> B ∉ primary_dex_of cfg) ->
  (exists p binA, out !! p = Some binA /\ A ∈ binA) /\
  (exists q binB, out !! q = Some binB /\ B ∈ binB) /\
  (forall q binB l1 l2,
      out !! q = Some binB -> binB = l1 ++ B :: l2 ->
      A ∈ l1 \/ exists p binA, (p < q)%nat /\ out !! p = Some binA /\ A ∈ binA).
Proof.
  intros Hunref Hrun Hex Hij Hi Hj Hfirst (HAl & HAc & HAs & HAm)
    (HBl & HBc & HBs & HBm) HAu HBp.
  apply run_Some in Hrun as (unref' & Hunref' & Hrun).
  rewrite Hunref in Hunref'. injection Hunref' as <-.
  destruct (run_with_Inv _ _ _ _ _ Hrun)
    as (loc & s2 & Hw & HIf & HE2 & -> & Hp & Hcov).
  assert (HBsc : B ∈ build_class_scope (m_dexen cfg))
    by (apply build_clookup_lookup in HBl; apply HBl).
  assert (Hflat : flat sf = concat (outdex sf))
    by (unfold flat; rewrite Hp, app_nil_r; reflexivity).
  assert (Hlen : (S j <= length (walk_order cfg))%nat).
  { exact (lookup_lt_Some _ _ _ Hj). }
  (* the step at position i places A *)
  assert (Hlen_i : (S i <= length (walk_order cfg))%nat) by lia.
  assert (Hlen_j : (j <= length (walk_order cfg))%nat) by lia.
  assert (Hle_ij : (S i <= j)%nat) by lia.
  destruct (walk_state_le _ _ _ (S i) _ loc s2 Hlen_i Hw)
    as (li' & si' & Hsi' & HEi).
  destruct (walk_state_step _ _ _ _ _ _ _ Hi Hsi') as (li & si & Hsi & Hstepi).
  destruct (walk_state_Inv _ _ _ _ _ _ Hsi) as (HIi & _).
  assert (HAi : A ∈ flat si').
  { eapply walk_entry_places; [exact HIi| |exact HAu|exact HAc|exact HAs|exact HAm|
                                 exact Hstepi].
    rewrite (walk_state_clookup _ _ _ _ _ _ Hsi). exact HAl. }
  assert (HAf : A ∈ concat (outdex sf)).
  { rewrite <- Hflat. eapply Ext_flat_elem; [|exact HAi].
    eapply Ext_trans; eassumption. }
  (* B is in the output *)
  assert (HBf : B ∈ concat (outdex sf)).
  { rewrite <- Hflat.
    destruct (Hcov B HBsc) as [Hem|[Hv|[[_ Hv]|(_ & _ & Hv)]]].
    - eapply inv_placed; eassumption.
    - congruence.
    - congruence.
    - contradiction. }
  split; [apply elem_of_concat_lookup; exact HAf|].
  split; [apply elem_of_concat_lookup; exact HBf|].
  destruct (decide (B ∈ unreferenced)) as [HBu|HBu].
  - (* the walk leaves B to the end of the run *)
    pose proof (walk_state_unplaced cfg unreferenced B Hex HBsc HBc s _ loc s2
                  HBm HBp (or_intror HBu) Hw) as (_ & _ & HBout & _).
    apply (placed_in_order s2 sf A B HE2 Hp); [|exact HBout].
    eapply Ext_flat_elem; eassumption.
  - (* B is placed at position j, not before *)
    destruct (walk_state_le _ _ _ j _ loc s2 Hlen_j Hw) as (lj & sj & Hsj & HEj).
    pose proof (walk_state_unplaced cfg unreferenced B Hex HBsc HBc s _ lj sj
                  HBm HBp (or_introl Hfirst) Hsj) as (_ & _ & HBout & _).
    destruct (walk_state_le _ _ _ (S i) j lj sj Hle_ij Hsj)
      as (li2 & si2 & Hsi2 & HEij).
    rewrite Hsi' in Hsi2. injection Hsi2 as <- <-.
    apply (placed_in_order sj sf A B); [|exact Hp| |exact HBout].
    + eapply Ext_trans; eassumption.
    + eapply Ext_flat_elem; eassumption.
Qed.

(** ** Classes the output leaves out, classes the walk does not order *)

(** C3, counterexample. Three runs leave an input class out of every bin:
    [ex_B], which a plugin vetoes; [ex_K], which carries a canary descriptor
    in a run without canaries; and the mixed-mode class [ex_A], which no
    plugin vetoes, in a run whose mixed-mode dex is never emitted because the
    end marker of the cold-start set is listed and is the name of an input
    class. *)
Lemma input_classes_partitioned_counterexample :
  (ex_B ∈ build_class_scope (m_dexen veto_cfg) /\
   output_of (run 0 veto_cfg (fresh_state no_mixed_mode)) = Some [[ex_A]]) /\
  (ex_K ∈ build_class_scope (m_dexen stray_canary_cfg) /\
   output_of (run 0 stray_canary_cfg (fresh_state no_mixed_mode)) = Some [[ex_A]]) /\
  (ex_A ∈ build_class_scope (m_dexen marker_class_cfg) /\
   is_canary ex_A = false /\
   should_skip_class (m_plugins marker_class_cfg) ex_A = false /\
   output_of (run 0 marker_class_cfg (fresh_state mixed_A)) = Some [[ex_E]]).
Proof.
  split; [|split].
  - split; [right; left | vm_compute; reflexivity].
  - split; [right; left | vm_compute; reflexivity].
  - split; [right; left|]. repeat split; vm_compute; reflexivity.
Qed.

(** With canaries, an input class that bears the canary name of a dex is
    the canary of that dex. *)
Lemma input_canary_seals_its_dex :
  ex_K0 ∈ build_class_scope (m_dexen kept_canary_cfg) /\
  output_of (run 0 kept_canary_cfg (fresh_state no_mixed_mode))
    = Some [[ex_A; ex_K0]].
Proof. split; [right; left | vm_compute; reflexivity]. Qed.

Lemma input_classes_partitioned_witness :
  run 0 two_dex_cfg (fresh_state no_mixed_mode) = Some (Ok two_dex_out two_dex_final) /\
  ex_B ∈ build_class_scope (m_dexen two_dex_cfg) /\
  (is_canary ex_B = false ->
   should_skip_class (m_plugins two_dex_cfg) ex_B = false ->
   ex_B ∉ mixed_mode_classes (m_mixed_mode_info (fresh_state no_mixed_mode)) \/
   build_clookup (m_dexen two_dex_cfg) !! "LDexEndMarker1;" = None \/
   "LDexEndMarker1;" ∉ walk_order two_dex_cfg \/
   (m_normal_primary_dex two_dex_cfg = false /\ ex_B ∈ primary_dex_of two_dex_cfg) ->
   exists i bi, two_dex_out !! i = Some bi /\ ex_B ∈ bi) /\
  (extras_outside two_dex_cfg ->
   forall i j bi bj,
     two_dex_out !! i = Some bi -> two_dex_out !! j = Some bj ->
     ex_B ∈ bi -> ex_B ∈ bj -> i = j).
Proof.
  assert (H2 : ex_B ∈ build_class_scope (m_dexen two_dex_cfg))
    by (simpl; right; left).
  split; [exact two_dex_run|]. split; [exact H2|].
  pose proof (input_classes_partitioned two_dex_cfg 0 (fresh_state no_mixed_mode)
                two_dex_out two_dex_final two_dex_run ex_B H2) as [Hcover Hapart].
  split; [exact Hcover|]. intros Hex. exact (proj1 (Hapart Hex)).
Defined.

(** C8, counterexample. Three runs in which the class listed first is
    placed after the class listed second, both being admitted: [ex_B] is
    listed before [ex_A], a class of the primary dex kept apart, which lies
    in bin 0; [ex_A] is listed before [ex_B] and is a mixed-mode class, which
    is emitted after the walk; [dw] is listed before [dn] and was reported
    by the pruner, so that it is placed after the walk. *)
Lemma priority_order_preserved_counterexample :
  (coldstart_class_names two_dex_cfg = ["LB;"; "LDexEndMarker0;"; "LA;"] /\
   output_of (run 0 two_dex_cfg (fresh_state no_mixed_mode))
     = Some [[ex_A]; [ex_B; create_canary (canary_name 1)]]) /\
  (walk_order moved_cfg = ["LA;"; "LB;"] /\
   output_of (run 0 moved_cfg (fresh_state movable_A)) = Some [[ex_B; ex_A]]) /\
  (walk_order (order_cfg newest_first) = ["LW;"; "LN;"; "LY;"; "LV;"] /\
   output_of (run 5 (order_cfg newest_first) (fresh_state no_mixed_mode))
     = Some [[dn; dy; dw; dv]]).
Proof. vm_compute. repeat split. Qed.

Lemma listed_run :
  run 0 listed_cfg (fresh_state no_mixed_mode) = Some (Ok [[ex_B; ex_A]] listed_final).
Proof. vm_compute. reflexivity. Qed.

Lemma listed_walked c :
  c = ex_A \/ c = ex_B ->
  walked listed_cfg (mixed_mode_classes (m_mixed_mode_info (fresh_state no_mixed_mode))) c.
Proof.
  intros Hc. unfold walked.
  split; [destruct Hc as [->| ->]; vm_compute; reflexivity|].
  split; [destruct Hc as [->| ->]; reflexivity|].
  split; [destruct Hc as [->| ->]; reflexivity|].
  simpl. apply not_elem_of_nil.
Defined.

Lemma priority_order_preserved_witness :
  find_unrefenced_coldstart_classes 0 listed_cfg
    (build_class_scope (m_dexen listed_cfg)) (main_det_of listed_cfg)
    (coldstart_class_names listed_cfg) (m_static_prune_classes listed_cfg) = Some ∅ /\
  run 0 listed_cfg (fresh_state no_mixed_mode) = Some (Ok [[ex_B; ex_A]] listed_final) /\
  extras_outside listed_cfg /\
  (0 < 1)%nat /\
  walk_order listed_cfg !! 0%nat = Some (cls_name ex_B) /\
  walk_order listed_cfg !! 1%nat = Some (cls_name ex_A) /\
  (forall k, (k < 1)%nat -> walk_order listed_cfg !! k <> Some (cls_name ex_A)) /\
  walked listed_cfg (mixed_mode_classes (m_mixed_mode_info (fresh_state no_mixed_mode)))
    ex_B /\
  walked listed_cfg (mixed_mode_classes (m_mixed_mode_info (fresh_state no_mixed_mode)))
    ex_A /\
  (ex_B ∉ (∅ : listset DexClass)) /\
  (m_normal_primary_dex listed_cfg = false -> ex_A ∉ primary_dex_of listed_cfg) /\
  (forall q binB l1 l2,
      [[ex_B; ex_A]] !! q = Some binB -> binB = l1 ++ ex_A :: l2 ->
      ex_B ∈ l1 \/
      exists p binA, (p < q)%nat /\ [[ex_B; ex_A]] !! p = Some binA /\ ex_B ∈ binA).
Proof.
  assert (H1 : find_unrefenced_coldstart_classes 0 listed_cfg
                 (build_class_scope (m_dexen listed_cfg)) (main_det_of listed_cfg)
                 (coldstart_class_names listed_cfg)
                 (m_static_prune_classes listed_cfg) = Some ∅) by reflexivity.
  assert (H3 : extras_outside listed_cfg)
    by (apply no_plugins_extras_outside; reflexivity).
  assert (H4 : (0 < 1)%nat) by lia.
  assert (H5 : walk_order listed_cfg !! 0%nat = Some (cls_name ex_B)) by reflexivity.
  assert (H6 : walk_order listed_cfg !! 1%nat = Some (cls_name ex_A)) by reflexivity.
  assert (H7 : forall k, (k < 1)%nat ->
                         walk_order listed_cfg !! k <> Some (cls_name ex_A)).
  { intros k Hk. assert (k = 0%nat) as -> by lia. vm_compute. discriminate. }
  assert (H8 : walked listed_cfg
                 (mixed_mode_classes (m_mixed_mode_info (fresh_state no_mixed_mode)))
                 ex_B) by (apply listed_walked; right; reflexivity).
  assert (H9 : walked listed_cfg
                 (mixed_mode_classes (m_mixed_mode_info (fresh_state no_mixed_mode)))
                 ex_A) by (apply listed_walked; left; reflexivity).
  assert (H10 : ex_B ∉ (∅ : listset DexClass)) by apply not_elem_of_empty.
  assert (H11 : m_normal_primary_dex listed_cfg = false ->
                ex_A ∉ primary_dex_of listed_cfg) by (simpl; discriminate).
  split; [exact H1|]. split; [exact listed_run|]. split; [exact H3|].
  split; [exact H4|]. split; [exact H5|]. split; [exact H6|]. split; [exact H7|].
  split; [exact H8|]. split; [exact H9|]. split; [exact H10|]. split; [exact H11|].
  exact (proj2 (proj2 (priority_order_preserved listed_cfg 0
                         (fresh_state no_mixed_mode) [[ex_B; ex_A]] listed_final ∅
                         0%nat 1%nat ex_B ex_A H1 listed_run H3 H4 H5 H6 H7 H8 H9
                         H10 H11))).
Defined.
